(** * Scoring and gap-analysis engine of the AI governance assessment backend

    Shallow embedding of [backend/models.py], [backend/scoring.py] and
    [backend/analysis.py], and the properties of the scoring pipeline:
    dimension scores, overall score, maturity label, gap detection, ranking
    and recommendation lookup.  The second half covers the endpoints of
    [backend/main.py] that use the pipeline or guard the language model
    (assessment, benchmarks, chat), the input sanitising and conversation
    compression of [backend/conversation.py], the message formatting of
    [backend/llm_client.py] and the keyword retrieval of [backend/rag.py]. *)

From Stdlib Require Import ZArith List Bool Lia Sorting.Sorted Sorting.Permutation.
From Stdlib Require Import Floats.SpecFloat.
From stdpp Require Import base option list gmap strings fin_maps.

Local Open Scope Z_scope.

(* ===================================================================== *)
(** * Python floats                                                       *)
(* ===================================================================== *)

(** A Python [float] is an IEEE 754 binary64 number.  Its operations are the
    executable specification of binary64 arithmetic ([SpecFloat]) at
    precision 53 and maximal exponent 1024; every rounding is to nearest,
    ties to even.  A value stored in a Python float always satisfies
    [valid]. *)
Module PyFloat.

Definition prec : Z := 53.
Definition emax : Z := 1024.

Definition float : Type := spec_float.

Definition valid (x : float) : bool := valid_binary prec emax x.

Definition is_nan (x : float) : bool :=
  match x with S754_nan => true | _ => false end.

Definition is_finite (x : float) : bool :=
  match x with S754_zero _ | S754_finite _ _ _ => true | _ => false end.

(** [x + y], [x - y], [x * y]: never raise. *)
Definition add (x y : float) : float := SFadd prec emax x y.
Definition sub (x y : float) : float := SFsub prec emax x y.
Definition mul (x y : float) : float := SFmul prec emax x y.

(** The IEEE quotient; Python's [/] first checks the divisor, see
    [Py.float_truediv]. *)
Definition div (x y : float) : float := SFdiv prec emax x y.

(** [x < y], [x >= y], [x == y]: false whenever an operand is NaN. *)
Definition ltb (x y : float) : bool := SFltb x y.
Definition leb (x y : float) : bool := SFleb x y.
Definition geb (x y : float) : bool := SFleb y x.
Definition eqb (x y : float) : bool := SFeqb x y.

(** The float nearest to the integer [z] (what [float(z)] and the implicit
    conversion of an [int] operand produce). *)
Definition of_Z (z : Z) : float := binary_normalize prec emax z 0 false.

(** The float nearest to the fraction [a / b] of two integers, [b <> 0]:
    the quotient is rounded once, from the exact integers. *)
Definition of_ratio (a b : Z) : float :=
  let sf (z : Z) : float :=
    match z with
    | Z0 => S754_zero false
    | Zpos p => S754_finite false p 0
    | Zneg p => S754_finite true p 0
    end in
  SFdiv prec emax (sf a) (sf b).

(** [n / 2^k] rounded to the nearest integer, ties to the even one. *)
Definition round_shift_even (n : Z) (k : Z) : Z :=
  let d := 2 ^ k in
  let q := n / d in
  let r := n mod d in
  match Z.compare (2 * r) d with
  | Lt => q
  | Gt => q + 1
  | Eq => if Z.even q then q else q + 1
  end.

(** [round(x, 2)].  NaN and the infinities round to themselves.  A finite
    [x] is rounded, from its exact binary value, to the nearest multiple
    [k / 100] of one hundredth (ties to even), and the result is the float
    nearest to [k / 100]; the sign of [x] is kept, also on a zero result.
    A float with a non-negative exponent is an integer and rounds to
    itself. *)
Definition round2 (x : float) : float :=
  match x with
  | S754_finite s m e =>
      if 0 <=? e then x
      else
        let k := round_shift_even (Zpos m * 100) (- e) in
        match k with
        | Zpos p =>
            SFdiv prec emax (S754_finite s p 0) (S754_finite false 100 0)
        | _ => S754_zero s
        end
  | _ => x
  end.

(** Literals of the source. *)
Definition f0_0 : float := S754_zero false.
Definition f1_0 : float := of_Z 1.
Definition f2_0 : float := of_Z 2.
Definition f3_0 : float := of_Z 3.
Definition f1_5 : float := of_ratio 3 2.
Definition f2_5 : float := of_ratio 5 2.
Definition f3_5 : float := of_ratio 7 2.
Definition f4_5 : float := of_ratio 9 2.

(** 1/6 is the double 0x3FC5555555555555. *)
Example one_sixth : of_ratio 1 6 = S754_finite false 6004799503160661 (-55).
Proof. reflexivity. Qed.

(** [round(1.125, 2) = 1.12]: an exact tie goes to the even hundredth. *)
Example round2_tie : round2 (of_ratio 9 8) = of_ratio 112 100.
Proof. reflexivity. Qed.

(** [round(1.015, 2) = 1.01]: the double nearest to 1.015 lies below it. *)
Example round2_binary : round2 (of_ratio 203 200) = of_ratio 101 100.
Proof. reflexivity. Qed.

(** [round(-0.001, 2) = -0.0]. *)
Example round2_negative_zero : round2 (of_ratio (-1) 1000) = S754_zero true.
Proof. reflexivity. Qed.

(** [2.5 - 2.2 = 0.2999999999999998]. *)
Example sub_inexact :
  sub f2_5 (of_ratio 22 10) = S754_finite false 5404319552844592 (-54).
Proof. reflexivity. Qed.

End PyFloat.

(* ===================================================================== *)
(** * Python runtime: exceptions, the object store, builtins              *)
(* ===================================================================== *)

Module Py.
Import PyFloat.

(** The exceptions of the arithmetic; [DanglingReference] stands for a
    reference to no object, which no Python program can hold. *)
Inductive exn : Type :=
  | ZeroDivisionError
  | OverflowError
  | DanglingReference.

Inductive result (A : Type) : Type :=
  | Ok (a : A)
  | Raise (e : exn).
Arguments Ok {A} a.
Arguments Raise {A} e.

(** [a / b] on two [int]s: the correctly rounded quotient;
    [ZeroDivisionError] for [b = 0], [OverflowError] when the quotient is
    beyond the float range. *)
Definition int_truediv (a b : Z) : result float :=
  if b =? 0 then Raise ZeroDivisionError
  else
    match of_ratio a b with
    | S754_infinity _ => Raise OverflowError
    | q => Ok q
    end.

(** [x / y] on two floats: [ZeroDivisionError] for a zero divisor of
    either sign, the IEEE quotient otherwise. *)
Definition float_truediv (x y : float) : result float :=
  if eqb y f0_0 then Raise ZeroDivisionError else Ok (div x y).

(** [sum] of a generator of [int]s: exact. *)
Definition sum_int (l : list Z) : Z := fold_left Z.add l 0.

(** [sum] of a non-empty generator of floats, as CPython up to 3.11
    computes it: the [int] start value [0] becomes [0.0] at the first float
    and the items are added from left to right.  (From 3.12 the additions
    are compensated; [Scoring.calculate_overall_score] takes the summation
    as a parameter and its properties hold for either.) *)
Definition sum_float (l : list float) : float := fold_left add l f0_0.

(** [len] *)
Definition len {A : Type} (l : list A) : Z := Z.of_nat (length l).

End Py.

(* ===================================================================== *)
(** * models.py                                                           *)
(* ===================================================================== *)

Module Models.
Import PyFloat.

(** [score: Optional[int]], [is_na: bool = False]. *)
Record CriterionScore : Type := {
  criterion_id : string;
  score : option Z;
  is_na : bool
}.

(** [dim_score: Optional[float] = None], [num_rated: int = 0],
    [num_na: int = 0]. *)
Record DimensionResult : Type := {
  dimension_id : string;
  dimension_name : string;
  criteria_scores : list CriterionScore;
  dim_score : option float;
  num_rated : Z;
  num_na : Z
}.

(** The fields [dimension_id], [dimension_name] and [dim_score] of a
    [GapItem] carry the prefix [gap_]. *)
Record GapItem : Type := {
  gap_dimension_id : string;
  gap_dimension_name : string;
  gap_dim_score : float;
  gap_severity : string;
  priority_rank : Z;
  recommendation : string
}.

(** The range pydantic enforces on [score] ([ge=1, le=5]) when a
    [CriterionScore] is built. *)
Definition score_in_range (cs : CriterionScore) : Prop :=
  match score cs with
  | Some v => 1 <= v <= 5
  | None => True
  end.

End Models.

(* ===================================================================== *)
(** * The store of [DimensionResult] objects                              *)
(* ===================================================================== *)

(** [calculate_dim_score] assigns to attributes of the object it is given, so
    a [DimensionResult] lives in a store and is passed by reference.  A
    computation threads the store and may raise; the store keeps the writes
    made before an exception. *)
Module Store.
Import Py Models.

Abbreviation ref := positive (only parsing).
Abbreviation heap := (gmap positive DimensionResult) (only parsing).

Definition M (A : Type) : Type := heap -> result A * heap.

Definition ret {A : Type} (a : A) : M A := fun h => (Ok a, h).

Definition bind {A B : Type} (m : M A) (k : A -> M B) : M B :=
  fun h =>
    match m h with
    | (Ok a, h') => k a h'
    | (Raise e, h') => (Raise e, h')
    end.

Definition lift {A : Type} (r : result A) : M A := fun h => (r, h).

#[export] Instance M_ret : MRet M := @ret.
#[export] Instance M_bind : MBind M := fun A B k m => bind m k.

(** Attribute read [r.f]. *)
Definition getattr {A : Type} (r : ref) (f : DimensionResult -> A) : M A :=
  fun h =>
    match h !! r with
    | Some d => (Ok (f d), h)
    | None => (Raise DanglingReference, h)
    end.

(** Attribute write [r.f = v], given as the record update [upd]. *)
Definition setattr (r : ref) (upd : DimensionResult -> DimensionResult) : M unit :=
  fun h =>
    match h !! r with
    | Some d => (Ok tt, <[r := upd d]> h)
    | None => (Raise DanglingReference, h)
    end.

Definition set_dim_score (v : option PyFloat.float) (d : DimensionResult) :=
  {| dimension_id := dimension_id d; dimension_name := dimension_name d;
     criteria_scores := criteria_scores d;
     dim_score := v; num_rated := num_rated d; num_na := num_na d |}.

Definition set_num_rated (v : Z) (d : DimensionResult) :=
  {| dimension_id := dimension_id d; dimension_name := dimension_name d;
     criteria_scores := criteria_scores d;
     dim_score := dim_score d; num_rated := v; num_na := num_na d |}.

Definition set_num_na (v : Z) (d : DimensionResult) :=
  {| dimension_id := dimension_id d; dimension_name := dimension_name d;
     criteria_scores := criteria_scores d;
     dim_score := dim_score d; num_rated := num_rated d; num_na := v |}.

End Store.

(* ===================================================================== *)
(** * scoring.py                                                          *)
(* ===================================================================== *)

Module Scoring.
Import PyFloat Py Models Store.

(** [not cs.is_na and cs.score is not None] *)
Definition is_rated (cs : CriterionScore) : bool :=
  negb (is_na cs) && bool_decide (score cs <> None).

(** [[cs for cs in criteria_scores if not cs.is_na and cs.score is not None]] *)
Definition rated_of (l : list CriterionScore) : list CriterionScore :=
  List.filter is_rated l.

(** [sum(1 for cs in criteria_scores if cs.is_na)] *)
Definition na_count_of (l : list CriterionScore) : Z :=
  sum_int (map (fun _ => 1) (List.filter is_na l)).

(** [sum(cs.score for cs in rated)]; every element of [rated] has a
    score. *)
Definition score_sum (rated : list CriterionScore) : Z :=
  sum_int (map (fun cs => default 0 (score cs)) rated).

Definition calculate_dim_score (dimension : ref) : M ref :=
  cs1 ← getattr dimension criteria_scores;
  let rated := rated_of cs1 in
  cs2 ← getattr dimension criteria_scores;
  let na_count := na_count_of cs2 in
  setattr dimension (set_num_rated (len rated));;
  setattr dimension (set_num_na na_count);;
  v ← match rated with
      | [] => ret None
      | _ :: _ =>
          q ← lift (int_truediv (score_sum rated) (len rated));
          ret (Some (round2 q))
      end;
  setattr dimension (set_dim_score v);;
  ret dimension.

(** Maturity level thresholds. *)
Definition MATURITY_LEVELS : list (float * string) :=
  [ (f4_5, "Optimizing"); (f3_5, "Measured"); (f2_5, "Defined");
    (f1_5, "Managed"); (f0_0, "Initial") ]%string.

(** [next((label for threshold, label in MATURITY_LEVELS
           if score >= threshold), "Initial")] *)
Definition get_maturity_label (score : float) : string :=
  match List.filter (fun tl => geb score (fst tl)) MATURITY_LEVELS with
  | tl :: _ => snd tl
  | [] => "Initial"%string
  end.

Section Overall.
(** The builtin [sum] applied to a generator of floats. *)
Variable py_sum : list float -> float.

(** [weights.get(d.dimension_id, 1/6)] *)
Definition weight_of (weights : gmap string float) (d : DimensionResult) : float :=
  default (of_ratio 1 6) (weights !! dimension_id d).

(** [[d for d in dimensions if d.dim_score is not None]]: each dimension
    kept is paired with the score it was kept for, which is what
    [d.dim_score] reads below. *)
Definition scored_of (dimensions : list DimensionResult)
    : list (DimensionResult * float) :=
  omap (fun d => match dim_score d with
                 | Some s => Some (d, s)
                 | None => None
                 end) dimensions.

(** The dimensions are read only; they are passed by value here. *)
Definition calculate_overall_score
    (dimensions : list DimensionResult)
    (weights : option (gmap string float)) : result float :=
  let scored_dims := scored_of dimensions in
  match scored_dims with
  | [] => Ok f0_0
  | _ :: _ =>
      match weights with
      | None =>
          let n := len scored_dims in
          match float_truediv (py_sum (map snd scored_dims)) (of_Z n) with
          | Ok q => Ok (round2 q)
          | Raise e => Raise e
          end
      | Some w =>
          let total_weight := py_sum (map (fun ds => weight_of w (fst ds)) scored_dims) in
          if eqb total_weight f0_0 then Ok f0_0
          else
            let weighted_sum :=
              py_sum (map (fun ds => mul (weight_of w (fst ds)) (snd ds)) scored_dims) in
            match float_truediv weighted_sum total_weight with
            | Ok q => Ok (round2 q)
            | Raise e => Raise e
            end
      end
  end.
End Overall.

End Scoring.

(* ===================================================================== *)
(** * analysis.py                                                         *)
(* ===================================================================== *)

Module Analysis.
Import PyFloat Py Models.
Local Open Scope string_scope.

(** Context-specific recommendations per dimension and severity. *)
Definition D1_recs : gmap string string :=
  {[ "critical" :=
       "Sofortmaßnahme: Etablieren Sie mindestens ein rudimentäres KI-Risikoregister und bestimmen Sie eine*n Risikoverantwortliche*n. Ohne jegliches Risikomanagement besteht akute Nicht-Konformität mit Art. 9 EU AI Act — dies kann Bußgelder bis 3% des weltweiten Umsatzes nach sich ziehen.";
     "significant" :=
       "Formalisieren Sie das bestehende Risikomanagement: Definieren Sie Risikoklassen, Bewertungskriterien und Review-Zyklen. Implementieren Sie ein lebenszyklus-begleitendes Monitoring mit klaren Eskalationspfaden. Quick Win: Risikoregister-Template aus ISO 31000 adaptieren.";
     "moderate" :=
       "Optimieren Sie die Verzahnung des KI-Risikomanagements mit dem Enterprise Risk Management. Etablieren Sie quantitative Risikometriken und automatisierte Schwellenwert-Überwachung. Benchmarking gegen Branchenstandards empfohlen." ]}.

Definition D2_recs : gmap string string :=
  {[ "critical" :=
       "Sofortmaßnahme: Dokumentieren Sie alle Trainingsdatenquellen und führen Sie eine initiale Bias-Prüfung durch. Ohne Data Governance ist die Konformität mit Art. 10 nicht nachweisbar. Quick Win: Daten-Inventar erstellen.";
     "significant" :=
       "Implementieren Sie systematische Datenqualitätsprozesse: Definieren Sie Metriken für Vollständigkeit, Aktualität und Repräsentativität. Etablieren Sie Bias-Detection-Pipelines und Datenherkunftsdokumentation (Data Lineage).";
     "moderate" :=
       "Erweitern Sie die Data Governance um kontinuierliches Datenqualitäts-Monitoring und automatisierte Drift-Erkennung. Etablieren Sie Fairness-KPIs und regelmäßige Audits der Trainingsdaten." ]}.

Definition D3_recs : gmap string string :=
  {[ "critical" :=
       "Sofortmaßnahme: Erstellen Sie die technische Dokumentation gemäß Art. 11 / Anhang IV EU AI Act. Ohne Dokumentation ist keine Konformitätserklärung möglich. Quick Win: Dokumentationstemplate nach Anhang IV nutzen.";
     "significant" :=
       "Vervollständigen Sie die technische Dokumentation und etablieren Sie automatisierte Logging-Systeme. Implementieren Sie eine Versionierungsstrategie für Modelle, Daten und Konfigurationen.";
     "moderate" :=
       "Automatisieren Sie die Dokumentationspflege durch CI/CD-Integration. Etablieren Sie Machine-Readable-Logs und implementieren Sie Audit-Trails für alle Modellentscheidungen." ]}.

Definition D4_recs : gmap string string :=
  {[ "critical" :=
       "Sofortmaßnahme: Implementieren Sie die Mindest-Informationspflichten nach Art. 13 — Nutzer*innen müssen wissen, dass sie mit KI interagieren. Quick Win: KI-Kennzeichnung und Basis-Nutzungsinformation bereitstellen.";
     "significant" :=
       "Stärken Sie die Erklärbarkeit durch XAI-Methoden (SHAP, LIME) und etablieren Sie klare Kommunikationswege für Transparenzanfragen. Dokumentieren Sie Systemgrenzen und Unsicherheitsbereiche.";
     "moderate" :=
       "Implementieren Sie zielgruppenspezifische Erklärbarkeit (technisch für Auditoren, verständlich für Endnutzer). Etablieren Sie proaktive Transparenzberichte und Stakeholder-Kommunikation." ]}.

Definition D5_recs : gmap string string :=
  {[ "critical" :=
       "Sofortmaßnahme: Definieren Sie mindestens eine*n geschulte*n Aufsichtsperson mit Interventionsbefugnis (Art. 14). Ohne menschliche Aufsicht ist der Betrieb von Hochrisiko-KI nicht zulässig. Quick Win: Notfall-Stopp-Mechanismus implementieren.";
     "significant" :=
       "Etablieren Sie ein strukturiertes Human Oversight Framework: Definieren Sie Aufsichtsrollen, Schulungsprogramme und Interventionsprotokolle. Implementieren Sie Maßnahmen gegen Automation Bias.";
     "moderate" :=
       "Optimieren Sie die Mensch-KI-Interaktion: Implementieren Sie adaptive Aufsichtsintensität basierend auf Risikosituationen. Etablieren Sie regelmäßige Calibration-Sessions und Feedback-Loops." ]}.

Definition D6_recs : gmap string string :=
  {[ "critical" :=
       "Sofortmaßnahme: Definieren Sie Mindest-Performance-Schwellen und implementieren Sie einen Fallback-Mechanismus für Systemausfälle (Art. 15). Quick Win: Monitoring-Dashboard für zentrale Leistungskennzahlen aufsetzen.";
     "significant" :=
       "Erhöhen Sie die technische Robustheit: Implementieren Sie Cybersicherheitsmaßnahmen, adversarial Testing und kontinuierliches Performance-Monitoring. Definieren Sie Degradation-Strategien.";
     "moderate" :=
       "Etablieren Sie ein umfassendes Resilience-Framework: Chaos Engineering für KI-Systeme, automatisierte Regressionstests, und Monitoring von Data/Concept Drift mit automatischer Benachrichtigung." ]}.

Definition RECOMMENDATIONS : gmap string (gmap string string) :=
  {[ "D1" := D1_recs; "D2" := D2_recs; "D3" := D3_recs;
     "D4" := D4_recs; "D5" := D5_recs; "D6" := D6_recs ]}.

(** Risk-category-based gap thresholds. *)
Definition RISK_THRESHOLDS : gmap string float :=
  {[ "high-risk" := f3_0; "limited-risk" := f2_5; "minimal-risk" := f2_0 ]}.

(** [list.sort(key=...)]: a stable sort that compares keys with [<] only.
    Each element is inserted into the sorted prefix behind every element
    that is not greater, the way the binary insertion phase of CPython's
    sort places it. *)
Section Sort.
Context {A : Type}.
Variable key : A -> float.

Fixpoint insert_sorted (x : A) (l : list A) : list A :=
  match l with
  | [] => [x]
  | y :: l' =>
      if ltb (key x) (key y) then x :: y :: l'
      else y :: insert_sorted x l'
  end.

Definition sort_by_key (l : list A) : list A :=
  fold_left (fun sorted x => insert_sorted x sorted) l [].
End Sort.

Definition set_priority_rank (v : Z) (g : GapItem) : GapItem :=
  {| gap_dimension_id := gap_dimension_id g;
     gap_dimension_name := gap_dimension_name g;
     gap_dim_score := gap_dim_score g;
     gap_severity := gap_severity g;
     priority_rank := v;
     recommendation := recommendation g |}.

Section Tables.
(** The two module-level tables the function reads. *)
Variable recommendations : gmap string (gmap string string).
Variable risk_thresholds : gmap string float.

(** [if risk_category and risk_category in RISK_THRESHOLDS:
       threshold = RISK_THRESHOLDS[risk_category]] *)
Definition resolve_threshold (threshold : float) (risk_category : option string)
    : float :=
  match risk_category with
  | Some rc =>
      if negb (String.eqb rc "") then
        match risk_thresholds !! rc with
        | Some t => t
        | None => threshold
        end
      else threshold
  | None => threshold
  end.

Definition severity_of (gap_value : float) : string :=
  if geb gap_value f2_0 then "critical"
  else if geb gap_value f1_0 then "significant"
  else "moderate".

(** [dim_recs = RECOMMENDATIONS.get(dim.dimension_id, {})]
    [dim_recs.get(severity, dim_recs.get("moderate", ""))] *)
Definition recommendation_for (dimension_id severity : string) : string :=
  let dim_recs := default ∅ (recommendations !! dimension_id) in
  default (default "" (dim_recs !! "moderate")) (dim_recs !! severity).

(** The body of the loop over [dimensions]. *)
Definition gap_step (threshold : float) (gaps : list GapItem) (dim : DimensionResult)
    : list GapItem :=
  match dim_score dim with
  | Some s =>
      if ltb s threshold then
        let gap_value := sub threshold s in
        let severity := severity_of gap_value in
        let recommendation := recommendation_for (dimension_id dim) severity in
        gaps ++ [ {| gap_dimension_id := dimension_id dim;
                     gap_dimension_name := dimension_name dim;
                     gap_dim_score := s;
                     gap_severity := severity;
                     priority_rank := 0;
                     recommendation := recommendation |} ]
      else gaps
  | None => gaps
  end.

Definition analyze_gaps_with
    (dimensions : list DimensionResult)
    (threshold : float)
    (risk_category : option string) : list GapItem :=
  let threshold := resolve_threshold threshold risk_category in
  let gaps := fold_left (gap_step threshold) dimensions [] in
  let gaps := sort_by_key gap_dim_score gaps in
  imap (fun i gap => set_priority_rank (Z.of_nat i + 1) gap) gaps.
End Tables.

Definition analyze_gaps := analyze_gaps_with RECOMMENDATIONS RISK_THRESHOLDS.

(** The default of the parameter [threshold]. *)
Definition default_threshold : float := f3_0.

End Analysis.

(* ===================================================================== *)
(** * Facts about float comparison                                        *)
(* ===================================================================== *)

Module FloatOrder.
Import PyFloat.

(** A float that is not NaN. *)
Definition ordered (x : float) : Prop := is_nan x = false.

Lemma compare_cont_Eq (p q : positive) : Pos.compare_cont Eq p q = (p ?= q)%positive.
Proof. reflexivity. Qed.

Ltac cmp_cases :=
  repeat match goal with
    | |- context [Pos.compare_cont Eq ?p ?q] => rewrite (compare_cont_Eq p q)
    | H : context [Pos.compare_cont Eq ?p ?q] |- _ => rewrite (compare_cont_Eq p q) in H
    end;
  repeat match goal with
    | |- context [Z.compare ?a ?b] => destruct (Z.compare_spec a b)
    | H : context [Z.compare ?a ?b] |- _ => destruct (Z.compare_spec a b)
    | |- context [Pos.compare ?a ?b] => destruct (Pos.compare_spec a b)
    | H : context [Pos.compare ?a ?b] |- _ => destruct (Pos.compare_spec a b)
    end;
  simpl in *; try discriminate; try reflexivity; try congruence; try lia.

Lemma ltb_ordered (x y : float) : ltb x y = true -> ordered x /\ ordered y.
Proof. destruct x, y; simpl; unfold ordered; simpl; auto; discriminate. Qed.

Lemma ltb_leb (x y : float) : ltb x y = true -> leb x y = true.
Proof.
  unfold ltb, leb, SFltb, SFleb. destruct (SFcompare x y) as [[]|]; auto.
Qed.

Lemma compare_total (x y : float) :
  ordered x -> ordered y -> exists c, SFcompare x y = Some c.
Proof.
  unfold ordered. destruct x, y; simpl; intros; try discriminate; eauto.
Qed.

Lemma compare_antisym (x y : float) (c : comparison) :
  SFcompare x y = Some c -> SFcompare y x = Some (CompOpp c).
Proof.
  destruct x as [[]|[]| |[] mx ex], y as [[]|[]| |[] my ey]; simpl;
    intros H; inversion H; subst; clear H; try reflexivity; f_equal.
  - rewrite (Z.compare_antisym ex ey).
    destruct (ex ?= ey) eqn:E; simpl; try reflexivity.
    f_equal. apply (Pos.compare_antisym mx my).
  - rewrite (Z.compare_antisym ex ey).
    destruct (ex ?= ey) eqn:E; simpl; try reflexivity.
    apply (Pos.compare_antisym mx my).
Qed.

(** On floats that are not NaN, [x < y] fails exactly when [y <= x]. *)
Lemma not_ltb_leb (x y : float) :
  ordered x -> ordered y -> ltb x y = false -> leb y x = true.
Proof.
  intros Hx Hy H. destruct (compare_total x y Hx Hy) as [c Hc].
  unfold ltb, leb, SFltb, SFleb in *.
  rewrite (compare_antisym _ _ _ Hc). rewrite Hc in H.
  destruct c; simpl; auto; discriminate.
Qed.

Lemma ltb_not_leb (x y : float) : ltb x y = true -> leb y x = false.
Proof.
  unfold ltb, leb, SFltb, SFleb. intros H.
  destruct (SFcompare x y) as [c|] eqn:Hc; try discriminate.
  rewrite (compare_antisym _ _ _ Hc). destruct c; simpl; auto; discriminate.
Qed.

Lemma leb_trans (x y z : float) :
  leb x y = true -> leb y z = true -> leb x z = true.
Proof.
  unfold leb, SFleb.
  destruct x as [[]|[]| |[] mx ex], y as [[]|[]| |[] my ey], z as [[]|[]| |[] mz ez];
    simpl; try discriminate; try reflexivity; intros H1 H2; cmp_cases.
Qed.

Lemma ltb_leb_trans (x y z : float) :
  ltb x y = true -> leb y z = true -> ltb x z = true.
Proof.
  unfold ltb, leb, SFltb, SFleb.
  destruct x as [[]|[]| |[] mx ex], y as [[]|[]| |[] my ey], z as [[]|[]| |[] mz ez];
    simpl; try discriminate; try reflexivity; intros H1 H2; cmp_cases.
Qed.

Lemma leb_ltb_trans (x y z : float) :
  leb x y = true -> ltb y z = true -> ltb x z = true.
Proof.
  unfold ltb, leb, SFltb, SFleb.
  destruct x as [[]|[]| |[] mx ex], y as [[]|[]| |[] my ey], z as [[]|[]| |[] mz ez];
    simpl; try discriminate; try reflexivity; intros H1 H2; cmp_cases.
Qed.

Lemma ltb_trans (x y z : float) :
  ltb x y = true -> ltb y z = true -> ltb x z = true.
Proof. intros H1 H2. eapply ltb_leb_trans; eauto using ltb_leb. Qed.

Lemma ltb_irrefl (x : float) : ltb x x = false.
Proof.
  unfold ltb, SFltb. destruct x as [[]|[]| |[] mx ex]; simpl; try reflexivity;
    rewrite Z.compare_refl; change (Pos.compare_cont Eq mx mx) with (mx ?= mx)%positive;
    now rewrite Pos.compare_refl.
Qed.

(** [x == y] is [x <= y and y <= x]. *)
Lemma eqb_leb (x y : float) : eqb x y = leb x y && leb y x.
Proof.
  unfold eqb, leb, SFeqb, SFleb.
  destruct (SFcompare x y) as [c|] eqn:Hc.
  - rewrite (compare_antisym _ _ _ Hc). now destruct c.
  - reflexivity.
Qed.

End FloatOrder.

(* ===================================================================== *)
(** * Facts about rounding                                                *)
(* ===================================================================== *)

Module FloatRound.
Import PyFloat.

Definition emin : Z := SpecFloat.emin prec emax.

Lemma emin_eq : emin = -1074.
Proof. reflexivity. Qed.

Lemma fexp_eq (z : Z) : fexp prec emax z = Z.max (z - 53) (-1074).
Proof. reflexivity. Qed.

(** The number of binary digits of a positive number. *)
Lemma digits2_pos_bounds (p : positive) :
  2 ^ (Zpos (digits2_pos p) - 1) <= Zpos p < 2 ^ Zpos (digits2_pos p).
Proof.
  induction p as [p IH|p IH|]; simpl digits2_pos.
  - rewrite Pos2Z.inj_succ, Pos2Z.inj_xI.
    replace (Z.succ (Zpos (digits2_pos p)) - 1) with (Z.succ (Zpos (digits2_pos p) - 1)) by lia.
    rewrite !Z.pow_succ_r by lia. revert IH.
    generalize (2 ^ (Zpos (digits2_pos p) - 1)) (2 ^ Zpos (digits2_pos p)).
    intros a b [Ha Hb]. split; lia.
  - rewrite Pos2Z.inj_succ. change (Zpos p~0) with (2 * Zpos p).
    replace (Z.succ (Zpos (digits2_pos p)) - 1) with (Z.succ (Zpos (digits2_pos p) - 1)) by lia.
    rewrite !Z.pow_succ_r by lia. revert IH.
    generalize (2 ^ (Zpos (digits2_pos p) - 1)) (2 ^ Zpos (digits2_pos p)).
    intros a b [Ha Hb]. split; lia.
  - simpl. lia.
Qed.

(** A number below [2^k] has at most [k] digits. *)
Lemma digits2_pos_le (p : positive) (k : Z) :
  Zpos p < 2 ^ k -> Zpos (digits2_pos p) <= k.
Proof.
  intros H. destruct (Z.le_gt_cases (Zpos (digits2_pos p)) k) as [|Hgt]; [assumption|].
  pose proof (digits2_pos_bounds p) as [Hlo _].
  assert (2 ^ k <= 2 ^ (Zpos (digits2_pos p) - 1)).
  { destruct (Z.neg_nonneg_cases k) as [Hk|Hk].
    - rewrite (Z.pow_neg_r 2 k Hk). apply Z.pow_nonneg. lia.
    - apply Z.pow_le_mono_r; lia. }
  lia.
Qed.

Lemma shr_record_of_loc_m (m : Z) (l : location) :
  shr_m (shr_record_of_loc m l) = m.
Proof. destruct l as [|[]]; reflexivity. Qed.

Lemma shr_1_m (mrs : shr_record) :
  0 <= shr_m mrs -> shr_m (shr_1 mrs) = shr_m mrs / 2.
Proof.
  destruct mrs as [m r s]. cbn [shr_m]. intros Hm.
  destruct m as [|[p|p|]|p]; cbn [shr_1 shr_m].
  - reflexivity.
  - apply Z.div_unique with (r := 1); lia.
  - apply Z.div_unique with (r := 0); lia.
  - reflexivity.
  - lia.
Qed.

Lemma pow2_xI (p : positive) : 2 ^ Zpos p~1 = 2 * 2 ^ Zpos p * 2 ^ Zpos p.
Proof.
  replace (Zpos p~1) with (1 + Zpos p + Zpos p) by lia.
  rewrite !Z.pow_add_r by lia. reflexivity.
Qed.

Lemma pow2_xO (p : positive) : 2 ^ Zpos p~0 = 2 ^ Zpos p * 2 ^ Zpos p.
Proof.
  replace (Zpos p~0) with (Zpos p + Zpos p) by lia.
  rewrite !Z.pow_add_r by lia. reflexivity.
Qed.

Lemma shr_iter_m (p : positive) :
  forall mrs, 0 <= shr_m mrs ->
    shr_m (SpecFloat.iter_pos shr_1 p mrs) = shr_m mrs / 2 ^ Zpos p.
Proof.
  induction p as [p IH|p IH|]; intros mrs Hm; cbn [SpecFloat.iter_pos].
  - assert (Hp : 0 < 2 ^ Zpos p) by (apply Z.pow_pos_nonneg; lia).
    assert (H1 : 0 <= shr_m (shr_1 mrs)).
    { rewrite shr_1_m by assumption. apply Z.div_pos; lia. }
    assert (H2 : 0 <= shr_m (SpecFloat.iter_pos shr_1 p (shr_1 mrs))).
    { rewrite IH by assumption. apply Z.div_pos; assumption. }
    rewrite IH, IH, shr_1_m by assumption.
    rewrite !Z.div_div by lia. rewrite pow2_xI. f_equal. ring.
  - assert (Hp : 0 < 2 ^ Zpos p) by (apply Z.pow_pos_nonneg; lia).
    assert (H2 : 0 <= shr_m (SpecFloat.iter_pos shr_1 p mrs)).
    { rewrite IH by assumption. apply Z.div_pos; assumption. }
    rewrite IH, IH by assumption.
    rewrite !Z.div_div by lia. rewrite pow2_xO. reflexivity.
  - rewrite shr_1_m by assumption. reflexivity.
Qed.

(** Shifting to the canonical exponent. *)
Lemma shr_fexp_spec (m e : Z) (l : location) :
  0 <= m ->
  let n := fexp prec emax (Zdigits2 m + e) - e in
  shr_m (fst (shr_fexp prec emax m e l)) = (if 0 <? n then m / 2 ^ n else m) /\
  snd (shr_fexp prec emax m e l) = (if 0 <? n then e + n else e).
Proof.
  intros Hm n. unfold shr_fexp, shr. fold n.
  destruct n as [|p|p]; simpl; rewrite ?shr_record_of_loc_m; auto.
  split; [|reflexivity].
  rewrite shr_iter_m by (rewrite shr_record_of_loc_m; assumption).
  now rewrite shr_record_of_loc_m.
Qed.

(** After the shift, a positive mantissa at an exponent of at least
    [emin] is still positive, and the exponent is still at least [emin]:
    gradual underflow loses no number that the inputs can tell from zero. *)
Lemma shr_fexp_pos (m e : Z) (l : location) :
  0 < m -> emin <= e ->
  0 < shr_m (fst (shr_fexp prec emax m e l)) /\
  emin <= snd (shr_fexp prec emax m e l).
Proof.
  intros Hm He.
  pose proof (shr_fexp_spec m e l ltac:(lia)) as H. cbv zeta in H.
  destruct H as [H1 H2]. rewrite H1, H2. clear H1 H2.
  destruct m as [|p|p]; try lia. cbn [Zdigits2].
  pose proof (digits2_pos_bounds p) as [Hlo _].
  rewrite fexp_eq. rewrite emin_eq in *.
  set (d := Zpos (digits2_pos p)) in *.
  destruct (0 <? Z.max (d + e - 53) (-1074) - e) eqn:E.
  - apply Z.ltb_lt in E.
    replace (Z.max (d + e - 53) (-1074) - e) with (d - 53) by lia.
    split; [|lia].
    apply Z.lt_le_trans with (2 ^ 52); [reflexivity|].
    apply Z.div_le_lower_bound; [apply Z.pow_pos_nonneg; lia|].
    rewrite <- Z.pow_add_r by lia.
    replace (d - 53 + 52) with (d - 1) by lia. exact Hlo.
  - split; lia.
Qed.

Lemma round_nearest_even_pos (m : Z) (l : location) :
  0 < m -> 0 < round_nearest_even m l.
Proof.
  intros Hm. destruct l as [|[]]; cbn [round_nearest_even]; try lia.
  destruct (Z.even m); lia.
Qed.

(** A float that is finite and not zero, or infinite, with sign [s]. *)
Definition nonzero_of_sign (s : bool) (x : float) : Prop :=
  (exists m e, x = S754_finite s m e) \/ x = S754_infinity s.

Lemma binary_round_aux_nonzero (s : bool) (m e : Z) (l : location) :
  0 < m -> emin <= e ->
  nonzero_of_sign s (binary_round_aux prec emax s m e l).
Proof.
  intros Hm He. unfold binary_round_aux.
  pose proof (shr_fexp_pos m e l Hm He) as [P1 P2].
  destruct (shr_fexp prec emax m e l) as [mrs' e'].
  cbn [fst snd] in P1, P2.
  pose proof (round_nearest_even_pos (shr_m mrs') (loc_of_shr_record mrs') P1) as Hr.
  pose proof (shr_fexp_pos _ e' loc_Exact Hr P2) as [Q1 _].
  destruct (shr_fexp prec emax _ e' loc_Exact) as [mrs'' e''].
  cbn [fst] in Q1.
  destruct (shr_m mrs'') as [|q|q]; try lia.
  destruct (e'' <=? emax - prec); [left; eauto | right; reflexivity].
Qed.

Lemma binary_round_nonzero (s : bool) (m : positive) (e : Z) :
  emin <= e -> nonzero_of_sign s (binary_round prec emax s m e).
Proof.
  intros He. unfold binary_round.
  destruct (shl_align m e (fexp prec emax (Zpos (digits2_pos m) + e))) as [mz ez] eqn:E.
  apply binary_round_aux_nonzero; [lia|].
  unfold shl_align in E. rewrite fexp_eq in E. rewrite emin_eq in *.
  destruct (Z.max (Zpos (digits2_pos m) + e - 53) (-1074) - e);
    inversion E; subst; lia.
Qed.

Lemma nonzero_positive (x : float) : nonzero_of_sign false x -> ltb f0_0 x = true.
Proof. intros [(m & e & ->)| ->]; reflexivity. Qed.

(** Rounding a positive integer multiple of [2^e], [e >= emin], never
    gives zero. *)
Lemma binary_normalize_positive (m e : Z) :
  0 < m -> emin <= e -> ltb f0_0 (binary_normalize prec emax m e false) = true.
Proof.
  intros Hm He. destruct m as [|p|p]; try lia.
  apply nonzero_positive. now apply binary_round_nonzero.
Qed.

Lemma iter_xO (m d : positive) : Zpos (Pos.iter xO m d) = Zpos m * 2 ^ Zpos d.
Proof.
  induction d as [|d IH] using Pos.peano_ind.
  - change (Zpos m~0 = Zpos m * 2). lia.
  - rewrite Pos.iter_succ, Pos2Z.inj_succ, Z.pow_succ_r by lia.
    change (Zpos (Pos.iter xO m d)~0) with (2 * Zpos (Pos.iter xO m d)).
    rewrite IH. ring.
Qed.

(** Aligning a mantissa to a smaller exponent multiplies it by the power
    of two in between. *)
Lemma shl_align_fst (m : positive) (e ez : Z) :
  ez <= e -> Zpos (fst (shl_align m e ez)) = Zpos m * 2 ^ (e - ez).
Proof.
  intros H. unfold shl_align.
  destruct (ez - e) as [|d|d] eqn:E; cbn [fst].
  - replace (e - ez) with 0 by lia. lia.
  - lia.
  - replace (e - ez) with (Zpos d) by lia. apply iter_xO.
Qed.

(** What [valid] says of a finite float: the exponent is in range, the
    mantissa has at most 53 digits, and exactly 53 above the smallest
    exponent. *)
Lemma valid_finite_inv (s : bool) (m : positive) (e : Z) :
  valid (S754_finite s m e) = true ->
  emin <= e <= 971 /\ Zpos (digits2_pos m) <= 53 /\
  (emin < e -> Zpos (digits2_pos m) = 53).
Proof.
  unfold valid, valid_binary, bounded, canonical_mantissa.
  rewrite fexp_eq, emin_eq. intros H.
  apply andb_prop in H as [H1 H2].
  apply Z.eqb_eq in H1. apply Z.leb_le in H2.
  change (emax - prec) with 971 in H2. lia.
Qed.

(** Two valid floats of the same sign compare as their aligned
    mantissas. *)
Lemma aligned_lt (s s' : bool) (mx my : positive) (ex ey ez : Z) :
  valid (S754_finite s mx ex) = true ->
  valid (S754_finite s' my ey) = true ->
  ez = Z.min ex ey ->
  ex < ey \/ (ex = ey /\ Zpos mx < Zpos my) ->
  Zpos (fst (shl_align mx ex ez)) < Zpos (fst (shl_align my ey ez)).
Proof.
  intros Vx Vy -> H.
  apply valid_finite_inv in Vx as (Ex & Dx & _).
  apply valid_finite_inv in Vy as (Ey & _ & Dy).
  rewrite !shl_align_fst by lia.
  destruct H as [Hlt|[-> Hm]].
  - replace (Z.min ex ey) with ex by lia.
    replace (ex - ex) with 0 by lia. rewrite Z.pow_0_r, Z.mul_1_r.
    pose proof (digits2_pos_bounds mx) as [_ Hx].
    pose proof (digits2_pos_bounds my) as [Hy _].
    rewrite Dy in Hy by lia. change (2 ^ (53 - 1)) with (2 ^ 52) in Hy.
    assert (Hx' : Zpos mx < 2 ^ 53).
    { eapply Z.lt_le_trans; [exact Hx|]. apply Z.pow_le_mono_r; lia. }
    assert (Hp : 2 ^ 1 <= 2 ^ (ey - ex)) by (apply Z.pow_le_mono_r; lia).
    change (2 ^ 1) with 2 in Hp.
    apply Z.lt_le_trans with (2 ^ 52 * 2); [exact Hx'|].
    apply Z.mul_le_mono_nonneg; lia.
  - replace (Z.min ey ey) with ey by lia.
    replace (ey - ey) with 0 by lia. rewrite Z.pow_0_r. lia.
Qed.

(** ** The difference of two floats

    For valid floats, [x < t] makes the rounded difference [t - x]
    strictly positive. *)
Theorem sub_positive (x t : float) :
  valid x = true -> valid t = true ->
  ltb x t = true -> ltb f0_0 (sub t x) = true.
Proof.
  intros Vx Vt H.
  destruct x as [sx|sx| |sx mx ex], t as [st|st| |st mt et];
    try discriminate H;
    try (destruct sx, st; try discriminate H; reflexivity);
    try (destruct sx; try discriminate H; reflexivity);
    try (destruct st; try discriminate H; reflexivity).
  unfold sub, SFsub.
  pose proof (valid_finite_inv _ _ _ Vx) as (Ex & _).
  pose proof (valid_finite_inv _ _ _ Vt) as (Et & _).
  apply binary_normalize_positive; [|lia].
  unfold ltb, SFltb, SFcompare in H.
  destruct sx, st; cbn [cond_Zopp]; try discriminate H.
  - (* both negative *)
    assert (Zpos (fst (shl_align mt et (Z.min et ex))) <
            Zpos (fst (shl_align mx ex (Z.min et ex)))); [|lia].
    apply (aligned_lt true true); auto.
    destruct (Z.compare_spec ex et); try discriminate H; try lia.
    right. split; [lia|].
    change (Pos.compare_cont Eq mx mt) with (mx ?= mt)%positive in H.
    destruct (Pos.compare_spec mx mt); try discriminate H. lia.
  - (* x negative, t positive *) lia.
  - (* both positive *)
    assert (Zpos (fst (shl_align mx ex (Z.min et ex))) <
            Zpos (fst (shl_align mt et (Z.min et ex)))); [|lia].
    apply (aligned_lt false false); auto; [lia|].
    destruct (Z.compare_spec ex et); try discriminate H; try lia.
    right. split; [lia|].
    change (Pos.compare_cont Eq mx mt) with (mx ?= mt)%positive in H.
    destruct (Pos.compare_spec mx mt); try discriminate H. lia.
Qed.

(** ** The quotient of two integers

    A quotient below [2^1023] in magnitude is rounded to a finite float. *)

Lemma Zdigits2_le (z k : Z) : 0 <= z < 2 ^ k -> 0 <= k -> Zdigits2 z <= k.
Proof.
  intros [H0 H] Hk. destruct z as [|p|p]; cbn [Zdigits2]; try lia.
  now apply digits2_pos_le.
Qed.

Lemma Zdigits2_bound (z : Z) : 0 <= z -> z < 2 ^ Zdigits2 z /\ 0 <= Zdigits2 z.
Proof.
  intros H0. destruct z as [|p|p]; cbn [Zdigits2].
  - split; [reflexivity|lia].
  - pose proof (digits2_pos_bounds p). lia.
  - lia.
Qed.

Lemma Zdigits2_div (m n : Z) :
  0 <= m -> 0 < n -> Zdigits2 (m / 2 ^ n) <= Z.max 0 (Zdigits2 m - n).
Proof.
  intros Hm Hn.
  destruct (Zdigits2_bound m Hm) as [Hb Hd].
  assert (Hp : 0 < 2 ^ n) by (apply Z.pow_pos_nonneg; lia).
  assert (Hq : 0 <= m / 2 ^ n) by (apply Z.div_pos; lia).
  apply Zdigits2_le; [|lia]. split; [assumption|].
  apply Z.div_lt_upper_bound; [assumption|].
  destruct (Z.le_gt_cases n (Zdigits2 m)) as [Hle|Hgt].
  - replace (Z.max 0 (Zdigits2 m - n)) with (Zdigits2 m - n) by lia.
    rewrite <- Z.pow_add_r by lia.
    now replace (n + (Zdigits2 m - n)) with (Zdigits2 m) by lia.
  - replace (Z.max 0 (Zdigits2 m - n)) with 0 by lia.
    rewrite Z.pow_0_r, Z.mul_1_r.
    eapply Z.lt_le_trans; [exact Hb|]. apply Z.pow_le_mono_r; lia.
Qed.

Lemma round_nearest_even_bounds (m : Z) (l : location) :
  m <= round_nearest_even m l <= m + 1.
Proof.
  destruct l as [|[]]; cbn [round_nearest_even]; try lia.
  destruct (Z.even m); lia.
Qed.

Lemma Zdigits2_succ (m m' : Z) :
  0 <= m -> m <= m' <= m + 1 -> Zdigits2 m' <= Zdigits2 m + 1.
Proof.
  intros Hm H. destruct (Zdigits2_bound m Hm) as [Hb Hd].
  apply Zdigits2_le; [|lia]. split; [lia|].
  rewrite Z.pow_add_r by lia. change (2 ^ 1) with 2. lia.
Qed.

(** The two shifts of [binary_round_aux] keep the exponent in range when
    the number rounded is below [2^1023]. *)
Lemma shr_fexp_bound (m e : Z) (l : location) (k : Z) :
  0 <= m -> e <= 971 -> Zdigits2 m + e <= k -> k <= 1024 ->
  let r := shr_fexp prec emax m e l in
  0 <= shr_m (fst r) /\ snd r <= 971 /\
  (Zdigits2 (shr_m (fst r)) + snd r <= k \/ shr_m (fst r) = 0).
Proof.
  intros Hm He Hd Hk r.
  pose proof (shr_fexp_spec m e l Hm) as H. cbv zeta in H.
  fold r in H. destruct H as [H1 H2]. rewrite H1, H2. clear H1 H2.
  rewrite fexp_eq.
  destruct (0 <? Z.max (Zdigits2 m + e - 53) (-1074) - e) eqn:E.
  - apply Z.ltb_lt in E.
    set (n := Z.max (Zdigits2 m + e - 53) (-1074) - e) in *.
    assert (Hp : 0 < 2 ^ n) by (apply Z.pow_pos_nonneg; lia).
    pose proof (Zdigits2_div m n Hm E) as Hq.
    assert (H0 : 0 <= m / 2 ^ n) by (apply Z.div_pos; lia).
    split; [assumption|]. split; [lia|].
    destruct (Z.eq_dec (m / 2 ^ n) 0) as [Hz|Hz]; [right; assumption|left].
    assert (0 < Zdigits2 (m / 2 ^ n)).
    { destruct (m / 2 ^ n) as [|q|q]; cbn [Zdigits2]; lia. }
    lia.
  - split; [assumption|]. split; [assumption|]. left. assumption.
Qed.

Lemma binary_round_aux_finite (s : bool) (m e : Z) (l : location) :
  0 <= m -> e <= 971 -> Zdigits2 m + e <= 1023 ->
  is_finite (binary_round_aux prec emax s m e l) = true.
Proof.
  intros Hm He Hd. unfold binary_round_aux.
  pose proof (shr_fexp_bound m e l 1023 Hm He Hd ltac:(lia)) as H.
  cbv zeta in H.
  destruct (shr_fexp prec emax m e l) as [mrs' e'].
  cbn [fst snd] in H. destruct H as (P1 & P2 & P3).
  pose proof (round_nearest_even_bounds (shr_m mrs') (loc_of_shr_record mrs')) as Hr.
  set (m1 := round_nearest_even (shr_m mrs') (loc_of_shr_record mrs')) in *.
  assert (Hd1 : Zdigits2 m1 + e' <= 1024).
  { pose proof (Zdigits2_succ (shr_m mrs') m1 P1 Hr) as Hs.
    destruct P3 as [P3|P3]; [lia|].
    rewrite P3 in Hs. cbn [Zdigits2] in Hs. lia. }
  pose proof (shr_fexp_spec m1 e' loc_Exact ltac:(lia)) as H. cbv zeta in H.
  destruct (shr_fexp prec emax m1 e' loc_Exact) as [mrs'' e''].
  cbn [fst snd] in H. destruct H as [Q1 Q2]. rewrite fexp_eq in Q1, Q2.
  assert (He'' : e'' <= 971).
  { rewrite Q2. destruct (0 <? _); lia. }
  assert (Hm'' : 0 <= shr_m mrs'').
  { rewrite Q1. destruct (0 <? _) eqn:E; [|lia].
    apply Z.ltb_lt in E.
    apply Z.div_pos; [lia|]. apply Z.pow_pos_nonneg; lia. }
  destruct (shr_m mrs'') as [|q|q]; try lia; [reflexivity|].
  change (emax - prec) with 971.
  destruct (Z.leb_spec e'' 971); [reflexivity|lia].
Qed.

Lemma div_finite (s : bool) (pa pb : positive) :
  Zpos pa < 2 ^ 1023 * Zpos pb ->
  is_finite (SFdiv prec emax (S754_finite s pa 0) (S754_finite false pb 0)) = true.
Proof.
  intros Ha. cbn [SFdiv]. unfold SFdiv_core_binary.
  set (e' := Z.min (fexp prec emax (Zdigits2 (Zpos pa) + 0 - (Zdigits2 (Zpos pb) + 0)))
                   (0 - 0)).
  assert (He' : e' <= 0) by (unfold e'; lia).
  set (m' := match 0 - 0 - e' with
             | Zpos _ => Z.shiftl (Zpos pa) (0 - 0 - e')
             | Z0 => Zpos pa
             | Zneg _ => 0
             end).
  assert (Hm' : m' = Zpos pa * 2 ^ (- e')).
  { unfold m'. destruct (0 - 0 - e') as [|d|d] eqn:E.
    - replace (- e') with 0 by lia. lia.
    - rewrite Z.shiftl_mul_pow2 by lia. f_equal. f_equal. lia.
    - lia. }
  assert (Hp : 0 < 2 ^ (- e')) by (apply Z.pow_pos_nonneg; lia).
  pose proof (Z_div_mod m' (Zpos pb) ltac:(lia)) as Hdm.
  destruct (Z.div_eucl m' (Zpos pb)) as [q r]. destruct Hdm as [Hq Hr].
  assert (Hq0 : 0 <= q) by nia.
  assert (Hqb : q < 2 ^ (1023 - e')).
  { replace (1023 - e') with (1023 + - e') by lia.
    rewrite Z.pow_add_r by lia.
    revert Ha Hp Hq Hr Hm'.
    generalize (2 ^ 1023) (2 ^ (- e')). intros K P Ha HP Hq Hr Hm'.
    apply Z.mul_lt_mono_pos_l with (p := Zpos pb); [lia|].
    apply Z.le_lt_trans with m'; [lia|]. rewrite Hm'.
    replace (Zpos pb * (K * P)) with (K * Zpos pb * P) by ring.
    apply Z.mul_lt_mono_pos_r; lia. }
  apply binary_round_aux_finite; [assumption|lia|].
  pose proof (Zdigits2_le q (1023 - e') ltac:(lia) ltac:(lia)). lia.
Qed.

(** No overflow in [a / b] for a quotient below [2^1023]. *)
Theorem of_ratio_finite (a b : Z) :
  0 < b -> Z.abs a < 2 ^ 1023 * b -> is_finite (of_ratio a b) = true.
Proof.
  intros Hb Ha. unfold of_ratio.
  destruct b as [|pb|pb]; try lia.
  destruct a as [|pa|pa]; [reflexivity| |]; now apply div_finite.
Qed.

End FloatRound.

(* ===================================================================== *)
(** * The sort of [analyze_gaps]                                          *)
(* ===================================================================== *)

Module SortFacts.
Import PyFloat FloatOrder Analysis.

Section WithKey.
Context {A : Type}.
Variable key : A -> float.

(** The keys of [l] are not NaN. *)
Definition keys_ordered (l : list A) : Prop :=
  Forall (fun a => ordered (key a)) l.

(** [l] ascends in [key]: every element is [<=] all later ones. *)
Definition ascending (l : list A) : Prop :=
  StronglySorted (fun a b => leb (key a) (key b) = true) l.

(** The elements whose key ties with [k] under [==]. *)
Definition ties_with (k : float) (l : list A) : list A :=
  List.filter (fun a => eqb (key a) k) l.

Lemma sort_by_key_snoc (l : list A) (x : A) :
  sort_by_key key (l ++ [x]) = insert_sorted key x (sort_by_key key l).
Proof. unfold sort_by_key. now rewrite fold_left_app. Qed.

Lemma insert_sorted_perm (x : A) (l : list A) :
  Permutation (insert_sorted key x l) (x :: l).
Proof.
  induction l as [|y l IH]; cbn [insert_sorted]; [reflexivity|].
  destruct (ltb (key x) (key y)); [reflexivity|].
  rewrite IH. apply perm_swap.
Qed.

Lemma sort_by_key_perm (l : list A) : Permutation (sort_by_key key l) l.
Proof.
  induction l as [|x l IH] using rev_ind; [reflexivity|].
  rewrite sort_by_key_snoc, insert_sorted_perm, IH.
  apply Permutation_cons_append.
Qed.

Lemma sort_by_key_ordered (l : list A) :
  keys_ordered l -> keys_ordered (sort_by_key key l).
Proof.
  unfold keys_ordered. intros H.
  eapply Permutation_Forall; [|exact H]. symmetry. apply sort_by_key_perm.
Qed.

Lemma insert_sorted_ascending (x : A) (l : list A) :
  ordered (key x) -> keys_ordered l -> ascending l ->
  ascending (insert_sorted key x l).
Proof.
  intros Hx Hl Hs. induction Hs as [|y l Hs IH Hy]; cbn [insert_sorted].
  - constructor; constructor.
  - inversion Hl as [|? ? Oy Ol]; subst.
    destruct (ltb (key x) (key y)) eqn:E.
    + constructor; [constructor; assumption|].
      constructor; [now apply ltb_leb|].
      eapply List.Forall_impl; [|exact Hy]. cbv beta. intros z Hz.
      apply ltb_leb. eapply ltb_leb_trans; eassumption.
    + constructor; [now apply IH|].
      eapply Permutation_Forall; [symmetry; apply insert_sorted_perm|].
      constructor; [|assumption]. now apply not_ltb_leb.
Qed.

Lemma sort_by_key_ascending (l : list A) :
  keys_ordered l -> ascending (sort_by_key key l).
Proof.
  induction l as [|x l IH] using rev_ind; intros H; [constructor|].
  apply Forall_app in H as [Hl Hx]. inversion Hx; subst.
  rewrite sort_by_key_snoc.
  apply insert_sorted_ascending; auto using sort_by_key_ordered.
Qed.

Lemma filter_none (f : A -> bool) (l : list A) :
  Forall (fun a => f a = false) l -> List.filter f l = [].
Proof.
  induction 1 as [|a l Ha _ IH]; cbn [List.filter]; [reflexivity|].
  now rewrite Ha.
Qed.

(** Inserting [x] puts it behind every element that ties with it. *)
Lemma insert_sorted_ties (k : float) (x : A) (l : list A) :
  ascending l ->
  ties_with k (insert_sorted key x l) = ties_with k l ++ ties_with k [x].
Proof.
  intros Hs. induction Hs as [|y l Hs IH Hy]; cbn [insert_sorted]; [reflexivity|].
  destruct (ltb (key x) (key y)) eqn:E.
  - destruct (eqb (key x) k) eqn:Ex;
      [|unfold ties_with; cbn [List.filter]; rewrite Ex; now rewrite app_nil_r].
    assert (Hnone : ties_with k (y :: l) = []).
    { apply filter_none. rewrite eqb_leb in Ex.
      apply andb_prop in Ex as [_ Hkx].
      assert (Hall : Forall (fun z => leb (key y) (key z) = true) (y :: l)).
      { constructor; [|assumption].
        apply ltb_ordered in E as [_ Oy].
        apply not_ltb_leb; auto using ltb_irrefl. }
      eapply List.Forall_impl; [|exact Hall]. cbv beta. intros z Hz.
      rewrite eqb_leb. apply andb_false_iff. left.
      destruct (leb (key z) k) eqn:Hzk; [|reflexivity].
      pose proof (ltb_leb_trans _ _ _ E Hz) as Hxz.
      apply ltb_not_leb in Hxz.
      rewrite (leb_trans _ _ _ Hzk Hkx) in Hxz. discriminate. }
    unfold ties_with in *. cbn [List.filter] in *.
    rewrite Ex, Hnone. reflexivity.
  - unfold ties_with in *. cbn [List.filter].
    destruct (eqb (key y) k); cbn [app]; now rewrite IH.
Qed.

(** The sort is stable: the elements that tie with any key [k] leave it
    in the order in which they entered. *)
Lemma sort_by_key_stable (k : float) (l : list A) :
  keys_ordered l -> ties_with k (sort_by_key key l) = ties_with k l.
Proof.
  induction l as [|x l IH] using rev_ind; intros H; [reflexivity|].
  apply Forall_app in H as [Hl Hx].
  rewrite sort_by_key_snoc, insert_sorted_ties by (now apply sort_by_key_ascending).
  rewrite IH by assumption. unfold ties_with. now rewrite List.filter_app.
Qed.

Lemma sort_by_key_length (l : list A) : length (sort_by_key key l) = length l.
Proof. apply Permutation_length, sort_by_key_perm. Qed.
End WithKey.
End SortFacts.

(* ===================================================================== *)
(** * The structure of [analyze_gaps]                                     *)
(* ===================================================================== *)

Module AnalysisFacts.
Import PyFloat FloatOrder Py Models Analysis SortFacts.

(** What identifies the dimension a gap was made from. *)
Definition identity : Type := string * string * float.

Definition gap_identity (g : GapItem) : identity :=
  (gap_dimension_id g, gap_dimension_name g, gap_dim_score g).

(** The dimensions with a score that is present and strictly below [t],
    in input order. *)
Definition below_threshold (t : float) (dimensions : list DimensionResult)
    : list identity :=
  omap (fun d => match dim_score d with
                 | Some s =>
                     if ltb s t then Some (dimension_id d, dimension_name d, s)
                     else None
                 | None => None
                 end) dimensions.

(** The severity ladder. *)
Definition severity_ladder (gap_value : float) : string :=
  (if geb gap_value f2_0 then "critical"
   else if geb gap_value f1_0 then "significant"
   else "moderate")%string.

Section Tables.
Variable recommendations : gmap string (gmap string string).
Variable risk_thresholds : gmap string float.

(** The item one pass of the loop appends, if any. *)
Definition gap_of (t : float) (dim : DimensionResult) : option GapItem :=
  match gap_step recommendations t [] dim with
  | g :: _ => Some g
  | [] => None
  end.

Lemma gap_step_app (t : float) (gaps : list GapItem) (dim : DimensionResult) :
  gap_step recommendations t gaps dim = gaps ++ option_list (gap_of t dim).
Proof.
  unfold gap_of, gap_step. destruct (dim_score dim) as [s|]; cbn.
  - destruct (ltb s t); cbn; [reflexivity|now rewrite app_nil_r].
  - now rewrite app_nil_r.
Qed.

Lemma fold_gap_step (t : float) (dims : list DimensionResult) :
  forall acc,
    fold_left (gap_step recommendations t) dims acc = acc ++ omap (gap_of t) dims.
Proof.
  induction dims as [|d dims IH]; intros acc; cbn [fold_left].
  - now rewrite app_nil_r.
  - rewrite IH, gap_step_app, <- app_assoc. f_equal.
    cbn. now destruct (gap_of t d).
Qed.

(** The gaps in input order, before sorting and ranking. *)
Definition unranked (t : float) (dims : list DimensionResult) : list GapItem :=
  omap (gap_of t) dims.

Lemma analyze_gaps_with_unfold dims threshold rc :
  analyze_gaps_with recommendations risk_thresholds dims threshold rc =
  imap (fun i gap => set_priority_rank (Z.of_nat i + 1) gap)
       (sort_by_key gap_dim_score
          (unranked (resolve_threshold risk_thresholds threshold rc) dims)).
Proof. unfold analyze_gaps_with. now rewrite fold_gap_step. Qed.

(** What [gap_of] builds. *)
Lemma gap_of_Some (t : float) (d : DimensionResult) (g : GapItem) :
  gap_of t d = Some g ->
  exists s, dim_score d = Some s /\ ltb s t = true /\
    gap_identity g = (dimension_id d, dimension_name d, s) /\
    gap_severity g = severity_of (sub t s) /\
    recommendation g =
      recommendation_for recommendations (dimension_id d) (severity_of (sub t s)).
Proof.
  unfold gap_of, gap_step. destruct (dim_score d) as [s|]; [|discriminate].
  destruct (ltb s t) eqn:E; [|discriminate].
  cbn. intros [= <-]. exists s. repeat split; auto.
Qed.

Lemma unranked_identities (t : float) (dims : list DimensionResult) :
  map gap_identity (unranked t dims) = below_threshold t dims.
Proof.
  unfold unranked, below_threshold.
  induction dims as [|d dims IH]; [reflexivity|]. cbn [omap list_omap].
  unfold gap_of at 1, gap_step. destruct (dim_score d) as [s|]; [|exact IH].
  destruct (ltb s t); [|exact IH]. cbn. now rewrite <- IH.
Qed.

Lemma unranked_In (t : float) (dims : list DimensionResult) (g : GapItem) :
  In g (unranked t dims) -> exists d, In d dims /\ gap_of t d = Some g.
Proof.
  unfold unranked. induction dims as [|d dims IH]; [intros []|].
  cbn [omap list_omap]. destruct (gap_of t d) as [g'|] eqn:E.
  - intros [<-|H]; [exists d; split; [now left|assumption]|].
    destruct (IH H) as (d' & ? & ?). exists d'. split; [now right|assumption].
  - intros H. destruct (IH H) as (d' & ? & ?). exists d'. split; [now right|assumption].
Qed.

Lemma unranked_ordered (t : float) (dims : list DimensionResult) :
  keys_ordered gap_dim_score (unranked t dims).
Proof.
  apply List.Forall_forall. intros g Hg.
  apply unranked_In in Hg as (d & _ & Hd).
  apply gap_of_Some in Hd as (s & _ & Hlt & Hid & _).
  unfold gap_identity in Hid. injection Hid as _ _ ->.
  now apply ltb_ordered in Hlt.
Qed.
End Tables.

(** Ranking changes nothing but [priority_rank]. *)
Lemma map_filter_imap {A B C : Type} (g : B -> C) (h : A -> C)
    (p : B -> bool) (q : A -> bool) (l : list A) :
  forall f : nat -> A -> B,
    (forall i a, g (f i a) = h a) -> (forall i a, p (f i a) = q a) ->
    map g (List.filter p (imap f l)) = map h (List.filter q l).
Proof.
  induction l as [|a l IH]; intros f Hg Hp; [reflexivity|].
  cbn [imap List.filter]. rewrite Hp.
  destruct (q a); cbn [map]; rewrite ?Hg; [f_equal|]; apply IH; intros; cbv [compose]; auto.
Qed.

Lemma map_imap {A B C : Type} (g : B -> C) (h : A -> C) (l : list A) :
  forall f : nat -> A -> B,
    (forall i a, g (f i a) = h a) -> map g (imap f l) = map h l.
Proof.
  induction l as [|a l IH]; intros f Hg; [reflexivity|].
  cbn [imap map]. rewrite Hg. f_equal. apply IH. intros; cbv [compose]; auto.
Qed.

Lemma ranks_of_imap (l : list GapItem) :
  forall (f : nat -> GapItem -> GapItem) (n : nat),
    (forall i a, priority_rank (f i a) = Z.of_nat (n + i) + 1) ->
    map priority_rank (imap f l) = map Z.of_nat (seq (S n) (length l)).
Proof.
  induction l as [|a l IH]; intros f n H; [reflexivity|].
  cbn [imap map length seq]. rewrite H. f_equal; [lia|].
  apply IH. intros i b. cbv [compose]. rewrite H. lia.
Qed.

Lemma ascending_map {A : Type} (key : A -> float) (l : list A) :
  ascending key l <->
  StronglySorted (fun a b => leb a b = true) (map key l).
Proof.
  unfold ascending. induction l as [|a l IH]; cbn [map].
  - split; constructor.
  - split; intros H; inversion H as [|? ? Hs Hf]; subst; constructor;
      try (now apply IH).
    + now apply List.Forall_map.
    + now apply List.Forall_map in Hf.
Qed.

Lemma StronglySorted_lookup {A : Type} (R : A -> A -> Prop) (l : list A) :
  StronglySorted R l ->
  forall (i j : nat) (a b : A),
    l !! i = Some a -> l !! j = Some b -> (i < j)%nat -> R a b.
Proof.
  induction 1 as [|x l Hs IH Hx]; intros i j a b Hi Hj Hlt; [discriminate|].
  destruct j as [|j]; [lia|]. cbn in Hj.
  destruct i as [|i]; cbn in Hi.
  - injection Hi as <-. rewrite List.Forall_forall in Hx. apply Hx.
    apply list_elem_of_In. eapply list_elem_of_lookup_2; eassumption.
  - eapply IH; eauto. lia.
Qed.

Lemma In_imap {A B : Type} (l : list A) :
  forall (f : nat -> A -> B) (b : B),
    In b (imap f l) -> exists i a, In a l /\ b = f i a.
Proof.
  induction l as [|x l IH]; intros f b; cbn [imap]; [intros []|].
  intros [<-|H].
  - exists 0%nat, x. split; [now left|reflexivity].
  - destruct (IH _ _ H) as (i & a & Ha & ->).
    exists (S i), a. split; [now right|reflexivity].
Qed.

Lemma map_ties {A B : Type} (f : A -> B) (keyA : A -> float) (keyB : B -> float)
    (k : float) (l : list A) :
  (forall a, keyB (f a) = keyA a) ->
  map f (ties_with keyA k l) = ties_with keyB k (map f l).
Proof.
  intros H. unfold ties_with. induction l as [|a l IH]; [reflexivity|].
  cbn [List.filter map]. rewrite H.
  destruct (eqb (keyA a) k); cbn [map]; now rewrite IH.
Qed.

Section Results.
Variable recommendations : gmap string (gmap string string).
Variable risk_thresholds : gmap string float.
Variable dimensions : list DimensionResult.
Variable threshold : float.
Variable risk_category : option string.

Let t := resolve_threshold risk_thresholds threshold risk_category.
Let gaps :=
  analyze_gaps_with recommendations risk_thresholds dimensions threshold
    risk_category.

(** Every returned gap was made from a dimension below the threshold. *)
Lemma analyze_gaps_with_In (g : GapItem) :
  In g gaps ->
  exists d s, In d dimensions /\ dim_score d = Some s /\ ltb s t = true /\
    gap_identity g = (dimension_id d, dimension_name d, s) /\
    gap_severity g = severity_of (sub t s) /\
    recommendation g =
      recommendation_for recommendations (dimension_id d) (severity_of (sub t s)).
Proof.
  unfold gaps. rewrite analyze_gaps_with_unfold. fold t. intros H.
  apply In_imap in H as (i & g0 & Hg0 & ->).
  apply (Permutation_in _ (sort_by_key_perm gap_dim_score _)) in Hg0.
  apply unranked_In in Hg0 as (d & Hd & Hgap).
  apply gap_of_Some in Hgap as (s & Hs & Hlt & Hid & Hsev & Hrec).
  exists d, s. repeat split; assumption.
Qed.

(** The returned gaps are the dimensions below the threshold, each
    once. *)
Lemma analyze_gaps_with_identities :
  Permutation (map gap_identity gaps) (below_threshold t dimensions).
Proof.
  unfold gaps. rewrite analyze_gaps_with_unfold. fold t.
  rewrite (map_imap gap_identity gap_identity) by reflexivity.
  rewrite <- unranked_identities with (recommendations := recommendations).
  apply Permutation_map, sort_by_key_perm.
Qed.

Lemma analyze_gaps_with_scores_ascending :
  StronglySorted (fun a b => leb a b = true) (map gap_dim_score gaps).
Proof.
  unfold gaps. rewrite analyze_gaps_with_unfold. fold t.
  rewrite (map_imap gap_dim_score gap_dim_score) by reflexivity.
  apply (proj1 (ascending_map gap_dim_score _)).
  apply sort_by_key_ascending, unranked_ordered.
Qed.

Lemma analyze_gaps_with_ties (k : float) :
  map gap_identity (ties_with gap_dim_score k gaps) =
  ties_with snd k (below_threshold t dimensions).
Proof.
  unfold gaps. rewrite analyze_gaps_with_unfold. fold t.
  unfold ties_with at 1.
  rewrite (map_filter_imap gap_identity gap_identity _
             (fun g => eqb (gap_dim_score g) k)) by reflexivity.
  fold (ties_with gap_dim_score k
          (sort_by_key gap_dim_score (unranked recommendations t dimensions))).
  rewrite sort_by_key_stable by apply unranked_ordered.
  rewrite (map_ties gap_identity gap_dim_score snd) by reflexivity.
  now rewrite unranked_identities.
Qed.

Lemma analyze_gaps_with_ranks :
  map priority_rank gaps = map Z.of_nat (seq 1 (length gaps)).
Proof.
  unfold gaps. rewrite analyze_gaps_with_unfold. fold t.
  rewrite length_imap. now apply ranks_of_imap.
Qed.
End Results.

Lemma below_threshold_In (t : float) (dims : list DimensionResult) (x : identity) :
  In x (below_threshold t dims) <->
  exists d, In d dims /\ dim_score d = Some (snd x) /\ ltb (snd x) t = true /\
            x = (dimension_id d, dimension_name d, snd x).
Proof.
  unfold below_threshold. induction dims as [|d dims IH].
  - split; [intros []|intros (d & [] & _)].
  - cbn [omap list_omap]. split.
    + destruct (dim_score d) as [s|] eqn:Es.
      * destruct (ltb s t) eqn:El.
        -- intros [<-|H].
           ++ exists d. cbn [snd]. auto using in_eq.
           ++ apply IH in H as (d' & ? & ?). exists d'. split; [now right|assumption].
        -- intros H. apply IH in H as (d' & ? & ?). exists d'. split; [now right|assumption].
      * intros H. apply IH in H as (d' & ? & ?). exists d'. split; [now right|assumption].
    + intros (d' & [<-|Hin] & Hs & Hlt & Hx).
      * rewrite Hs, Hlt. left. now symmetry.
      * assert (In x (omap (fun d0 => match dim_score d0 with
                                       | Some s => if ltb s t
                                                   then Some (dimension_id d0, dimension_name d0, s)
                                                   else None
                                       | None => None
                                       end) dims)) as Hx'
          by (apply IH; eauto).
        destruct (dim_score d) as [s|]; [|exact Hx'].
        destruct (ltb s t); [now right|exact Hx'].
Qed.

Lemma map_lookup {A B : Type} (f : A -> B) (l : list A) :
  forall (n : nat) (x : A), l !! n = Some x -> map f l !! n = Some (f x).
Proof.
  induction l as [|y l IH]; intros [|n] x Hn; try discriminate; cbn in *.
  - congruence.
  - auto.
Qed.

Lemma seq_ranks_lookup (l : list GapItem) :
  forall (start n : nat) (x : GapItem),
    map priority_rank l = map Z.of_nat (seq start (length l)) ->
    l !! n = Some x -> priority_rank x = Z.of_nat (start + n).
Proof.
  induction l as [|y l IH]; intros start [|n] x H Hn; try discriminate;
    cbn in H, Hn; injection H as Hy Hl.
  - injection Hn as <-. rewrite Hy. f_equal. lia.
  - rewrite (IH (S start) n x Hl Hn). f_equal. lia.
Qed.

End AnalysisFacts.

(* ===================================================================== *)
(** * The structure of [calculate_dim_score]                              *)
(* ===================================================================== *)

Module ScoringFacts.
Import PyFloat FloatRound Py Models Store Scoring.

(** ** The claim's reading of the derived fields *)

Fixpoint count_where {A : Type} (p : A -> bool) (l : list A) : Z :=
  match l with
  | [] => 0
  | a :: l' => (if p a then 1 else 0) + count_where p l'
  end.

(** The number of criteria with [is_na = true]. *)
Definition spec_num_na (cs : list CriterionScore) : Z :=
  count_where is_na cs.

(** The scores of the criteria with [is_na = false] and a present score. *)
Fixpoint spec_rated_scores (cs : list CriterionScore) : list Z :=
  match cs with
  | [] => []
  | c :: cs' =>
      match is_na c, score c with
      | false, Some v => v :: spec_rated_scores cs'
      | _, _ => spec_rated_scores cs'
      end
  end.

Definition spec_num_rated (cs : list CriterionScore) : Z :=
  Z.of_nat (length (spec_rated_scores cs)).

Definition total (l : list Z) : Z := fold_right Z.add 0 l.

(** The sum of the rated scores divided by their count, rounded to two
    decimals; [None] when nothing is rated. *)
Definition spec_dim_score (cs : list CriterionScore) : option float :=
  match spec_rated_scores cs with
  | [] => None
  | scores => Some (round2 (of_ratio (total scores) (Z.of_nat (length scores))))
  end.

(** The quotient of the rated scores is within the float range.  Scores
    that pydantic has validated always are ([validated_representable]). *)
Definition quotient_representable (cs : list CriterionScore) : Prop :=
  Z.abs (total (spec_rated_scores cs)) < 2 ^ 1023 * Z.max 1 (spec_num_rated cs).

(** ** The code against that reading *)

Lemma sum_int_from (l : list Z) : forall a, fold_left Z.add l a = a + total l.
Proof.
  induction l as [|x l IH]; intros a; cbn [fold_left total fold_right]; [lia|].
  rewrite IH. fold (total l). lia.
Qed.

Lemma sum_int_total (l : list Z) : sum_int l = total l.
Proof. unfold sum_int. now rewrite sum_int_from. Qed.

Lemma na_count_of_spec (cs : list CriterionScore) :
  na_count_of cs = spec_num_na cs.
Proof.
  unfold na_count_of, spec_num_na. rewrite sum_int_total.
  induction cs as [|c cs IH]; [reflexivity|].
  cbn [List.filter count_where]. destruct (is_na c); cbn [map total fold_right].
  - fold (total (map (fun _ : CriterionScore => 1) (List.filter is_na cs))). lia.
  - lia.
Qed.

Lemma rated_scores_spec (cs : list CriterionScore) :
  map (fun c => default 0 (score c)) (rated_of cs) = spec_rated_scores cs.
Proof.
  unfold rated_of. induction cs as [|c cs IH]; [reflexivity|].
  cbn [List.filter spec_rated_scores]. unfold is_rated at 1.
  destruct (is_na c), (score c) as [v|] eqn:Es; cbn; try exact IH.
  now rewrite Es, <- IH.
Qed.

Lemma score_sum_spec (cs : list CriterionScore) :
  score_sum (rated_of cs) = total (spec_rated_scores cs).
Proof. unfold score_sum. now rewrite sum_int_total, rated_scores_spec. Qed.

Lemma len_rated_spec (cs : list CriterionScore) :
  len (rated_of cs) = spec_num_rated cs.
Proof.
  unfold len, spec_num_rated. now rewrite <- rated_scores_spec, length_map.
Qed.

Lemma rated_nil_spec (cs : list CriterionScore) :
  rated_of cs = [] <-> spec_rated_scores cs = [].
Proof.
  rewrite <- rated_scores_spec. destruct (rated_of cs); cbn; split; congruence.
Qed.

(** ** One call on the store *)

(** The value computed for [dim_score], or the exception of the
    division. *)
Definition mean_of (cs : list CriterionScore) : result (option float) :=
  match rated_of cs with
  | [] => Ok None
  | _ :: _ =>
      match int_truediv (score_sum (rated_of cs)) (len (rated_of cs)) with
      | Ok q => Ok (Some (round2 q))
      | Raise e => Raise e
      end
  end.

(** The object after the two counts are written. *)
Definition counted (d : DimensionResult) : DimensionResult :=
  set_num_na (na_count_of (criteria_scores d))
    (set_num_rated (len (rated_of (criteria_scores d))) d).

Lemma bind_getattr {A B : Type} (h : heap) (l : ref) (d : DimensionResult)
    (f : DimensionResult -> A) (k : A -> M B) :
  h !! l = Some d -> bind (getattr l f) k h = k (f d) h.
Proof. intros Hl. unfold bind, getattr. now rewrite Hl. Qed.

Lemma bind_setattr {B : Type} (h : heap) (l : ref) (d : DimensionResult)
    (upd : DimensionResult -> DimensionResult) (k : unit -> M B) :
  h !! l = Some d -> bind (setattr l upd) k h = k tt (<[l := upd d]> h).
Proof. intros Hl. unfold bind, setattr. now rewrite Hl. Qed.

Lemma calculate_dim_score_run (h : heap) (l : ref) (d : DimensionResult) :
  h !! l = Some d ->
  calculate_dim_score l h =
    match mean_of (criteria_scores d) with
    | Ok v => (Ok l, <[l := set_dim_score v (counted d)]> h)
    | Raise e => (Raise e, <[l := counted d]> h)
    end.
Proof.
  intros Hl. unfold calculate_dim_score, mean_of, counted.
  unfold mbind, M_bind, mret, M_ret.
  rewrite (bind_getattr h l d _ _ Hl). cbv zeta.
  rewrite (bind_getattr h l d _ _ Hl).
  rewrite (bind_setattr h l d _ _ Hl).
  erewrite bind_setattr by apply lookup_insert_eq.
  rewrite insert_insert_eq.
  destruct (rated_of (criteria_scores d)) as [|c r] eqn:E.
  - unfold bind at 1, ret at 1.
    erewrite bind_setattr by apply lookup_insert_eq.
    now rewrite insert_insert_eq.
  - unfold bind at 1, bind at 1, lift.
    destruct (int_truediv _ _) as [q|e]; [|reflexivity].
    unfold ret at 1.
    erewrite bind_setattr by apply lookup_insert_eq.
    now rewrite insert_insert_eq.
Qed.

(** The division of [calculate_dim_score] raises [OverflowError] or
    nothing. *)
Lemma mean_of_cases (cs : list CriterionScore) :
  (exists v, mean_of cs = Ok v) \/ mean_of cs = Raise OverflowError.
Proof.
  unfold mean_of. destruct (rated_of cs) as [|c r] eqn:E; [left; eauto|].
  unfold int_truediv. replace (len (c :: r) =? 0) with false.
  - destruct (of_ratio _ _); eauto.
  - symmetry. apply Z.eqb_neq. unfold len. cbn [length]. lia.
Qed.

Lemma mean_of_representable (cs : list CriterionScore) :
  quotient_representable cs -> mean_of cs = Ok (spec_dim_score cs).
Proof.
  intros Hq. unfold mean_of, spec_dim_score.
  pose proof (rated_scores_spec cs) as Hs.
  destruct (rated_of cs) as [|c r] eqn:E.
  - cbn in Hs. now rewrite <- Hs.
  - assert (Hn : spec_rated_scores cs <> []).
    { rewrite <- rated_nil_spec. congruence. }
    rewrite <- E, score_sum_spec, len_rated_spec.
    unfold quotient_representable in Hq.
    assert (Hpos : 0 < spec_num_rated cs).
    { unfold spec_num_rated. destruct (spec_rated_scores cs); [congruence|cbn; lia]. }
    replace (Z.max 1 (spec_num_rated cs)) with (spec_num_rated cs) in Hq by lia.
    pose proof (of_ratio_finite _ _ Hpos Hq) as Hfin.
    unfold int_truediv. destruct (Z.eqb_spec (spec_num_rated cs) 0); [lia|].
    unfold spec_num_rated in *.
    destruct (spec_rated_scores cs) as [|v vs]; [congruence|].
    destruct (of_ratio _ _); try discriminate Hfin; reflexivity.
Qed.

Lemma total_bounds (cs : list CriterionScore) :
  Forall score_in_range cs ->
  spec_num_rated cs <= total (spec_rated_scores cs) <= 5 * spec_num_rated cs.
Proof.
  unfold spec_num_rated.
  induction 1 as [|c cs Hc _ IH]; cbn [spec_rated_scores]; [cbn; lia|].
  unfold score_in_range in Hc.
  destruct (is_na c), (score c) as [v|]; try exact IH.
  cbn [length total fold_right]. fold (total (spec_rated_scores cs)). lia.
Qed.

(** Scores in the validated range [1..5] never overflow the division. *)
Lemma validated_representable (cs : list CriterionScore) :
  Forall score_in_range cs -> quotient_representable cs.
Proof.
  intros H. apply total_bounds in H. unfold quotient_representable.
  assert (0 <= spec_num_rated cs) by (unfold spec_num_rated; lia).
  assert (HK : 8 <= 2 ^ 1023) by (apply Z.leb_le; reflexivity).
  revert HK. generalize (2 ^ 1023). intros K HK. nia.
Qed.

(** Overwriting the score of a criterion flagged N/A leaves the rated
    criteria as they are. *)
Lemma rated_of_insert_na (cs : list CriterionScore) :
  forall (i : nat) (c c' : CriterionScore),
    cs !! i = Some c -> is_na c = true -> is_na c' = true ->
    rated_of (<[i := c']> cs) = rated_of cs.
Proof.
  unfold rated_of. induction cs as [|x cs IH]; intros i c c' Hi Hc Hc'; [reflexivity|].
  destruct i as [|i]; cbn in Hi.
  - injection Hi as ->.
    change (<[0%nat := c']> (c :: cs)) with (c' :: cs).
    assert (Hr : is_rated c = false) by (unfold is_rated; now rewrite Hc).
    assert (Hr' : is_rated c' = false) by (unfold is_rated; now rewrite Hc').
    cbn [List.filter]. now rewrite Hr, Hr'.
  - change (<[S i := c']> (x :: cs)) with (x :: <[i := c']> cs).
    cbn [List.filter]. now rewrite (IH i c c').
Qed.

Lemma na_count_of_insert_na (cs : list CriterionScore) :
  forall (i : nat) (c c' : CriterionScore),
    cs !! i = Some c -> is_na c = true -> is_na c' = true ->
    na_count_of (<[i := c']> cs) = na_count_of cs.
Proof.
  intros i c c' Hi Hc Hc'. rewrite !na_count_of_spec. unfold spec_num_na.
  revert i Hi. induction cs as [|x cs IH]; intros i Hi; [reflexivity|].
  destruct i as [|i]; cbn in Hi.
  - injection Hi as ->.
    change (<[0%nat := c']> (c :: cs)) with (c' :: cs).
    cbn [count_where]. now rewrite Hc, Hc'.
  - change (<[S i := c']> (x :: cs)) with (x :: <[i := c']> cs).
    cbn [count_where]. now rewrite (IH i).
Qed.

End ScoringFacts.

(* ===================================================================== *)
(** * Properties of the scoring engine                                    *)
(* ===================================================================== *)

Module ScoringProperties.
Import PyFloat FloatOrder FloatRound Py Models Store Scoring ScoringFacts.
Local Open Scope string_scope.

(** ** The scenario of the specification: ratings
    [1, None (is_na = true), 2, None, 3] in dimension D2. *)

Definition rating (id : string) (v : option Z) (na : bool) : CriterionScore :=
  {| criterion_id := id; score := v; is_na := na |}.

Definition dimension (id name : string) (cs : list CriterionScore) : DimensionResult :=
  {| dimension_id := id; dimension_name := name; criteria_scores := cs;
     dim_score := None; num_rated := 0; num_na := 0 |}.

(** The fourth rating is absent and not flagged ([is_na] keeps its default
    [False]). *)
Definition scenario_D2 : DimensionResult :=
  dimension "D2" "Data Governance"
    [ rating "D2.1" (Some 1) false; rating "D2.2" None true;
      rating "D2.3" (Some 2) false; rating "D2.4" None false;
      rating "D2.5" (Some 3) false ].

(** The same ratings with the fourth flagged N/A as well. *)
Definition scenario_D2_both_na : DimensionResult :=
  dimension "D2" "Data Governance"
    [ rating "D2.1" (Some 1) false; rating "D2.2" None true;
      rating "D2.3" (Some 2) false; rating "D2.4" None true;
      rating "D2.5" (Some 3) false ].

Definition scored (d : DimensionResult) (s : option float) (rated na : Z)
    : DimensionResult :=
  {| dimension_id := dimension_id d; dimension_name := dimension_name d;
     criteria_scores := criteria_scores d;
     dim_score := s; num_rated := rated; num_na := na |}.

Lemma scenario_D2_run :
  calculate_dim_score 1%positive {[ 1%positive := scenario_D2 ]} =
  (Ok 1%positive, {[ 1%positive := scored scenario_D2 (Some f2_0) 3 1 ]}).
Proof. vm_compute. reflexivity. Qed.

Lemma scenario_D2_both_na_run :
  calculate_dim_score 1%positive {[ 1%positive := scenario_D2_both_na ]} =
  (Ok 1%positive, {[ 1%positive := scored scenario_D2_both_na (Some f2_0) 3 2 ]}).
Proof. vm_compute. reflexivity. Qed.

(** Six ratings of 5 and no N/A: [dim_score = 5.0], [num_rated = 6],
    [num_na = 0]. *)
Example all_fives_run :
  let d := dimension "D1" "Risk Management"
             (map (fun id => rating id (Some 5) false)
                  ["D1.1"; "D1.2"; "D1.3"; "D1.4"; "D1.5"; "D1.6"]) in
  calculate_dim_score 1%positive {[ 1%positive := d ]} =
  (Ok 1%positive, {[ 1%positive := scored d (Some (of_Z 5)) 6 0 ]}).
Proof. vm_compute. reflexivity. Qed.

(** Nothing rated: [dim_score = None]. *)
Example nothing_rated_run :
  let d := dimension "D4" "Transparency"
             [ rating "D4.1" None false; rating "D4.2" (Some 4) true ] in
  calculate_dim_score 1%positive {[ 1%positive := d ]} =
  (Ok 1%positive, {[ 1%positive := scored d None 0 1 ]}).
Proof. vm_compute. reflexivity. Qed.

(** A quotient beyond the float range raises [OverflowError]; the two
    counts are already written. *)
Example overflow_run :
  let d := dimension "D1" "Risk Management" [ rating "D1.1" (Some (10 ^ 400)) false ] in
  calculate_dim_score 1%positive {[ 1%positive := d ]} =
  (Raise OverflowError, {[ 1%positive := scored d None 1 0 ]}).
Proof. vm_compute. reflexivity. Qed.

(** C1, as stated, at the scenario: the claim gives [num_na = 2] for the
    ratings [1, None (is_na = true), 2, None, 3]; the call leaves
    [dim_score = 2.0], [num_rated = 3] and [num_na = 1], because only the
    second rating is flagged N/A. *)
Lemma C1_scenario_num_na_is_not_2 :
  ~ (exists d',
       snd (calculate_dim_score 1%positive {[ 1%positive := scenario_D2 ]})
         !! 1%positive = Some d' /\
       dim_score d' = Some f2_0 /\ num_rated d' = 3 /\ num_na d' = 2).
Proof.
  rewrite scenario_D2_run. cbn [snd]. rewrite lookup_singleton_eq.
  intros (d' & [= <-] & _ & _ & H). discriminate H.
Qed.

(** C1 (amended): for a [DimensionResult] whose rated scores have a
    quotient within the float range (every pydantic-validated one has),
    [calculate_dim_score] returns the object and sets [num_na] to the
    number of criteria with [is_na = true], [num_rated] to the number of
    criteria with [is_na = false] and a present score, and [dim_score] to
    the sum of those scores divided by their count, rounded to two
    decimals, or to [None] when there is none.  For the ratings
    [1, None (is_na = true), 2, None, 3] this gives [dim_score = 2.0],
    [num_rated = 3], [num_na = 1]; [num_na = 2] when the fourth rating is
    flagged N/A too. *)
Theorem C1_calculate_dim_score (h : gmap positive DimensionResult)
    (l : positive) (d : DimensionResult) :
  h !! l = Some d ->
  quotient_representable (criteria_scores d) ->
  (exists d',
      calculate_dim_score l h = (Ok l, <[l := d']> h) /\
      num_na d' = spec_num_na (criteria_scores d) /\
      num_rated d' = spec_num_rated (criteria_scores d) /\
      dim_score d' = spec_dim_score (criteria_scores d)) /\
  calculate_dim_score 1%positive {[ 1%positive := scenario_D2 ]} =
    (Ok 1%positive, {[ 1%positive := scored scenario_D2 (Some f2_0) 3 1 ]}) /\
  calculate_dim_score 1%positive {[ 1%positive := scenario_D2_both_na ]} =
    (Ok 1%positive, {[ 1%positive := scored scenario_D2_both_na (Some f2_0) 3 2 ]}).
Proof.
  intros Hl Hq. split; [|split; [exact scenario_D2_run | exact scenario_D2_both_na_run]].
  rewrite (calculate_dim_score_run h l d Hl), (mean_of_representable _ Hq).
  eexists. split; [reflexivity|]. cbn [num_na num_rated dim_score set_dim_score counted set_num_na set_num_rated].
  auto using na_count_of_spec, len_rated_spec.
Qed.

Lemma C1_calculate_dim_score_witness :
  (exists d',
      calculate_dim_score 1%positive {[ 1%positive := scenario_D2 ]} =
        (Ok 1%positive, <[1%positive := d']> {[ 1%positive := scenario_D2 ]}) /\
      num_na d' = spec_num_na (criteria_scores scenario_D2) /\
      num_rated d' = spec_num_rated (criteria_scores scenario_D2) /\
      dim_score d' = spec_dim_score (criteria_scores scenario_D2)) /\
  calculate_dim_score 1%positive {[ 1%positive := scenario_D2 ]} =
    (Ok 1%positive, {[ 1%positive := scored scenario_D2 (Some f2_0) 3 1 ]}) /\
  calculate_dim_score 1%positive {[ 1%positive := scenario_D2_both_na ]} =
    (Ok 1%positive, {[ 1%positive := scored scenario_D2_both_na (Some f2_0) 3 2 ]}).
Proof.
  apply (C1_calculate_dim_score {[ 1%positive := scenario_D2 ]} 1%positive scenario_D2).
  - apply lookup_singleton_eq.
  - vm_compute. reflexivity.
Defined.

(** ** Non-interference of N/A criteria *)

Definition with_score (v : option Z) (c : CriterionScore) : CriterionScore :=
  {| criterion_id := criterion_id c; score := v; is_na := is_na c |}.

Definition with_criteria (cs : list CriterionScore) (d : DimensionResult)
    : DimensionResult :=
  {| dimension_id := dimension_id d; dimension_name := dimension_name d;
     criteria_scores := cs;
     dim_score := dim_score d; num_rated := num_rated d; num_na := num_na d |}.

(** C8: take a dimension object [d] at [l] and a criterion [c] in it with
    [is_na = true], and replace the score of [c] by any [v] (a number or
    no score).  The two calls of [calculate_dim_score] end the same way
    (both return, or both raise the same exception) and leave the same
    [dim_score] in the object. *)
Theorem C8_na_score_noninterference (h : gmap positive DimensionResult)
    (l : positive) (d : DimensionResult) (i : nat) (c : CriterionScore)
    (v : option Z) :
  h !! l = Some d ->
  criteria_scores d !! i = Some c ->
  is_na c = true ->
  let d' := with_criteria (<[i := with_score v c]> (criteria_scores d)) d in
  let run := calculate_dim_score l h in
  let run' := calculate_dim_score l (<[l := d']> h) in
  fst run = fst run' /\
  dim_score <$> (snd run !! l) = dim_score <$> (snd run' !! l).
Proof.
  intros Hl Hi Hc d' run run'. subst run run'.
  rewrite (calculate_dim_score_run h l d Hl).
  rewrite (calculate_dim_score_run (<[l := d']> h) l d' (lookup_insert_eq _ _ _)).
  assert (Hr : rated_of (criteria_scores d') = rated_of (criteria_scores d)).
  { apply (rated_of_insert_na _ i c); auto. }
  assert (Hm : mean_of (criteria_scores d') = mean_of (criteria_scores d)).
  { unfold mean_of. now rewrite Hr. }
  rewrite Hm. destruct (mean_of (criteria_scores d)) as [s|e]; cbn [fst snd].
  - rewrite !lookup_insert_eq. split; reflexivity.
  - rewrite !lookup_insert_eq. split; reflexivity.
Qed.

Lemma C8_na_score_noninterference_witness :
  let h : gmap positive DimensionResult := {[ 1%positive := scenario_D2 ]} in
  let d' := with_criteria
              (<[1%nat := with_score (Some 5) (rating "D2.2" None true)]>
                 (criteria_scores scenario_D2)) scenario_D2 in
  let run := calculate_dim_score 1%positive h in
  let run' := calculate_dim_score 1%positive (<[1%positive := d']> h) in
  fst run = fst run' /\
  dim_score <$> (snd run !! 1%positive) = dim_score <$> (snd run' !! 1%positive).
Proof.
  apply (C8_na_score_noninterference {[ 1%positive := scenario_D2 ]} 1%positive
           scenario_D2 1%nat (rating "D2.2" None true) (Some 5)).
  - apply lookup_singleton_eq.
  - reflexivity.
  - reflexivity.
Defined.

(** ** Frame of [calculate_dim_score] *)

(** When the division returns, the value written to [dim_score] is the
    rounded mean; when it raises, the quotient is beyond the float range. *)
Lemma mean_of_outcome (cs : list CriterionScore) :
  mean_of cs = Ok (spec_dim_score cs)
  \/ (mean_of cs = Raise OverflowError /\ ~ quotient_representable cs).
Proof.
  destruct (mean_of_cases cs) as [[v Hv]|Hr].
  - left. rewrite Hv. f_equal.
    revert Hv. unfold mean_of, spec_dim_score.
    pose proof (rated_scores_spec cs) as Hs.
    destruct (rated_of cs) as [|c r] eqn:E.
    + cbn in Hs. rewrite <- Hs. now intros [= <-].
    + assert (Hn : spec_rated_scores cs <> []).
      { rewrite <- rated_nil_spec. congruence. }
      rewrite <- E, score_sum_spec, len_rated_spec.
      unfold int_truediv, spec_num_rated.
      destruct (spec_rated_scores cs) as [|x xs]; [congruence|].
      destruct (Z.of_nat (length (x :: xs)) =? 0)%Z; [discriminate|].
      destruct (of_ratio _ _); intros [= <-]; reflexivity.
  - right. split; [exact Hr|]. intros Hq.
    rewrite (mean_of_representable cs Hq) in Hr. discriminate.
Qed.

(** C10: a call of [calculate_dim_score] on the object at [l] rewrites the
    store at [l] only, and the object there keeps its [dimension_id], its
    [dimension_name] and its whole [criteria_scores] list, while [num_rated]
    and [num_na] are written with the two counts.  The call returns [l]
    itself, the very object it was given, with [dim_score] written with the
    rounded mean; the one exception is a quotient beyond the float range,
    where the division raises [OverflowError] after the two counts are
    written and [dim_score] keeps its value.  For scores in the validated
    range 1..5 the call always returns [l], and the object is the one given
    with exactly the three derived fields replaced. *)
Theorem C10_calculate_dim_score_frame (h : gmap positive DimensionResult)
    (l : positive) (d : DimensionResult) :
  h !! l = Some d ->
  let run := calculate_dim_score l h in
  (exists d',
      snd run = <[l := d']> h /\
      dimension_id d' = dimension_id d /\
      dimension_name d' = dimension_name d /\
      criteria_scores d' = criteria_scores d /\
      num_rated d' = spec_num_rated (criteria_scores d) /\
      num_na d' = spec_num_na (criteria_scores d) /\
      ((fst run = Ok l /\ dim_score d' = spec_dim_score (criteria_scores d))
       \/ (fst run = Raise OverflowError /\ dim_score d' = dim_score d /\
           ~ quotient_representable (criteria_scores d)))) /\
  (forall l', l' <> l -> snd run !! l' = h !! l') /\
  (Forall score_in_range (criteria_scores d) ->
   run = (Ok l,
          <[l := {| dimension_id := dimension_id d;
                    dimension_name := dimension_name d;
                    criteria_scores := criteria_scores d;
                    dim_score := spec_dim_score (criteria_scores d);
                    num_rated := spec_num_rated (criteria_scores d);
                    num_na := spec_num_na (criteria_scores d) |}]> h)).
Proof.
  intros Hl run. subst run. rewrite (calculate_dim_score_run h l d Hl).
  split; [|split].
  - destruct (mean_of_outcome (criteria_scores d)) as [Hs|[Hs Hq]];
      rewrite Hs; cbn [fst snd]; eexists; (split; [reflexivity|]);
      cbn [dimension_id dimension_name criteria_scores num_rated num_na dim_score
           set_dim_score counted set_num_na set_num_rated];
      repeat (split; [first [reflexivity | apply len_rated_spec | apply na_count_of_spec]|]).
    + left. split; reflexivity.
    + right. repeat split. exact Hq.
  - intros l' Hne.
    destruct (mean_of (criteria_scores d)); cbn [snd]; now rewrite lookup_insert_ne.
  - intros Hv. rewrite (mean_of_representable _ (validated_representable _ Hv)).
    f_equal. f_equal.
    unfold set_dim_score, counted, set_num_na, set_num_rated.
    cbn [dimension_id dimension_name criteria_scores num_rated num_na dim_score].
    now rewrite len_rated_spec, na_count_of_spec.
Qed.

Lemma C10_calculate_dim_score_frame_witness :
  let h : gmap positive DimensionResult :=
    {[ 1%positive := scenario_D2; 2%positive := scenario_D2_both_na ]} in
  let run := calculate_dim_score 2%positive h in
  (exists d',
      snd run = <[2%positive := d']> h /\
      dimension_id d' = dimension_id scenario_D2_both_na /\
      dimension_name d' = dimension_name scenario_D2_both_na /\
      criteria_scores d' = criteria_scores scenario_D2_both_na /\
      num_rated d' = spec_num_rated (criteria_scores scenario_D2_both_na) /\
      num_na d' = spec_num_na (criteria_scores scenario_D2_both_na) /\
      ((fst run = Ok 2%positive
        /\ dim_score d' = spec_dim_score (criteria_scores scenario_D2_both_na))
       \/ (fst run = Raise OverflowError /\ dim_score d' = dim_score scenario_D2_both_na /\
           ~ quotient_representable (criteria_scores scenario_D2_both_na)))) /\
  (forall l', l' <> 2%positive -> snd run !! l' = h !! l') /\
  (Forall score_in_range (criteria_scores scenario_D2_both_na) ->
   run = (Ok 2%positive,
          <[2%positive :=
              {| dimension_id := dimension_id scenario_D2_both_na;
                 dimension_name := dimension_name scenario_D2_both_na;
                 criteria_scores := criteria_scores scenario_D2_both_na;
                 dim_score := spec_dim_score (criteria_scores scenario_D2_both_na);
                 num_rated := spec_num_rated (criteria_scores scenario_D2_both_na);
                 num_na := spec_num_na (criteria_scores scenario_D2_both_na) |}]> h)).
Proof.
  apply (C10_calculate_dim_score_frame
           {[ 1%positive := scenario_D2; 2%positive := scenario_D2_both_na ]}
           2%positive scenario_D2_both_na).
  reflexivity.
Defined.
(** ** Maturity label *)

Lemma negative_not_geb (s t : float) :
  ltb s f0_0 = true -> ltb f0_0 t = true -> geb s t = false.
Proof.
  intros Hs Ht. unfold geb. fold (leb t s).
  destruct (leb t s) eqn:E; [|reflexivity].
  pose proof (leb_ltb_trans _ _ _ E Hs) as H1.
  pose proof (ltb_trans _ _ _ Ht H1) as H2.
  now rewrite ltb_irrefl in H2.
Qed.

(** C7: [get_maturity_label] returns, for every float, the label of the
    first rung of the descending ladder that the score reaches, and
    "Initial" when it reaches none (every negative score, and NaN); 3.0 is
    "Defined". *)
Theorem C7_get_maturity_label (score : float) :
  get_maturity_label score =
    (if geb score f4_5 then "Optimizing"
     else if geb score f3_5 then "Measured"
     else if geb score f2_5 then "Defined"
     else if geb score f1_5 then "Managed"
     else "Initial") /\
  (ltb score f0_0 = true -> get_maturity_label score = "Initial") /\
  (is_nan score = true -> get_maturity_label score = "Initial") /\
  get_maturity_label f3_0 = "Defined".
Proof.
  assert (Hladder : get_maturity_label score =
    (if geb score f4_5 then "Optimizing"
     else if geb score f3_5 then "Measured"
     else if geb score f2_5 then "Defined"
     else if geb score f1_5 then "Managed"
     else "Initial")).
  { unfold get_maturity_label, MATURITY_LEVELS. cbn [List.filter fst snd].
    destruct (geb score f4_5); [reflexivity|].
    destruct (geb score f3_5); [reflexivity|].
    destruct (geb score f2_5); [reflexivity|].
    destruct (geb score f1_5); [reflexivity|].
    destruct (geb score f0_0); reflexivity. }
  split; [exact Hladder|]. split; [|split; [|reflexivity]].
  - intros E. rewrite Hladder.
    rewrite !(negative_not_geb score _ E) by reflexivity. reflexivity.
  - destruct score; cbn [is_nan]; intros E; try discriminate E. reflexivity.
Qed.

(** ** Overall score *)

(** [d.dim_score is not None] *)
Definition has_score (d : DimensionResult) : bool :=
  match dim_score d with Some _ => true | None => false end.

Definition score_of (d : DimensionResult) : float := default f0_0 (dim_score d).

(** The claim's reading of [calculate_overall_score], over the dimensions
    that have a score. *)
Definition spec_overall_score (py_sum : list float -> float)
    (dimensions : list DimensionResult) (weights : option (gmap string float))
    : float :=
  let scored := List.filter has_score dimensions in
  match scored with
  | [] => f0_0
  | _ :: _ =>
      match weights with
      | None =>
          round2 (div (py_sum (map score_of scored))
                      (of_Z (Z.of_nat (length scored))))
      | Some w =>
          let weight d := default (of_ratio 1 6) (w !! dimension_id d) in
          let total_weight := py_sum (map weight scored) in
          if eqb total_weight f0_0 then f0_0
          else
            round2 (div (py_sum (map (fun d => mul (weight d) (score_of d)) scored))
                        total_weight)
      end
  end.

Lemma scored_of_map {B : Type} (g : DimensionResult -> float -> B)
    (dims : list DimensionResult) :
  map (fun ds => g (fst ds) (snd ds)) (scored_of dims) =
  map (fun d => g d (score_of d)) (List.filter has_score dims).
Proof.
  unfold scored_of. induction dims as [|d dims IH]; [reflexivity|].
  cbn [omap list_omap List.filter]. unfold has_score at 1.
  destruct (dim_score d) as [s|] eqn:E; [|exact IH].
  cbn [map fst snd]. unfold score_of at 1. rewrite E. cbn [default].
  f_equal. exact IH.
Qed.

Lemma scored_of_length (dims : list DimensionResult) :
  length (scored_of dims) = length (List.filter has_score dims).
Proof.
  rewrite <- (length_map (fun ds => fst ds) (scored_of dims)).
  rewrite (scored_of_map (fun d _ => d)). now rewrite length_map.
Qed.

Lemma of_Z_positive_nonzero (n : Z) : 0 < n -> eqb (of_Z n) f0_0 = false.
Proof.
  intros Hn. unfold of_Z.
  pose proof (binary_normalize_positive n 0 Hn ltac:(rewrite emin_eq; lia)) as H.
  rewrite eqb_leb. apply ltb_not_leb in H. now rewrite H.
Qed.

(** C4: [calculate_overall_score] never raises.  It returns 0.0 when no
    dimension has a score; without weights, the sum of the scores divided
    by the number of scored dimensions, rounded to two decimals; with
    weights (1/6 for an id absent from the map), 0.0 when the total weight
    of the scored dimensions is zero, and otherwise the weighted sum
    divided by the total weight, rounded to two decimals.  This holds
    whatever float summation [sum] performs. *)
Theorem C4_calculate_overall_score (py_sum : list float -> float)
    (dimensions : list DimensionResult) (weights : option (gmap string float)) :
  calculate_overall_score py_sum dimensions weights =
  Ok (spec_overall_score py_sum dimensions weights).
Proof.
  unfold calculate_overall_score, spec_overall_score.
  pose proof (scored_of_length dimensions) as Hlen.
  pose proof (scored_of_map (fun _ s => s) dimensions) as Hscores.
  cbn beta in Hscores.
  destruct (scored_of dimensions) as [|ds sd] eqn:Es.
  - destruct (List.filter has_score dimensions); [reflexivity|discriminate Hlen].
  - destruct (List.filter has_score dimensions) as [|d0 ds0] eqn:Ef;
      [discriminate Hlen|].
    destruct weights as [w|].
    + pose proof (scored_of_map (fun d _ => weight_of w d) dimensions) as Hw.
      pose proof (scored_of_map (fun d s => mul (weight_of w d) s) dimensions) as Hws.
      cbn beta in Hw, Hws. rewrite Es, Ef in Hw, Hws.
      unfold weight_of in *. rewrite Hw, Hws.
      destruct (eqb _ f0_0) eqn:E0; [reflexivity|].
      unfold float_truediv. now rewrite E0.
    + unfold float_truediv, len. rewrite Hlen.
      rewrite of_Z_positive_nonzero by (cbn [length]; lia).
      f_equal. f_equal. f_equal. f_equal.
      change (map snd (ds :: sd)) with (map (fun x : DimensionResult * float => snd x) (ds :: sd)).
      exact Hscores.
Qed.

Definition dimension_at (id : string) (s : option float) : DimensionResult :=
  {| dimension_id := id; dimension_name := id; criteria_scores := [];
     dim_score := s; num_rated := 0; num_na := 0 |}.

(** Six dimensions at 3.0 average to 3.0. *)
Example overall_six_at_3 :
  calculate_overall_score sum_float
    (map (fun id => dimension_at id (Some f3_0)) ["D1"; "D2"; "D3"; "D4"; "D5"; "D6"])
    None = Ok f3_0.
Proof. vm_compute. reflexivity. Qed.

(** The divisor is the number of scored dimensions: 3.0 and 4.0 beside
    four unscored dimensions average to 3.5. *)
Example overall_partial :
  calculate_overall_score sum_float
    [ dimension_at "D1" (Some f3_0); dimension_at "D2" None;
      dimension_at "D3" (Some (of_Z 4)); dimension_at "D4" None;
      dimension_at "D5" None; dimension_at "D6" None ]
    None = Ok f3_5.
Proof. vm_compute. reflexivity. Qed.

(** All weights zero: 0.0, no exception. *)
Example overall_zero_weights :
  calculate_overall_score sum_float
    [ dimension_at "D1" (Some f3_0); dimension_at "D2" (Some f2_0) ]
    (Some {[ "D1" := f0_0; "D2" := f0_0 ]}) = Ok f0_0.
Proof. vm_compute. reflexivity. Qed.

(** A dimension missing from the weights counts with weight 1/6. *)
Example overall_default_weight :
  calculate_overall_score sum_float
    [ dimension_at "D1" (Some f2_0); dimension_at "D2" (Some (of_Z 4)) ]
    (Some {[ "D1" := of_ratio 1 6 ]}) = Ok f3_0.
Proof. vm_compute. reflexivity. Qed.

End ScoringProperties.

(* ===================================================================== *)
(** * Properties of the gap analysis                                      *)
(* ===================================================================== *)

Module AnalysisProperties.
Import PyFloat FloatOrder FloatRound Py Models Analysis SortFacts AnalysisFacts.
Local Open Scope string_scope.

(** ** Threshold resolution *)

Lemma risk_thresholds_lookup (rc : string) :
  RISK_THRESHOLDS !! rc =
    if decide (rc = "high-risk") then Some f3_0
    else if decide (rc = "limited-risk") then Some f2_5
    else if decide (rc = "minimal-risk") then Some f2_0
    else None.
Proof.
  unfold RISK_THRESHOLDS.
  repeat case_decide; subst; simplify_map_eq; reflexivity.
Qed.

(** The threshold in force, by cases on the category. *)
Lemma resolve_threshold_table (threshold : float) (risk_category : option string) :
  resolve_threshold RISK_THRESHOLDS threshold risk_category =
    (if decide (risk_category = Some "high-risk") then f3_0
     else if decide (risk_category = Some "limited-risk") then f2_5
     else if decide (risk_category = Some "minimal-risk") then f2_0
     else threshold).
Proof.
  unfold resolve_threshold. destruct risk_category as [rc|].
  - rewrite risk_thresholds_lookup.
    destruct (String.eqb_spec rc "") as [->|Hne]; cbn [negb];
      repeat case_decide; simplify_eq; reflexivity.
  - repeat case_decide; simplify_eq; reflexivity.
Qed.

(** C5: gaps are detected against the table value for the three
    recognised risk categories ("high-risk" 3.0, "limited-risk" 2.5,
    "minimal-risk" 2.0) and against the supplied threshold (default 3.0),
    unchanged, for every other [risk_category], [None], the empty string
    and unknown strings included.  With [used] that value, the gaps
    returned are exactly the dimensions whose score is present and
    strictly below [used], each once; every gap has its score below [used]
    and its severity from the gap value [used - dim_score]; and the call is
    the call with [used] as threshold and no category. *)
Theorem C5_threshold_resolution (dimensions : list DimensionResult)
    (threshold : float) (risk_category : option string) :
  let used :=
    if decide (risk_category = Some "high-risk") then f3_0
    else if decide (risk_category = Some "limited-risk") then f2_5
    else if decide (risk_category = Some "minimal-risk") then f2_0
    else threshold in
  let gaps := analyze_gaps dimensions threshold risk_category in
  resolve_threshold RISK_THRESHOLDS threshold risk_category = used /\
  Permutation (map gap_identity gaps) (below_threshold used dimensions) /\
  (forall id name s,
      In (id, name, s) (map gap_identity gaps) <->
      exists d, In d dimensions /\ dimension_id d = id /\ dimension_name d = name /\
                dim_score d = Some s /\ ltb s used = true) /\
  Forall (fun g =>
            ltb (gap_dim_score g) used = true /\
            gap_severity g = severity_ladder (sub used (gap_dim_score g))) gaps /\
  gaps = analyze_gaps dimensions used None /\
  f3_0 = of_Z 3 /\ f2_5 = of_ratio 25 10 /\ f2_0 = of_Z 2 /\
  default_threshold = of_Z 3.
Proof.
  cbv zeta. rewrite <- (resolve_threshold_table threshold risk_category).
  set (t := resolve_threshold RISK_THRESHOLDS threshold risk_category).
  assert (Hperm : Permutation
                    (map gap_identity (analyze_gaps dimensions threshold risk_category))
                    (below_threshold t dimensions)).
  { apply analyze_gaps_with_identities. }
  split; [reflexivity|]. split; [exact Hperm|]. split; [|split; [|split]].
  - intros id name s. split.
    + intros Hin. apply (Permutation_in _ Hperm) in Hin.
      apply below_threshold_In in Hin as (d & Hd & Hs & Hlt & Hx).
      cbn [snd] in *. injection Hx as -> ->. exists d. auto.
    + intros (d & Hd & <- & <- & Hs & Hlt).
      apply (Permutation_in _ (Permutation_sym Hperm)).
      apply below_threshold_In. exists d. cbn [snd]. auto.
  - apply List.Forall_forall. intros g Hg.
    apply analyze_gaps_with_In in Hg as (d & s & Hd & Hs & Hlt & Hid & Hsev & _).
    fold t in Hlt, Hsev.
    unfold gap_identity in Hid. injection Hid as _ _ Hscore. rewrite Hscore.
    split; assumption.
  - reflexivity.
  - repeat split; reflexivity.
Qed.

(** ** Gap detection *)

(** Every score present in [dimensions] is a valid binary64 number. *)
Definition valid_scores (dimensions : list DimensionResult) : Prop :=
  Forall (fun d => match dim_score d with
                   | Some s => valid s = true
                   | None => True
                   end) dimensions.

Lemma resolve_threshold_valid (threshold : float) (rc : option string) :
  valid threshold = true ->
  valid (resolve_threshold RISK_THRESHOLDS threshold rc) = true.
Proof.
  intros Hv. unfold resolve_threshold. destruct rc as [rc|]; [|assumption].
  destruct (negb (String.eqb rc "")); [|assumption].
  rewrite risk_thresholds_lookup. repeat case_decide; auto.
Qed.

Definition scored_dimension (id name : string) (s : option float) : DimensionResult :=
  {| dimension_id := id; dimension_name := name; criteria_scores := [];
     dim_score := s; num_rated := 0; num_na := 0 |}.

(** A dimension at 2.2 is a gap under "high-risk" and "limited-risk", where
    the table value replaces the supplied threshold 2.0, and no gap under
    "minimal-risk"; under an unknown category, the empty string or no
    category the supplied threshold decides. *)
Example threshold_resolution_examples :
  let dims := [scored_dimension "D4" "Transparency" (Some (of_ratio 22 10))] in
  map (fun rc => length (analyze_gaps dims f2_0 rc))
      [Some "high-risk"; Some "limited-risk"; Some "minimal-risk";
       Some "unacceptable"; Some ""; None]
    = [1; 1; 0; 0; 0; 0]%nat
  /\ map (fun rc => length (analyze_gaps dims default_threshold rc))
         [Some "minimal-risk"; Some "unacceptable"; Some "High-Risk"; Some ""; None]
    = [0; 1; 1; 1; 1]%nat.
Proof. vm_compute. split; reflexivity. Qed.
(** C2: with [t] the resolved threshold, [analyze_gaps] returns one
    [GapItem] for each dimension whose score is present and strictly below
    [t], and none for any other dimension: every returned item has
    [dim_score < t] and not [dim_score >= t].  For each item the gap value
    [t - dim_score] is strictly positive, and [gap_severity] is "critical"
    for a gap value [>= 2.0], else "significant" for [>= 1.0], else
    "moderate".  A dimension at 1.0 under "high-risk" has gap value 2.0 and
    severity "critical". *)
Theorem C2_gap_detection (dimensions : list DimensionResult)
    (threshold : float) (risk_category : option string) :
  valid threshold = true ->
  valid_scores dimensions ->
  let t := resolve_threshold RISK_THRESHOLDS threshold risk_category in
  let gaps := analyze_gaps dimensions threshold risk_category in
  Permutation (map gap_identity gaps) (below_threshold t dimensions) /\
  Forall (fun g =>
            ltb (gap_dim_score g) t = true /\
            geb (gap_dim_score g) t = false /\
            ltb f0_0 (sub t (gap_dim_score g)) = true /\
            gap_severity g = severity_ladder (sub t (gap_dim_score g))) gaps /\
  sub f3_0 f1_0 = f2_0 /\
  map (fun g => (gap_dimension_id g, gap_dim_score g, gap_severity g))
      (analyze_gaps [scored_dimension "D5" "Human Oversight" (Some f1_0)]
         default_threshold (Some "high-risk")) =
    [("D5", f1_0, "critical")].
Proof.
  intros Hvt Hvs t gaps.
  split; [apply analyze_gaps_with_identities|].
  split; [|split; reflexivity].
  apply List.Forall_forall. intros g Hg.
  apply analyze_gaps_with_In in Hg as (d & s & Hd & Hs & Hlt & Hid & Hsev & _).
  fold t in Hlt, Hsev.
  unfold gap_identity in Hid. injection Hid as _ _ Hscore. rewrite Hscore.
  assert (Hvalid : valid s = true).
  { unfold valid_scores in Hvs. rewrite List.Forall_forall in Hvs.
    specialize (Hvs d Hd). now rewrite Hs in Hvs. }
  split; [assumption|]. split; [now apply ltb_not_leb|].
  split; [|exact Hsev].
  apply sub_positive; auto. now apply resolve_threshold_valid.
Qed.

Lemma C2_gap_detection_witness :
  let dimensions :=
    [ scored_dimension "D1" "Risk Management" (Some f3_0);
      scored_dimension "D5" "Human Oversight" (Some f1_0);
      scored_dimension "D2" "Data Governance" None;
      scored_dimension "D3" "Documentation" (Some f2_5) ] in
  let t := resolve_threshold RISK_THRESHOLDS default_threshold (Some "high-risk") in
  let gaps := analyze_gaps dimensions default_threshold (Some "high-risk") in
  Permutation (map gap_identity gaps) (below_threshold t dimensions) /\
  Forall (fun g =>
            ltb (gap_dim_score g) t = true /\
            geb (gap_dim_score g) t = false /\
            ltb f0_0 (sub t (gap_dim_score g)) = true /\
            gap_severity g = severity_ladder (sub t (gap_dim_score g))) gaps /\
  sub f3_0 f1_0 = f2_0 /\
  map (fun g => (gap_dimension_id g, gap_dim_score g, gap_severity g))
      (analyze_gaps [scored_dimension "D5" "Human Oversight" (Some f1_0)]
         default_threshold (Some "high-risk")) =
    [("D5", f1_0, "critical")].
Proof.
  apply (C2_gap_detection
           [ scored_dimension "D1" "Risk Management" (Some f3_0);
             scored_dimension "D5" "Human Oversight" (Some f1_0);
             scored_dimension "D2" "Data Governance" None;
             scored_dimension "D3" "Documentation" (Some f2_5) ]
           default_threshold (Some "high-risk")).
  - reflexivity.
  - repeat constructor.
Defined.

(** D5 at 2.2 under "limited-risk" (threshold 2.5): severity "moderate". *)
Example limited_risk_moderate :
  map (fun g => (gap_dimension_id g, gap_severity g, priority_rank g))
      (analyze_gaps [scored_dimension "D5" "Human Oversight" (Some (of_ratio 22 10))]
         default_threshold (Some "limited-risk")) =
    [("D5", "moderate", 1)].
Proof. vm_compute. reflexivity. Qed.

(** ** Ranking *)

(** C3: the returned list ascends in [dim_score]; the gaps that tie on a
    score keep the input order of their dimensions; [priority_rank] runs
    1, 2, ..., N along the list, so a gap of smaller rank never has the
    greater score.  Dimensions D3 and D1, both at 2.0 and given in this
    order, come back as D3, D1 with ranks 1, 2. *)
Theorem C3_ranking (dimensions : list DimensionResult)
    (threshold : float) (risk_category : option string) :
  let t := resolve_threshold RISK_THRESHOLDS threshold risk_category in
  let gaps := analyze_gaps dimensions threshold risk_category in
  StronglySorted (fun a b => leb a b = true) (map gap_dim_score gaps) /\
  (forall k : float,
      map gap_identity (ties_with gap_dim_score k gaps) =
      ties_with snd k (below_threshold t dimensions)) /\
  map priority_rank gaps = map Z.of_nat (seq 1 (length gaps)) /\
  (forall g g', In g gaps -> In g' gaps ->
      priority_rank g < priority_rank g' ->
      leb (gap_dim_score g) (gap_dim_score g') = true) /\
  map (fun g => (gap_dimension_id g, gap_dim_score g, priority_rank g))
      (analyze_gaps [ scored_dimension "D3" "Documentation" (Some f2_0);
                      scored_dimension "D1" "Risk Management" (Some f2_0) ]
         default_threshold None) =
    [("D3", f2_0, 1); ("D1", f2_0, 2)].
Proof.
  intros t gaps.
  pose proof (analyze_gaps_with_scores_ascending RECOMMENDATIONS RISK_THRESHOLDS
                dimensions threshold risk_category) as Hsorted.
  pose proof (analyze_gaps_with_ranks RECOMMENDATIONS RISK_THRESHOLDS
                dimensions threshold risk_category) as Hranks.
  fold analyze_gaps in Hsorted, Hranks. fold gaps in Hsorted, Hranks.
  split; [exact Hsorted|].
  split; [intros k; apply analyze_gaps_with_ties|].
  split; [exact Hranks|].
  split; [|reflexivity].
  intros g g' Hg Hg' Hlt.
  apply list_elem_of_In, list_elem_of_lookup in Hg as [i Hi].
  apply list_elem_of_In, list_elem_of_lookup in Hg' as [j Hj].
  rewrite (seq_ranks_lookup gaps 1 i g Hranks Hi) in Hlt.
  rewrite (seq_ranks_lookup gaps 1 j g' Hranks Hj) in Hlt.
  apply (StronglySorted_lookup _ _ Hsorted i j); auto using map_lookup. lia.
Qed.

(** ** Recommendation lookup *)

(** C6: whatever the catalogue holds, the [recommendation] of a returned
    [GapItem] is the catalogue entry for its [dimension_id] and
    [gap_severity] when there is one, the "moderate" entry of the dimension
    when the dimension is there without that severity, and the empty string
    when the dimension is not in the catalogue; the lookup is total
    ([analyze_gaps] is the instance at [RECOMMENDATIONS] and
    [RISK_THRESHOLDS]). *)
Theorem C6_recommendation_lookup
    (recommendations : gmap string (gmap string string))
    (risk_thresholds : gmap string float)
    (dimensions : list DimensionResult) (threshold : float)
    (risk_category : option string) (g : GapItem) :
  In g (analyze_gaps_with recommendations risk_thresholds dimensions threshold
          risk_category) ->
  recommendation g =
    match recommendations !! gap_dimension_id g with
    | Some dim_recs =>
        match dim_recs !! gap_severity g with
        | Some r => r
        | None => default "" (dim_recs !! "moderate")
        end
    | None => ""
    end /\
  (forall dim_recs r,
      recommendations !! gap_dimension_id g = Some dim_recs ->
      dim_recs !! gap_severity g = Some r -> recommendation g = r) /\
  (forall dim_recs r,
      recommendations !! gap_dimension_id g = Some dim_recs ->
      dim_recs !! gap_severity g = None ->
      dim_recs !! "moderate" = Some r -> recommendation g = r) /\
  (recommendations !! gap_dimension_id g = None -> recommendation g = "").
Proof.
  intros Hg.
  apply analyze_gaps_with_In in Hg as (d & s & _ & _ & _ & Hid & Hsev & Hrec).
  unfold gap_identity in Hid. injection Hid as Hgid _ _.
  rewrite <- Hsev, <- Hgid in Hrec.
  assert (Heq : recommendation g =
    match recommendations !! gap_dimension_id g with
    | Some dim_recs =>
        match dim_recs !! gap_severity g with
        | Some r => r
        | None => default "" (dim_recs !! "moderate")
        end
    | None => ""
    end).
  { rewrite Hrec. unfold recommendation_for.
    destruct (recommendations !! gap_dimension_id g) as [m|]; cbn.
    - destruct (m !! gap_severity g); reflexivity.
    - now rewrite !lookup_empty. }
  split; [exact Heq|]. repeat split.
  - intros m r Hm Hr. now rewrite Heq, Hm, Hr.
  - intros m r Hm Hn Hr. now rewrite Heq, Hm, Hn, Hr.
  - intros Hn. now rewrite Heq, Hn.
Qed.

(** A catalogue in which D7 has a "moderate" entry only. *)
Definition partial_catalogue : gmap string (gmap string string) :=
  {[ "D7" := {[ "moderate" := "Review the supplier contracts." ]} ]}.

Definition D7_gap : GapItem :=
  {| gap_dimension_id := "D7"; gap_dimension_name := "Supply Chain";
     gap_dim_score := f1_0; gap_severity := "critical"; priority_rank := 1;
     recommendation := "Review the supplier contracts." |}.

Lemma C6_recommendation_lookup_witness :
  recommendation D7_gap =
    match partial_catalogue !! gap_dimension_id D7_gap with
    | Some dim_recs =>
        match dim_recs !! gap_severity D7_gap with
        | Some r => r
        | None => default "" (dim_recs !! "moderate")
        end
    | None => ""
    end /\
  (forall dim_recs r,
      partial_catalogue !! gap_dimension_id D7_gap = Some dim_recs ->
      dim_recs !! gap_severity D7_gap = Some r -> recommendation D7_gap = r) /\
  (forall dim_recs r,
      partial_catalogue !! gap_dimension_id D7_gap = Some dim_recs ->
      dim_recs !! gap_severity D7_gap = None ->
      dim_recs !! "moderate" = Some r -> recommendation D7_gap = r) /\
  (partial_catalogue !! gap_dimension_id D7_gap = None -> recommendation D7_gap = "").
Proof.
  apply (C6_recommendation_lookup partial_catalogue RISK_THRESHOLDS
           [scored_dimension "D7" "Supply Chain" (Some f1_0)]
           default_threshold (Some "high-risk") D7_gap).
  left. reflexivity.
Defined.

(** The catalogue of the source on a known and on an unknown dimension. *)
Example recommendations_known_and_unknown :
  map (fun g => (gap_dimension_id g, gap_severity g,
                 bool_decide (Some (recommendation g) =
                              (RECOMMENDATIONS !! gap_dimension_id g)
                                ≫= (fun m => m !! gap_severity g)),
                 bool_decide (recommendation g = "")))
      (analyze_gaps [ scored_dimension "D5" "Human Oversight" (Some f1_0);
                      scored_dimension "D9" "Unknown" (Some f2_5) ]
         default_threshold None) =
  [ ("D5", "critical", true, false); ("D9", "moderate", false, true) ].
Proof. vm_compute. reflexivity. Qed.

(** ** Risk categories *)

Lemma below_2_below_3 (s : float) : ltb s f2_0 = true -> ltb s f3_0 = true.
Proof. intros H. apply (ltb_trans s f2_0 f3_0 H). reflexivity. Qed.

(** C9: on the same dimensions, every gap found under "minimal-risk"
    (threshold 2.0) is found under "high-risk" (threshold 3.0), and a gap
    found under "high-risk" is found under "minimal-risk" exactly when its
    [dim_score] is strictly below 2.0.  Gaps are compared by dimension id,
    name and score; severities may differ. *)
Theorem C9_risk_category_monotone (dimensions : list DimensionResult)
    (threshold : float) :
  let minimal := analyze_gaps dimensions threshold (Some "minimal-risk") in
  let high := analyze_gaps dimensions threshold (Some "high-risk") in
  (forall g, In g minimal -> In (gap_identity g) (map gap_identity high)) /\
  (forall g, In g high ->
     (In (gap_identity g) (map gap_identity minimal) <->
      ltb (gap_dim_score g) f2_0 = true)).
Proof.
  intros minimal high.
  pose proof (analyze_gaps_with_identities RECOMMENDATIONS RISK_THRESHOLDS
                dimensions threshold (Some "minimal-risk")) as Pmin.
  pose proof (analyze_gaps_with_identities RECOMMENDATIONS RISK_THRESHOLDS
                dimensions threshold (Some "high-risk")) as Phigh.
  change (resolve_threshold RISK_THRESHOLDS threshold (Some "minimal-risk"))
    with f2_0 in Pmin.
  change (resolve_threshold RISK_THRESHOLDS threshold (Some "high-risk"))
    with f3_0 in Phigh.
  fold analyze_gaps in Pmin, Phigh. fold minimal in Pmin. fold high in Phigh.
  split.
  - intros g Hg.
    apply (Permutation_in _ (Permutation_sym Phigh)).
    apply (in_map gap_identity), (Permutation_in _ Pmin) in Hg.
    apply below_threshold_In in Hg as (d & Hd & Hs & Hlt & Hx).
    apply below_threshold_In. exists d. auto using below_2_below_3.
  - intros g Hg.
    apply (in_map gap_identity), (Permutation_in _ Phigh) in Hg.
    apply below_threshold_In in Hg as (d & Hd & Hs & _ & Hx).
    change (snd (gap_identity g)) with (gap_dim_score g) in *.
    split.
    + intros Hin. apply (Permutation_in _ Pmin) in Hin.
      now apply below_threshold_In in Hin as (_ & _ & _ & Hlt & _).
    + intros Hlt. apply (Permutation_in _ (Permutation_sym Pmin)).
      apply below_threshold_In. exists d. auto.
Qed.

(** Scores 1.0, 2.0 and 2.5: all three are gaps under "high-risk", only the
    first under "minimal-risk". *)
Example risk_category_example :
  let dims := [ scored_dimension "D1" "Risk Management" (Some f1_0);
                scored_dimension "D2" "Data Governance" (Some f2_0);
                scored_dimension "D3" "Documentation" (Some f2_5) ] in
  map gap_dimension_id (analyze_gaps dims default_threshold (Some "high-risk")) =
    ["D1"; "D2"; "D3"] /\
  map gap_dimension_id (analyze_gaps dims default_threshold (Some "minimal-risk")) =
    ["D1"].
Proof. vm_compute. split; reflexivity. Qed.

End AnalysisProperties.

(* ===================================================================== *)
(** * The range of a dimension score                                      *)
(* ===================================================================== *)

(** Scores that pydantic has validated lie in 1..5, so their mean lies in
    [1, 5]; this section follows that mean through the rounded division and
    through [round(_, 2)]. *)
Module ScoreRange.
Import PyFloat FloatOrder FloatRound Py Models Scoring ScoringFacts.

(** A float in [1, 5], up to the rounding slack [c] in the last place:
    mantissa [m] at exponent [e] with [1 <= m * 2^e <= 5 + c * 2^e]. *)
Definition in_1_5 (c m e : Z) : Prop :=
  2 ^ (- e) <= m <= 5 * 2 ^ (- e) + c.

Lemma shr_fexp_range (m e : Z) (l : location) (c : Z) :
  -1074 <= e <= 0 -> 0 <= c <= 1 -> in_1_5 c m e ->
  let r := shr_fexp prec emax m e l in
  e <= snd r <= Z.max e (-50) /\ in_1_5 c (shr_m (fst r)) (snd r).
Proof.
  intros He Hc [Hlo Hhi] r.
  assert (Hp : 0 < 2 ^ (- e)) by (apply Z.pow_pos_nonneg; lia).
  pose proof (shr_fexp_spec m e l ltac:(lia)) as H. cbv zeta in H.
  fold r in H. destruct H as [H1 H2]. rewrite H1, H2. clear H1 H2 r.
  rewrite fexp_eq.
  assert (Hd : Zdigits2 m <= 3 - e).
  { apply Zdigits2_le; [|lia]. split; [lia|].
    replace (3 - e) with (3 + - e) by lia. rewrite Z.pow_add_r by lia.
    change (2 ^ 3) with 8. lia. }
  destruct (0 <? Z.max (Zdigits2 m + e - 53) (-1074) - e) eqn:E.
  - apply Z.ltb_lt in E.
    set (n := Z.max (Zdigits2 m + e - 53) (-1074) - e) in *.
    assert (Hn : 0 < n <= - e - 50) by lia.
    assert (Hpn : 0 < 2 ^ n) by (apply Z.pow_pos_nonneg; lia).
    assert (Hsplit : 2 ^ (- e) = 2 ^ n * 2 ^ (- (e + n))).
    { rewrite <- Z.pow_add_r by lia. f_equal. lia. }
    split; [lia|]. unfold in_1_5. split.
    + apply Z.div_le_lower_bound; [assumption|]. rewrite <- Hsplit. exact Hlo.
    + apply Z.div_le_upper_bound; [assumption|].
      rewrite Hsplit in Hhi.
      assert (0 < 2 ^ (- (e + n))) by (apply Z.pow_pos_nonneg; lia).
      nia.
  - split; [lia|]. split; assumption.
Qed.

(** Rounding a number in [1, 5] gives a finite positive float in [1, 5],
    up to one unit in the last place. *)
Lemma binary_round_aux_range (q e : Z) (l : location) :
  -1074 <= e <= -50 -> in_1_5 0 q e ->
  exists m e2,
    binary_round_aux prec emax false q e l = S754_finite false m e2 /\
    e <= e2 <= -50 /\ in_1_5 1 (Zpos m) e2.
Proof.
  intros He Hq. unfold binary_round_aux.
  pose proof (shr_fexp_range q e l 0 ltac:(lia) ltac:(lia) Hq) as H.
  cbv zeta in H.
  destruct (shr_fexp prec emax q e l) as [mrs' e']. cbn [fst snd] in H.
  destruct H as [He' [Hlo Hhi]].
  pose proof (round_nearest_even_bounds (shr_m mrs') (loc_of_shr_record mrs')) as Hr.
  set (m1 := round_nearest_even (shr_m mrs') (loc_of_shr_record mrs')) in *.
  assert (Hm1 : in_1_5 1 m1 e') by (unfold in_1_5; lia).
  pose proof (shr_fexp_range m1 e' loc_Exact 1 ltac:(lia) ltac:(lia) Hm1) as H.
  cbv zeta in H.
  destruct (shr_fexp prec emax m1 e' loc_Exact) as [mrs'' e'']. cbn [fst snd] in H.
  destruct H as [He'' Hm2].
  assert (Hp : 0 < 2 ^ (- e'')) by (apply Z.pow_pos_nonneg; lia).
  destruct (shr_m mrs'') as [|m|m] eqn:Em; unfold in_1_5 in Hm2; try lia.
  change (emax - prec) with 971.
  destruct (Z.leb_spec e'' 971); [|lia].
  exists m, e''. split; [reflexivity|]. split; [lia|exact Hm2].
Qed.

(** The quotient of two positive integers with [b <= a <= 5 * b]. *)
Lemma div_range (pa pb : positive) :
  Zpos pb <= Zpos pa <= 5 * Zpos pb ->
  exists m e,
    SFdiv prec emax (S754_finite false pa 0) (S754_finite false pb 0) =
      S754_finite false m e /\
    -53 <= e <= -50 /\ in_1_5 1 (Zpos m) e.
Proof.
  intros [Hlo Hhi]. cbn [SFdiv xorb]. unfold SFdiv_core_binary. cbn [Zdigits2].
  pose proof (digits2_pos_bounds pa) as [Ha1 Ha2].
  pose proof (digits2_pos_bounds pb) as [Hb1 Hb2].
  set (da := Zpos (digits2_pos pa)) in *. set (db := Zpos (digits2_pos pb)) in *.
  assert (Hda : db <= da <= db + 3).
  { split.
    - destruct (Z.le_gt_cases db da) as [|Hgt]; [assumption|].
      assert (2 ^ da <= 2 ^ (db - 1)) by (apply Z.pow_le_mono_r; lia). lia.
    - destruct (Z.le_gt_cases da (db + 3)) as [|Hgt]; [assumption|].
      assert (2 ^ (db + 3) <= 2 ^ (da - 1)) by (apply Z.pow_le_mono_r; lia).
      rewrite Z.pow_add_r in * by lia. change (2 ^ 3) with 8 in *. lia. }
  rewrite fexp_eq.
  replace (Z.min (Z.max (da + 0 - (db + 0) - 53) (-1074)) (0 - 0))
    with (da - db - 53) by lia.
  set (e' := da - db - 53) in *.
  assert (He' : -53 <= e' <= -50) by lia.
  replace (0 - 0 - e') with (- e') by lia.
  destruct (- e') as [|s|s] eqn:Es; try lia.
  rewrite Z.shiftl_mul_pow2 by lia.
  assert (Hp : 0 < 2 ^ Zpos s) by (apply Z.pow_pos_nonneg; lia).
  pose proof (Z_div_mod (Zpos pa * 2 ^ Zpos s) (Zpos pb) ltac:(lia)) as Hdm.
  destruct (Z.div_eucl (Zpos pa * 2 ^ Zpos s) (Zpos pb)) as [q r].
  destruct Hdm as [Hq Hr].
  assert (Hq1 : in_1_5 0 q e').
  { unfold in_1_5. rewrite Es. revert Hp Hq. generalize (2 ^ Zpos s).
    intros P HP Hq. split; nia. }
  destruct (binary_round_aux_range q e' (new_location (Zpos pb) r) ltac:(lia) Hq1)
    as (m & e2 & Heq & He2 & Hm).
  exists m, e2. split; [exact Heq|]. split; [lia|exact Hm].
Qed.

(** A float that is a number of hundredths between 1.00 and 5.00. *)
Definition two_decimal (s : float) : Prop :=
  exists k, 100 <= k <= 500 /\ s = of_ratio k 100.

(** [round(x, 2)] of a float in [1, 5] is such a number. *)
Lemma round2_range (m : positive) (e : Z) :
  -53 <= e <= -50 -> in_1_5 1 (Zpos m) e ->
  two_decimal (round2 (S754_finite false m e)).
Proof.
  intros He [Hlo Hhi]. unfold round2.
  destruct (Z.leb_spec 0 e); [lia|]. unfold round_shift_even.
  assert (Hd : 2 ^ 50 <= 2 ^ (- e)) by (apply Z.pow_le_mono_r; lia).
  change (2 ^ 50) with 1125899906842624 in Hd.
  pose proof (Z.div_mod (Zpos m * 100) (2 ^ (- e)) ltac:(lia)) as Hdm.
  pose proof (Z.mod_pos_bound (Zpos m * 100) (2 ^ (- e)) ltac:(lia)) as Hr.
  revert Hlo Hhi Hd Hdm Hr.
  generalize (2 ^ (- e)) (Zpos m * 100 / 2 ^ (- e)) (Zpos m * 100 mod 2 ^ (- e)).
  intros d q r Hlo Hhi Hd Hdm Hr.
  assert (Hq : 100 <= q <= 500) by nia.
  assert (Hq500 : q = 500 -> 2 * r < d) by (intros ->; lia).
  assert (Hk : forall k, (k = q \/ (k = q + 1 /\ d <= 2 * r)) ->
               two_decimal match k with
                           | Zpos p => SFdiv prec emax (S754_finite false p 0)
                                         (S754_finite false 100 0)
                           | _ => S754_zero false
                           end).
  { intros k Hk. assert (100 <= k <= 500) by lia.
    destruct k as [|p|p]; try lia. exists (Zpos p). split; [lia|reflexivity]. }
  apply Hk. destruct (Z.compare_spec (2 * r) d).
  - destruct (Z.even q); [left; reflexivity|right; lia].
  - left; reflexivity.
  - right; lia.
Qed.

(** The mean of validated scores, rounded: a number of hundredths between
    1.00 and 5.00. *)
Theorem spec_dim_score_range (cs : list CriterionScore) :
  Forall score_in_range cs ->
  spec_dim_score cs = None \/ exists s, spec_dim_score cs = Some s /\ two_decimal s.
Proof.
  intros Hv. pose proof (total_bounds cs Hv) as Hb.
  unfold spec_dim_score, spec_num_rated in *.
  destruct (spec_rated_scores cs) as [|v vs]; [left; reflexivity|right].
  eexists. split; [reflexivity|].
  set (n := Z.of_nat (length (v :: vs))) in *.
  assert (Hn : 0 < n) by (unfold n; cbn [length]; lia).
  unfold of_ratio.
  destruct n as [|pb|pb]; try lia.
  destruct (total (v :: vs)) as [|pa|pa]; try lia.
  destruct (div_range pa pb ltac:(lia)) as (m & e & -> & He & Hm).
  now apply round2_range.
Qed.

(** The 401 floats [1.00, 1.01, ..., 5.00]. *)
Definition hundredths : list float :=
  map (fun i => of_ratio (Z.of_nat i + 100) 100) (seq 0 401).

Lemma two_decimal_In (s : float) : two_decimal s -> In s hundredths.
Proof.
  intros (k & Hk & ->). unfold hundredths.
  replace k with (Z.of_nat (Z.to_nat (k - 100)) + 100) by lia.
  apply (in_map (fun i => of_ratio (Z.of_nat i + 100) 100)), in_seq. lia.
Qed.

(** What a computation checks on all 401 values holds of every
    [two_decimal] float. *)
Lemma forall_two_decimal (P : float -> bool) :
  forallb P hundredths = true -> forall s, two_decimal s -> P s = true.
Proof.
  intros H s Hs. rewrite forallb_forall in H. now apply H, two_decimal_In.
Qed.

Lemma two_decimal_valid (s : float) : two_decimal s -> valid s = true.
Proof. apply forall_two_decimal. vm_compute. reflexivity. Qed.

Lemma two_decimal_bounds (s : float) :
  two_decimal s -> leb f1_0 s = true /\ leb s (of_Z 5) = true.
Proof.
  intros Hs. apply andb_prop.
  revert s Hs. apply (forall_two_decimal (fun s => leb f1_0 s && leb s (of_Z 5))).
  vm_compute. reflexivity.
Qed.

End ScoreRange.

(* ===================================================================== *)
(** * main.py: the assessment endpoint                                    *)
(* ===================================================================== *)

Module Main.
Import PyFloat Py Models Store Scoring Analysis.

(** [models.ScopingData] *)
Record ScopingData : Type := {
  system_name : string;
  risk_category : string;
  industry : string;
  organization_size : string;
  deployment_status : string;
  has_governance_officer : string;
  existing_frameworks : string;
  num_ai_systems : string
}.

(** [models.AssessmentRequest]; the dimensions are objects of the store. *)
Record AssessmentRequest : Type := {
  req_scoping : ScopingData;
  req_dimensions : list ref;
  req_weights : option (gmap string float)
}.

(** [models.AssessmentResponse]; [agent_summary] keeps its default. *)
Record AssessmentResponse : Type := {
  resp_scoping : ScopingData;
  resp_dimensions : list ref;
  overall_score : float;
  gaps : list GapItem;
  maturity_label : string;
  agent_summary : option string
}.

(** [for dim in request.dimensions:
       scored_dim = calculate_dim_score(dim)
       scored_dimensions.append(scored_dim)] *)
Fixpoint score_all (dims : list ref) (scored_dimensions : list ref) : M (list ref) :=
  match dims with
  | [] => ret scored_dimensions
  | dim :: rest =>
      scored_dim ← calculate_dim_score dim;
      score_all rest (scored_dimensions ++ [scored_dim])
  end.

(** The objects behind a list of references, as a function that only reads
    their attributes sees them. *)
Fixpoint read_all (refs : list ref) : M (list DimensionResult) :=
  match refs with
  | [] => ret []
  | r :: rest =>
      d ← getattr r (fun d => d);
      ds ← read_all rest;
      ret (d :: ds)
  end.

Section Endpoint.
(** The builtin [sum] applied to a generator of floats. *)
Variable py_sum : list float -> float.

Definition submit_assessment (request : AssessmentRequest) : M AssessmentResponse :=
  scored_dimensions ← score_all (req_dimensions request) [];
  objects ← read_all scored_dimensions;
  overall_score ← lift (calculate_overall_score py_sum objects (req_weights request));
  let maturity_label := get_maturity_label overall_score in
  let gaps :=
    analyze_gaps objects default_threshold
      (Some (risk_category (req_scoping request))) in
  ret {| resp_scoping := req_scoping request;
         resp_dimensions := scored_dimensions;
         overall_score := overall_score;
         gaps := gaps;
         maturity_label := maturity_label;
         agent_summary := None |}.
End Endpoint.

End Main.

(* ===================================================================== *)
(** * The assessment endpoint: facts                                      *)
(* ===================================================================== *)

Module MainFacts.
Import PyFloat FloatOrder FloatRound Py Models Store Scoring Analysis.
Import ScoringFacts AnalysisFacts ScoreRange Main.

(** The object [d] with its three derived fields recomputed from its
    criteria. *)
Definition score_object (d : DimensionResult) : DimensionResult :=
  {| dimension_id := dimension_id d; dimension_name := dimension_name d;
     criteria_scores := criteria_scores d;
     dim_score := spec_dim_score (criteria_scores d);
     num_rated := spec_num_rated (criteria_scores d);
     num_na := spec_num_na (criteria_scores d) |}.

Lemma score_object_idem (d : DimensionResult) :
  score_object (score_object d) = score_object d.
Proof. reflexivity. Qed.

Lemma calculate_dim_score_ok (h : heap) (l : ref) (d : DimensionResult) :
  h !! l = Some d ->
  quotient_representable (criteria_scores d) ->
  calculate_dim_score l h = (Ok l, <[l := score_object d]> h).
Proof.
  intros Hl Hq.
  rewrite (calculate_dim_score_run h l d Hl), (mean_of_representable _ Hq).
  unfold score_object, set_dim_score, counted, set_num_na, set_num_rated.
  cbn. now rewrite na_count_of_spec, len_rated_spec.
Qed.

(** The store after the object at [l] is scored. *)
Definition score_step (h : heap) (l : ref) : heap :=
  match h !! l with
  | Some d => <[l := score_object d]> h
  | None => h
  end.

Definition score_store (refs : list ref) (h : heap) : heap :=
  fold_left score_step refs h.

Lemma score_step_lookup (h : heap) (a l : ref) :
  score_step h a !! l =
  if decide (l = a) then score_object <$> h !! l else h !! l.
Proof.
  unfold score_step. destruct (decide (l = a)) as [->|Hne].
  - destruct (h !! a) as [d|] eqn:E; [now rewrite lookup_insert_eq|now rewrite E].
  - destruct (h !! a); [now rewrite lookup_insert_ne|reflexivity].
Qed.

Lemma score_store_lookup (refs : list ref) :
  forall (h : heap) (l : ref),
    score_store refs h !! l =
    if bool_decide (l ∈ refs) then score_object <$> h !! l else h !! l.
Proof.
  induction refs as [|a refs IH]; intros h l; [reflexivity|].
  change (score_store (a :: refs) h) with (score_store refs (score_step h a)).
  rewrite IH, score_step_lookup.
  destruct (decide (l = a)) as [->|Hne].
  - rewrite (bool_decide_eq_true_2 (a ∈ a :: refs)) by left.
    destruct (bool_decide (a ∈ refs)); [|reflexivity].
    now destruct (h !! a).
  - destruct (bool_decide (l ∈ refs)) eqn:E.
    + apply bool_decide_eq_true_1 in E.
      now rewrite (bool_decide_eq_true_2 (l ∈ a :: refs)) by (now right).
    + apply bool_decide_eq_false_1 in E.
      rewrite (bool_decide_eq_false_2 (l ∈ a :: refs)); [reflexivity|].
      intros [?|?]%elem_of_cons; contradiction.
Qed.

(** Every reference of [refs] is an object of [h] whose quotient is within
    the float range. *)
Definition scorable (h : heap) (refs : list ref) : Prop :=
  forall l, In l refs ->
    exists d, h !! l = Some d /\ quotient_representable (criteria_scores d).

Lemma scorable_step (h : heap) (a : ref) (refs : list ref) :
  scorable h (a :: refs) -> scorable (score_step h a) refs.
Proof.
  intros H l Hl. rewrite score_step_lookup.
  destruct (H l (or_intror Hl)) as (d & Hd & Hq). rewrite Hd.
  destruct (decide (l = a)); cbn; eauto.
Qed.

Lemma score_all_run (refs : list ref) :
  forall (h : heap) (acc : list ref),
    scorable h refs ->
    score_all refs acc h = (Ok (acc ++ refs), score_store refs h).
Proof.
  induction refs as [|a refs IH]; intros h acc Hs; cbn [score_all].
  - now rewrite app_nil_r.
  - destruct (Hs a (or_introl eq_refl)) as (d & Hd & Hq).
    unfold mbind, M_bind, bind.
    rewrite (calculate_dim_score_ok h a d Hd Hq).
    change (score_store (a :: refs) h) with (score_store refs (score_step h a)).
    assert (Hstep : score_step h a = <[a := score_object d]> h)
      by (unfold score_step; now rewrite Hd).
    rewrite <- Hstep, IH by (now apply scorable_step).
    now rewrite <- app_assoc.
Qed.

(** The objects at [refs]. *)
Definition objects_at (h : heap) (refs : list ref) : list DimensionResult :=
  omap (fun l => h !! l) refs.

Lemma read_all_run (refs : list ref) (h : heap) :
  (forall l, In l refs -> is_Some (h !! l)) ->
  read_all refs h = (Ok (objects_at h refs), h) /\
  length (objects_at h refs) = length refs.
Proof.
  unfold objects_at. induction refs as [|a refs IH]; intros H; [split; reflexivity|].
  destruct (H a (or_introl eq_refl)) as [d Hd].
  destruct IH as [IH1 IH2]; [intros l Hl; apply H; now right|].
  cbn [read_all omap list_omap]. unfold mbind, M_bind, bind, getattr, mret, M_ret, ret.
  rewrite Hd. unfold mbind, M_bind, bind, mret, M_ret, ret in IH1. rewrite IH1.
  split; [reflexivity|]. cbn [length]. now rewrite IH2.
Qed.

Lemma score_store_is_Some (refs : list ref) (h : heap) (l : ref) :
  is_Some (h !! l) -> is_Some (score_store refs h !! l).
Proof.
  intros [d Hd]. rewrite score_store_lookup, Hd.
  destruct (bool_decide (l ∈ refs)); cbn; eauto.
Qed.

(** [calculate_overall_score] never raises. *)
Lemma calculate_overall_score_Ok (py_sum : list float -> float)
    (dims : list DimensionResult) (weights : option (gmap string float)) :
  exists v, calculate_overall_score py_sum dims weights = Ok v.
Proof.
  unfold calculate_overall_score.
  destruct (scored_of dims) as [|ds sd] eqn:Es; [eauto|].
  destruct weights as [w|].
  - destruct (eqb _ f0_0) eqn:E0; [eauto|].
    unfold float_truediv. rewrite E0. eauto.
  - unfold float_truediv, len.
    assert (Hnz : eqb (of_Z (Z.of_nat (length (ds :: sd)))) f0_0 = false).
    { unfold of_Z.
      pose proof (binary_normalize_positive (Z.of_nat (length (ds :: sd))) 0
                    ltac:(cbn [length]; lia) ltac:(rewrite emin_eq; lia)) as H.
      rewrite eqb_leb. apply ltb_not_leb in H. now rewrite H. }
    rewrite Hnz. eauto.
Qed.

Lemma submit_assessment_run (py_sum : list float -> float)
    (request : AssessmentRequest) (h : heap) :
  scorable h (req_dimensions request) ->
  let h' := score_store (req_dimensions request) h in
  let objects := objects_at h' (req_dimensions request) in
  exists overall,
    calculate_overall_score py_sum objects (req_weights request) = Ok overall /\
    submit_assessment py_sum request h =
      (Ok {| resp_scoping := req_scoping request;
             resp_dimensions := req_dimensions request;
             overall_score := overall;
             gaps := analyze_gaps objects default_threshold
                       (Some (risk_category (req_scoping request)));
             maturity_label := get_maturity_label overall;
             agent_summary := None |}, h').
Proof.
  intros Hs h' objects.
  destruct (calculate_overall_score_Ok py_sum objects (req_weights request))
    as [overall Ho].
  exists overall. split; [exact Ho|].
  unfold submit_assessment, mbind, M_bind, bind.
  rewrite (score_all_run _ h [] Hs). cbn [app]. fold h'.
  destruct (read_all_run (req_dimensions request) h') as [Hr _].
  { intros l Hl. apply score_store_is_Some.
    destruct (Hs l Hl) as (d & Hd & _). eauto. }
  rewrite Hr. fold objects. unfold lift. rewrite Ho. reflexivity.
Qed.

End MainFacts.

(* ===================================================================== *)
(** * Properties of scoring in place and of the assessment endpoint       *)
(* ===================================================================== *)

Module MainProperties.
Import PyFloat FloatOrder FloatRound Py Models Store Scoring Analysis.
Import ScoringFacts AnalysisFacts ScoreRange Main MainFacts.
Local Open Scope string_scope.

Definition criterion (id : string) (v : option Z) (na : bool) : CriterionScore :=
  {| criterion_id := id; score := v; is_na := na |}.

(** A submitted dimension; the derived fields may hold anything. *)
Definition submitted (id name : string) (cs : list CriterionScore)
    (stale : option float) (rated na : Z) : DimensionResult :=
  {| dimension_id := id; dimension_name := name; criteria_scores := cs;
     dim_score := stale; num_rated := rated; num_na := na |}.

Definition example_D1 : DimensionResult :=
  submitted "D1" "Risk Management"
    [ criterion "D1.1" (Some 1) false; criterion "D1.2" (Some 1) false;
      criterion "D1.3" None true ] None 0 0.

Definition example_D2 : DimensionResult :=
  submitted "D2" "Data Governance"
    [ criterion "D2.1" (Some 2) false; criterion "D2.2" (Some 3) false;
      criterion "D2.3" (Some 3) false ] (Some (of_Z 4)) 7 7.

Definition example_D3 : DimensionResult :=
  submitted "D3" "Documentation"
    [ criterion "D3.1" None false; criterion "D3.2" (Some 5) true ] None 0 0.

Definition example_store : gmap positive DimensionResult :=
  {[ 1%positive := example_D1; 2%positive := example_D2; 3%positive := example_D3 ]}.

(** X1: the derived fields are outputs only.  A second call of
    [calculate_dim_score] on the same object ends as the first did and
    leaves the store as the first left it.  Whatever [num_rated] and
    [num_na] the object holds before the call, the call ends the same way
    with the same store; when the call returns, the same holds of the
    [dim_score] it held (a call that raises in the division has not written
    [dim_score] yet). *)
Theorem calculate_dim_score_idempotent (h : gmap positive DimensionResult)
    (l : positive) (d : DimensionResult) :
  h !! l = Some d ->
  let run := calculate_dim_score l h in
  calculate_dim_score l (snd run) = run /\
  (forall (rated na : Z),
      calculate_dim_score l
        (<[l := submitted (dimension_id d) (dimension_name d) (criteria_scores d)
                  (dim_score d) rated na]> h) = run) /\
  (fst run = Ok l ->
   forall (stale : option float) (rated na : Z),
      calculate_dim_score l
        (<[l := submitted (dimension_id d) (dimension_name d) (criteria_scores d)
                  stale rated na]> h) = run).
Proof.
  intros Hl run. subst run. rewrite (calculate_dim_score_run h l d Hl).
  split; [|split].
  - destruct (mean_of (criteria_scores d)) as [v|e] eqn:Em; cbn [snd].
    + rewrite (calculate_dim_score_run _ l _ (lookup_insert_eq _ _ _)).
      cbn [criteria_scores set_dim_score counted set_num_na set_num_rated].
      rewrite Em, insert_insert_eq. reflexivity.
    + rewrite (calculate_dim_score_run _ l _ (lookup_insert_eq _ _ _)).
      cbn [criteria_scores set_dim_score counted set_num_na set_num_rated].
      rewrite Em, insert_insert_eq. reflexivity.
  - intros rated na.
    rewrite (calculate_dim_score_run _ l _ (lookup_insert_eq _ _ _)).
    cbn [criteria_scores submitted].
    destruct (mean_of (criteria_scores d)) as [v|e]; rewrite insert_insert_eq;
      reflexivity.
  - destruct (mean_of (criteria_scores d)) as [v|e] eqn:Em; cbn [fst];
      [|discriminate].
    intros _ stale rated na.
    rewrite (calculate_dim_score_run _ l _ (lookup_insert_eq _ _ _)).
    cbn [criteria_scores submitted]. rewrite Em, insert_insert_eq. reflexivity.
Qed.

Lemma calculate_dim_score_idempotent_witness :
  let run := calculate_dim_score 2%positive example_store in
  calculate_dim_score 2%positive (snd run) = run /\
  (forall (rated na : Z),
      calculate_dim_score 2%positive
        (<[2%positive := submitted (dimension_id example_D2) (dimension_name example_D2)
                           (criteria_scores example_D2) (dim_score example_D2)
                           rated na]> example_store) = run) /\
  (fst run = Ok 2%positive ->
   forall (stale : option float) (rated na : Z),
      calculate_dim_score 2%positive
        (<[2%positive := submitted (dimension_id example_D2) (dimension_name example_D2)
                           (criteria_scores example_D2) stale rated na]> example_store)
      = run).
Proof.
  apply (calculate_dim_score_idempotent example_store 2%positive example_D2).
  reflexivity.
Defined.

(** Every reference of [refs] is an object of [h] whose scores are in the
    range 1..5 that pydantic enforces. *)
Definition validated (h : gmap positive DimensionResult) (refs : list positive) : Prop :=
  forall l, In l refs ->
    exists d, h !! l = Some d /\ Forall score_in_range (criteria_scores d).

Lemma validated_scorable (h : gmap positive DimensionResult) (refs : list positive) :
  validated h refs -> scorable h refs.
Proof.
  intros H l Hl. destruct (H l Hl) as (d & Hd & Hv).
  exists d. split; [assumption|]. now apply validated_representable.
Qed.

(** X2: for ratings in the validated range 1..5 the call returns, and the
    [dim_score] it writes is [None] (nothing rated) or one of the 401 floats
    [k / 100], [100 <= k <= 500]: a valid float between 1.0 and 5.0. *)
Theorem dim_score_two_decimals (h : gmap positive DimensionResult)
    (l : positive) (d : DimensionResult) :
  h !! l = Some d ->
  Forall score_in_range (criteria_scores d) ->
  exists d',
    calculate_dim_score l h = (Ok l, <[l := d']> h) /\
    (dim_score d' = None \/
     exists s k,
       dim_score d' = Some s /\ 100 <= k <= 500 /\ s = of_ratio k 100 /\
       valid s = true /\ leb f1_0 s = true /\ leb s (of_Z 5) = true).
Proof.
  intros Hl Hv. exists (score_object d). split.
  - apply calculate_dim_score_ok; [assumption|]. now apply validated_representable.
  - cbn [dim_score score_object].
    destruct (spec_dim_score_range _ Hv) as [Hn|(s & Hs & Ht)]; [now left|right].
    pose proof (two_decimal_valid s Ht). pose proof (two_decimal_bounds s Ht) as [? ?].
    destruct Ht as (k & Hk & ->). exists (of_ratio k 100), k. repeat split; auto; lia.
Qed.

Lemma dim_score_two_decimals_witness :
  exists d',
    calculate_dim_score 2%positive example_store =
      (Ok 2%positive, <[2%positive := d']> example_store) /\
    (dim_score d' = None \/
     exists s k,
       dim_score d' = Some s /\ 100 <= k <= 500 /\ s = of_ratio k 100 /\
       valid s = true /\ leb f1_0 s = true /\ leb s (of_Z 5) = true).
Proof.
  apply (dim_score_two_decimals example_store 2%positive example_D2).
  - reflexivity.
  - repeat constructor; cbn; lia.
Defined.

(** ** The endpoint *)

Definition example_request : AssessmentRequest :=
  {| req_scoping :=
       {| system_name := "Credit scoring"; risk_category := "high-risk";
          industry := "financial"; organization_size := "large";
          deployment_status := "production"; has_governance_officer := "no";
          existing_frameworks := ""; num_ai_systems := "1" |};
     req_dimensions := [1%positive; 2%positive; 3%positive];
     req_weights := None |}.

(** X3: when every submitted dimension can be scored, [submit_assessment]
    returns; it has rescored each submitted object in place and left every
    other object of the store alone; the response carries the submitted
    objects and scoping; and its overall score, label and gaps are computed
    from the objects as rescored (threshold 3.0, the scoping's risk
    category), never from derived fields the request came with. *)
Theorem submit_assessment_rescores (py_sum : list float -> float)
    (request : AssessmentRequest) (h : gmap positive DimensionResult) :
  scorable h (req_dimensions request) ->
  exists resp h',
    submit_assessment py_sum request h = (Ok resp, h') /\
    (forall l, h' !! l =
       if bool_decide (l ∈ req_dimensions request)
       then score_object <$> h !! l else h !! l) /\
    resp_dimensions resp = req_dimensions request /\
    resp_scoping resp = req_scoping request /\
    agent_summary resp = None /\
    length (objects_at h' (req_dimensions request)) =
      length (req_dimensions request) /\
    calculate_overall_score py_sum (objects_at h' (req_dimensions request))
      (req_weights request) = Ok (overall_score resp) /\
    maturity_label resp = get_maturity_label (overall_score resp) /\
    gaps resp =
      analyze_gaps (objects_at h' (req_dimensions request)) default_threshold
        (Some (risk_category (req_scoping request))).
Proof.
  intros Hs.
  destruct (submit_assessment_run py_sum request h Hs) as (overall & Ho & Hrun).
  eexists _, _. split; [exact Hrun|].
  split; [intros l; apply score_store_lookup|].
  cbn [resp_dimensions resp_scoping agent_summary overall_score maturity_label gaps].
  repeat split; auto.
  apply read_all_run. intros l Hl. apply score_store_is_Some.
  destruct (Hs l Hl) as (d & Hd & _). eauto.
Qed.

Lemma submit_assessment_rescores_witness :
  exists resp h',
    submit_assessment sum_float example_request example_store = (Ok resp, h') /\
    (forall l, h' !! l =
       if bool_decide (l ∈ req_dimensions example_request)
       then score_object <$> example_store !! l else example_store !! l) /\
    resp_dimensions resp = req_dimensions example_request /\
    resp_scoping resp = req_scoping example_request /\
    agent_summary resp = None /\
    length (objects_at h' (req_dimensions example_request)) =
      length (req_dimensions example_request) /\
    calculate_overall_score sum_float (objects_at h' (req_dimensions example_request))
      (req_weights example_request) = Ok (overall_score resp) /\
    maturity_label resp = get_maturity_label (overall_score resp) /\
    gaps resp =
      analyze_gaps (objects_at h' (req_dimensions example_request)) default_threshold
        (Some (risk_category (req_scoping example_request))).
Proof.
  apply (submit_assessment_rescores sum_float example_request example_store).
  intros l Hl. cbn in Hl.
  destruct Hl as [<-|[<-|[<-|[]]]]; eexists; (split; [reflexivity|vm_compute; reflexivity]).
Defined.

(** The example request: D1 = 1.0 and D2 = 2.67 are gaps under "high-risk",
    D3 has nothing rated; the overall score is the mean of the two scored
    dimensions, and the stale fields of D2 are gone. *)
Example submit_assessment_example :
  let run := submit_assessment sum_float example_request example_store in
  (overall_score <$> match fst run with Ok r => Some r | Raise _ => None end) =
    Some (of_ratio 183 100) /\
  (maturity_label <$> match fst run with Ok r => Some r | Raise _ => None end) =
    Some "Managed" /\
  (map (fun g => (gap_dimension_id g, gap_dim_score g, gap_severity g, priority_rank g))
     <$> (gaps <$> match fst run with Ok r => Some r | Raise _ => None end)) =
    Some [ ("D1", f1_0, "critical", 1); ("D2", of_ratio 267 100, "moderate", 2) ] /\
  (fun d => (dim_score d, num_rated d, num_na d)) <$> (snd run !! 2%positive) =
    Some (Some (of_ratio 267 100), 3, 0).
Proof. vm_compute. repeat split; reflexivity. Qed.

Lemma objects_at_scored (refs : list positive) (h : gmap positive DimensionResult)
    (d : DimensionResult) :
  In d (objects_at (score_store refs h) refs) ->
  exists l d0, In l refs /\ h !! l = Some d0 /\ d = score_object d0.
Proof.
  unfold objects_at. intros Hd.
  apply list_elem_of_In, list_elem_of_omap in Hd as (l & Hl & Hlook).
  rewrite score_store_lookup, (bool_decide_eq_true_2 _ Hl) in Hlook.
  destruct (h !! l) as [d0|] eqn:E; [|discriminate].
  injection Hlook as <-. exists l, d0. split; [now apply list_elem_of_In|auto].
Qed.

Lemma no_scores_scored_of (dims : list DimensionResult) :
  Forall (fun d => dim_score d = None) dims -> scored_of dims = [].
Proof.
  unfold scored_of. induction 1 as [|d ds Hd _ IH]; [reflexivity|].
  cbn [omap list_omap]. rewrite Hd. exact IH.
Qed.

Lemma no_scores_no_gaps (dims : list DimensionResult) (t : float)
    (rc : option string) :
  Forall (fun d => dim_score d = None) dims ->
  analyze_gaps dims t rc = [].
Proof.
  intros H.
  assert (Hb : below_threshold (resolve_threshold RISK_THRESHOLDS t rc) dims = []).
  { unfold below_threshold. induction H as [|d ds Hd _ IH]; [reflexivity|].
    cbn [omap list_omap]. rewrite Hd. exact IH. }
  pose proof (analyze_gaps_with_identities RECOMMENDATIONS RISK_THRESHOLDS dims t rc) as P.
  fold analyze_gaps in P.
  rewrite Hb in P. apply Permutation_sym, Permutation_nil in P.
  now destruct (analyze_gaps dims t rc).
Qed.

(** X4: an assessment in which no criterion is rated (every criterion is
    N/A or has no score; in particular one without dimensions) is answered
    with overall score 0.0, label "Initial" and no gap, and every submitted
    object ends with [dim_score = None]. *)
Theorem submit_assessment_nothing_rated (py_sum : list float -> float)
    (request : AssessmentRequest) (h : gmap positive DimensionResult) :
  (forall l, In l (req_dimensions request) ->
     exists d, h !! l = Some d /\ rated_of (criteria_scores d) = []) ->
  exists resp h',
    submit_assessment py_sum request h = (Ok resp, h') /\
    overall_score resp = f0_0 /\
    maturity_label resp = "Initial" /\
    gaps resp = [] /\
    (forall l, In l (req_dimensions request) ->
       dim_score <$> h' !! l = Some None).
Proof.
  intros Hn.
  assert (Hnone : forall l, In l (req_dimensions request) ->
            exists d, h !! l = Some d /\ spec_dim_score (criteria_scores d) = None).
  { intros l Hl. destruct (Hn l Hl) as (d & Hd & Hr). exists d. split; [assumption|].
    apply rated_nil_spec in Hr. unfold spec_dim_score. now rewrite Hr. }
  assert (Hs : scorable h (req_dimensions request)).
  { intros l Hl. destruct (Hn l Hl) as (d & Hd & Hr). exists d. split; [assumption|].
    apply rated_nil_spec in Hr.
    unfold quotient_representable, spec_num_rated. rewrite Hr. reflexivity. }
  destruct (submit_assessment_run py_sum request h Hs) as (overall & Ho & Hrun).
  set (h' := score_store (req_dimensions request) h) in *.
  assert (Hall : Forall (fun d => dim_score d = None)
                   (objects_at h' (req_dimensions request))).
  { apply List.Forall_forall. intros d Hd.
    apply objects_at_scored in Hd as (l & d0 & Hl & Hd0 & ->).
    destruct (Hnone l Hl) as (d1 & Hd1 & Hsc).
    cbn [dim_score score_object]. congruence. }
  assert (Hov : overall = f0_0).
  { unfold calculate_overall_score in Ho.
    rewrite (no_scores_scored_of _ Hall) in Ho. congruence. }
  subst overall.
  eexists _, _. split; [exact Hrun|].
  cbn [overall_score maturity_label gaps].
  split; [reflexivity|]. split; [reflexivity|].
  split; [now apply no_scores_no_gaps|].
  intros l Hl. unfold h'. rewrite score_store_lookup.
  rewrite (bool_decide_eq_true_2 (l ∈ req_dimensions request))
    by (now apply list_elem_of_In).
  destruct (Hnone l Hl) as (d & Hd & Hsc). rewrite Hd. cbn. now rewrite Hsc.
Qed.

Lemma submit_assessment_nothing_rated_witness :
  exists resp h',
    submit_assessment sum_float
      {| req_scoping := req_scoping example_request;
         req_dimensions := [3%positive];
         req_weights := None |} example_store = (Ok resp, h') /\
    overall_score resp = f0_0 /\
    maturity_label resp = "Initial" /\
    gaps resp = [] /\
    (forall l, In l [3%positive] -> dim_score <$> h' !! l = Some None).
Proof.
  apply (submit_assessment_nothing_rated sum_float
           {| req_scoping := req_scoping example_request;
              req_dimensions := [3%positive];
              req_weights := None |} example_store).
  intros l [<-|[]]. exists example_D3. split; reflexivity.
Defined.

(** ** Severities that validated ratings can produce *)

(** The severity of a gap at score [s], by risk category: the threshold is
    2.5 for "limited-risk", 2.0 for "minimal-risk" and 3.0 for "high-risk"
    and for every other category. *)
Definition expected_severity (rc : string) (s : float) : string :=
  if decide (rc = "limited-risk") then
    if leb s f1_5 then "significant" else "moderate"
  else if decide (rc = "minimal-risk") then
    if eqb s f1_0 then "significant" else "moderate"
  else
    if eqb s f1_0 then "critical"
    else if leb s f2_0 then "significant" else "moderate".

Lemma severity_under_3_0 (s : float) :
  two_decimal s ->
  severity_of (sub f3_0 s) =
  if eqb s f1_0 then "critical" else if leb s f2_0 then "significant" else "moderate".
Proof.
  intros Hs. apply String.eqb_eq. revert s Hs.
  apply (forall_two_decimal
           (fun s => String.eqb (severity_of (sub f3_0 s))
                       (if eqb s f1_0 then "critical"
                        else if leb s f2_0 then "significant" else "moderate"))).
  vm_compute. reflexivity.
Qed.

Lemma severity_under_2_5 (s : float) :
  two_decimal s ->
  severity_of (sub f2_5 s) = if leb s f1_5 then "significant" else "moderate".
Proof.
  intros Hs. apply String.eqb_eq. revert s Hs.
  apply (forall_two_decimal
           (fun s => String.eqb (severity_of (sub f2_5 s))
                       (if leb s f1_5 then "significant" else "moderate"))).
  vm_compute. reflexivity.
Qed.

Lemma severity_under_2_0 (s : float) :
  two_decimal s ->
  severity_of (sub f2_0 s) = if eqb s f1_0 then "significant" else "moderate".
Proof.
  intros Hs. apply String.eqb_eq. revert s Hs.
  apply (forall_two_decimal
           (fun s => String.eqb (severity_of (sub f2_0 s))
                       (if eqb s f1_0 then "significant" else "moderate"))).
  vm_compute. reflexivity.
Qed.

Lemma severity_of_two_decimal (rc : string) (s : float) :
  two_decimal s ->
  severity_of (sub (resolve_threshold RISK_THRESHOLDS default_threshold (Some rc)) s) =
  expected_severity rc s.
Proof.
  intros Hs. unfold resolve_threshold, expected_severity.
  rewrite AnalysisProperties.risk_thresholds_lookup.
  pose proof (severity_under_3_0 s Hs) as H3.
  pose proof (severity_under_2_5 s Hs) as H25.
  pose proof (severity_under_2_0 s Hs) as H2.
  destruct (String.eqb_spec rc "") as [->|Hne]; cbn [negb];
    repeat case_decide; simplify_eq; assumption.
Qed.

(** X5: for a request whose ratings are all in the validated range 1..5,
    [submit_assessment] returns, and every gap of the response has a score
    [k / 100] with [100 <= k <= 500] and the severity [expected_severity]
    gives: "critical" is reported only at score 1.0 and never under
    "limited-risk" or "minimal-risk"; "significant" is reported up to 2.0
    under the threshold 3.0, up to 1.5 under "limited-risk" and only at 1.0
    under "minimal-risk". *)
Theorem submit_assessment_severities (py_sum : list float -> float)
    (request : AssessmentRequest) (h : gmap positive DimensionResult) :
  validated h (req_dimensions request) ->
  exists resp h',
    submit_assessment py_sum request h = (Ok resp, h') /\
    forall g, In g (gaps resp) ->
      (exists k, 100 <= k <= 500 /\ gap_dim_score g = of_ratio k 100) /\
      gap_severity g =
        expected_severity (risk_category (req_scoping request)) (gap_dim_score g) /\
      (gap_severity g = "critical" ->
         eqb (gap_dim_score g) f1_0 = true /\
         risk_category (req_scoping request) <> "limited-risk" /\
         risk_category (req_scoping request) <> "minimal-risk").
Proof.
  intros Hv.
  destruct (submit_assessment_run py_sum request h (validated_scorable _ _ Hv))
    as (overall & _ & Hrun).
  eexists _, _. split; [exact Hrun|]. cbn [gaps]. intros g Hg.
  apply analyze_gaps_with_In in Hg as (d & s & Hd & Hs & _ & Hid & Hsev & _).
  unfold gap_identity in Hid. injection Hid as _ _ Hscore.
  apply objects_at_scored in Hd as (l & d0 & Hl & Hd0 & ->).
  cbn [dim_score score_object] in Hs.
  destruct (Hv l Hl) as (d1 & Hd1 & Hrange).
  assert (d1 = d0) by congruence. subst d1.
  destruct (spec_dim_score_range _ Hrange) as [Hn|(s' & Hs' & Ht)]; [congruence|].
  assert (s' = s) by congruence. subst s'.
  rewrite Hscore.
  assert (Hsev' : gap_severity g =
                  expected_severity (risk_category (req_scoping request)) s).
  { rewrite Hsev. now apply severity_of_two_decimal. }
  split; [exact Ht|]. split; [exact Hsev'|].
  rewrite Hsev'. unfold expected_severity.
  repeat case_decide;
    repeat match goal with
           | |- context [if ?b then _ else _] => destruct b eqn:?
           end; intros Hc; try discriminate Hc; auto.
Qed.

Lemma submit_assessment_severities_witness :
  exists resp h',
    submit_assessment sum_float example_request example_store = (Ok resp, h') /\
    forall g, In g (gaps resp) ->
      (exists k, 100 <= k <= 500 /\ gap_dim_score g = of_ratio k 100) /\
      gap_severity g =
        expected_severity (risk_category (req_scoping example_request))
          (gap_dim_score g) /\
      (gap_severity g = "critical" ->
         eqb (gap_dim_score g) f1_0 = true /\
         risk_category (req_scoping example_request) <> "limited-risk" /\
         risk_category (req_scoping example_request) <> "minimal-risk").
Proof.
  apply (submit_assessment_severities sum_float example_request example_store).
  intros l Hl. cbn in Hl.
  destruct Hl as [<-|[<-|[<-|[]]]]; eexists;
    (split; [reflexivity|repeat constructor; cbn; lia]).
Defined.

End MainProperties.

(* ===================================================================== *)
(** * Python strings and slices                                           *)
(* ===================================================================== *)

Module PyStr.
Import Py.

(** A Python [str] is a sequence of Unicode code points. *)
Definition str : Type := list N.

(** An ASCII literal. *)
Definition of_ascii (s : string) : str :=
  map Ascii.N_of_ascii (String.list_ascii_of_string s).

(** A literal with characters beyond ASCII: the code points that the UTF-8
    bytes of [s] encode. *)
Definition utf8_step (st : nat * N * list N) (b : N) : nat * N * list N :=
  let '(need, acc, out) := st in
  match need with
  | O =>
      if (b <? 128)%N then (O, 0%N, out ++ [b])
      else if (b <? 224)%N then (1%nat, (b - 192)%N, out)
      else if (b <? 240)%N then (2%nat, (b - 224)%N, out)
      else (3%nat, (b - 240)%N, out)
  | S n =>
      let acc' := (acc * 64 + (b - 128))%N in
      match n with
      | O => (O, 0%N, out ++ [acc'])
      | S _ => (n, acc', out)
      end
  end.

Definition of_utf8 (s : string) : str :=
  snd (fold_left utf8_step
         (map Ascii.N_of_ascii (String.list_ascii_of_string s)) (O, 0%N, [])).

(** The index adjustment of a slice with step 1: a negative index counts
    from the end, and both ends are clipped to [0 .. n]. *)
Definition adjust_index (n i : Z) : Z :=
  if i <? 0 then Z.max (i + n) 0 else Z.min i n.

(** [l[lo:hi]]; an omitted bound is [None]. *)
Definition slice {A : Type} (lo hi : option Z) (l : list A) : list A :=
  let n := len l in
  let start := match lo with Some i => adjust_index n i | None => 0 end in
  let stop := match hi with Some i => adjust_index n i | None => n end in
  take (Z.to_nat (stop - start)) (drop (Z.to_nat start) l).

(** [sep.join(parts)] *)
Fixpoint join (sep : str) (parts : list str) : str :=
  match parts with
  | [] => []
  | p :: rest =>
      match rest with
      | [] => p
      | _ :: _ => p ++ sep ++ join sep rest
      end
  end.

End PyStr.

(* ===================================================================== *)
(** * conversation.py                                                     *)
(* ===================================================================== *)

Module Conversation.
Import Py PyStr.

(** [MAX_MESSAGE_LENGTH = 3000] *)
Definition MAX_MESSAGE_LENGTH : Z := 3000.

(** The character class [[\x00-\x08\x0b\x0c\x0e-\x1f\x7f]]. *)
Definition is_control (c : N) : bool :=
  ((c <=? 8) || (c =? 11) || (c =? 12) || ((14 <=? c) && (c <=? 31)) || (c =? 127))%N.

(** What [logger.warning] is called with: the pattern index, the first 50
    characters of the match and the first 100 of the cleaned input. *)
Record LogRecord : Type := {
  log_pattern : Z;
  log_match : str;
  log_input : str
}.

Definition truncation_warning : str := of_ascii "Message truncated to maximum length.".
Definition injection_warning : str := of_ascii "prompt_injection_detected".

Section Patterns.
(** A compiled pattern is used through [pattern.search] alone: [None] for no
    match, the matched text [match.group()] otherwise (a match object is
    always true).  The regular expressions themselves are not interpreted. *)
Variable COMPILED_INJECTION_PATTERNS : list (str -> option str).

(** [for i, pattern in enumerate(...): match = pattern.search(cleaned);
     if match: ... return]: the first pattern that matches, from index [i]. *)
Fixpoint first_match (i : Z) (patterns : list (str -> option str)) (cleaned : str)
    : option (Z * str) :=
  match patterns with
  | [] => None
  | pattern :: rest =>
      match pattern cleaned with
      | Some m => Some (i, m)
      | None => first_match (i + 1) rest cleaned
      end
  end.

(** [sanitize_input(text)]: the returned pair and the log records written. *)
Definition sanitize_input (text : str) : (str * list str) * list LogRecord :=
  let truncated :=
    if MAX_MESSAGE_LENGTH <? len text
    then slice None (Some MAX_MESSAGE_LENGTH) text else text in
  (* [truncated is not text] holds exactly when the slice was taken *)
  let warnings :=
    if MAX_MESSAGE_LENGTH <? len text then [truncation_warning] else [] in
  let cleaned := List.filter (fun c => negb (is_control c)) truncated in
  match first_match 0 COMPILED_INJECTION_PATTERNS cleaned with
  | Some (i, m) =>
      ((cleaned, warnings ++ [injection_warning]),
       [ {| log_pattern := i;
            log_match := slice None (Some 50) m;
            log_input := slice None (Some 100) cleaned |} ])
  | None => ((cleaned, warnings), [])
  end.
End Patterns.

(** A message is a [dict] with string keys and string values. *)
Abbreviation message := (gmap string str) (only parsing).

Definition assistant : str := of_ascii "assistant".

(** The body of the loop over [middle]: the f-string
    ["[{role_label}]: {content}"]. *)
Definition summary_part (msg : message) : str :=
  let role_label :=
    if bool_decide (msg !! "role"%string = Some assistant)
    then of_ascii "Agent" else of_ascii "Nutzer" in
  let content := default [] (msg !! "content"%string) in
  let content :=
    if 120 <? len content
    then slice None (Some 120) content ++ of_ascii "..." else content in
  of_ascii "[" ++ role_label ++ of_ascii "]: " ++ content.

Definition newline : str := [10%N].

(** ["[Zusammenfassung früherer Gesprächsteile]\n"]: 42 code points. *)
Definition summary_header : str :=
  of_utf8 "[Zusammenfassung früherer Gesprächsteile]" ++ newline.

(** [compress_conversation(messages, keep_recent)] *)
Definition compress_conversation (messages : list message) (keep_recent : Z)
    : list message :=
  if len messages <=? keep_recent + 2 then messages
  else
    let first := slice None (Some 2) messages in
    let recent := slice (Some (- keep_recent)) None messages in
    let middle := slice (Some 2) (Some (- keep_recent)) messages in
    match middle with
    | [] => messages
    | _ :: _ =>
        let summary_parts :=
          fold_left (fun parts msg => parts ++ [summary_part msg]) middle [] in
        let summary := summary_header ++ join newline summary_parts in
        first
          ++ [ {[ "role"%string := assistant; "content"%string := summary ]} ]
          ++ recent
    end.

End Conversation.

Module ConversationFacts.
Import Py PyStr Conversation.

Lemma adjust_index_bounds (n i : Z) : 0 <= n -> 0 <= adjust_index n i <= n.
Proof. unfold adjust_index. destruct (Z.ltb_spec i 0); lia. Qed.

(** The bounds a slice uses. *)
Definition slice_start {A : Type} (lo : option Z) (l : list A) : Z :=
  match lo with Some i => adjust_index (len l) i | None => 0 end.
Definition slice_stop {A : Type} (hi : option Z) (l : list A) : Z :=
  match hi with Some i => adjust_index (len l) i | None => len l end.

Lemma len_nonneg {A : Type} (l : list A) : 0 <= len l.
Proof. unfold len. lia. Qed.

Lemma slice_start_bounds {A : Type} (lo : option Z) (l : list A) :
  0 <= slice_start lo l <= len l.
Proof.
  destruct lo as [i|]; simpl.
  - apply adjust_index_bounds, len_nonneg.
  - pose proof (len_nonneg l). lia.
Qed.

Lemma slice_stop_bounds {A : Type} (hi : option Z) (l : list A) :
  0 <= slice_stop hi l <= len l.
Proof.
  destruct hi as [i|]; simpl.
  - apply adjust_index_bounds, len_nonneg.
  - pose proof (len_nonneg l). lia.
Qed.

Lemma slice_unfold {A : Type} (lo hi : option Z) (l : list A) :
  slice lo hi l
  = take (Z.to_nat (slice_stop hi l - slice_start lo l))
      (drop (Z.to_nat (slice_start lo l)) l).
Proof. reflexivity. Qed.

Lemma slice_len {A : Type} (lo hi : option Z) (l : list A) :
  len (slice lo hi l) = Z.max 0 (slice_stop hi l - slice_start lo l).
Proof.
  rewrite slice_unfold.
  pose proof (slice_start_bounds lo l). pose proof (slice_stop_bounds hi l).
  unfold len in *. rewrite length_take, length_drop.
  lia.
Qed.

Lemma slice_prefix {A : Type} (k : Z) (l : list A) :
  0 <= k -> slice None (Some k) l = take (Z.to_nat k) l.
Proof.
  intros Hk. rewrite slice_unfold. simpl. unfold adjust_index.
  change (drop (Z.to_nat 0) l) with l.
  destruct (Z.ltb_spec k 0); [lia|]. rewrite Z.sub_0_r.
  destruct (Z.le_gt_cases k (len l)).
  - now rewrite Z.min_l by assumption.
  - rewrite Z.min_r by lia. unfold len in *.
    rewrite Nat2Z.id. rewrite !take_ge by lia. reflexivity.
Qed.

Lemma slice_suffix {A : Type} (k : Z) (l : list A) :
  1 <= k <= len l -> slice (Some (- k)) None l = drop (Z.to_nat (len l - k)) l.
Proof.
  intros Hk. rewrite slice_unfold. simpl. unfold adjust_index.
  destruct (Z.ltb_spec (- k) 0); [|lia].
  rewrite Z.max_l by lia. replace (- k + len l) with (len l - k) by lia.
  apply take_ge. rewrite length_drop. unfold len in *. lia.
Qed.

Lemma slice_between {A : Type} (k : Z) (l : list A) :
  1 <= k -> k + 2 <= len l ->
  slice (Some 2) (Some (- k)) l = take (Z.to_nat (len l - k - 2)) (drop 2 l).
Proof.
  intros Hk Hn. rewrite slice_unfold. simpl. unfold adjust_index.
  destruct (Z.ltb_spec (- k) 0); [|lia]. destruct (Z.ltb_spec 2 0); [lia|].
  rewrite Z.max_l by lia. rewrite Z.min_l by lia.
  f_equal. lia.
Qed.

(** The three slices of [compress_conversation] cut the list in three. *)
Lemma slices_partition {A : Type} (k : Z) (l : list A) :
  1 <= k -> k + 2 <= len l ->
  l = slice None (Some 2) l ++ slice (Some 2) (Some (- k)) l
        ++ slice (Some (- k)) None l.
Proof.
  intros Hk Hn.
  rewrite slice_prefix by lia. rewrite slice_between by assumption.
  rewrite slice_suffix by lia.
  change (Z.to_nat 2) with 2%nat.
  replace (Z.to_nat (len l - k)) with (2 + Z.to_nat (len l - k - 2))%nat by lia.
  rewrite <- (drop_drop l). rewrite (take_drop _ (drop 2 l)).
  now rewrite take_drop.
Qed.

Lemma summary_parts_map (middle : list message) (parts : list str) :
  fold_left (fun parts msg => parts ++ [summary_part msg]) middle parts
  = parts ++ map summary_part middle.
Proof.
  revert parts. induction middle as [|m middle IH]; intros parts; simpl.
  - now rewrite app_nil_r.
  - rewrite IH. now rewrite <- app_assoc.
Qed.

(** The message that stands for the summarised part. *)
Definition summary_of (middle : list message) : str :=
  summary_header ++ join newline (map summary_part middle).

Definition summary_message (middle : list message) : message :=
  {[ "role"%string := assistant; "content"%string := summary_of middle ]}.

(** The branch that compresses. *)
Lemma compress_conversation_run (messages : list message) (keep_recent : Z) :
  1 <= keep_recent -> keep_recent + 2 < len messages ->
  compress_conversation messages keep_recent
  = take 2 messages
      ++ [summary_message
            (take (Z.to_nat (len messages - keep_recent - 2)) (drop 2 messages))]
      ++ drop (Z.to_nat (len messages - keep_recent)) messages.
Proof.
  intros Hk Hn. unfold compress_conversation.
  destruct (Z.leb_spec (len messages) (keep_recent + 2)); [lia|].
  rewrite slice_prefix by lia. rewrite slice_between by lia.
  rewrite slice_suffix by lia.
  destruct (take _ (drop 2 messages)) as [|m middle] eqn:Hmid.
  - apply (f_equal (@length _)) in Hmid. rewrite length_take, length_drop in Hmid.
    unfold len in *. simpl in Hmid. lia.
  - rewrite summary_parts_map. reflexivity.
Qed.

Lemma summary_part_len (msg : message) : len (summary_part msg) <= 133.
Proof.
  unfold summary_part.
  set (content := default [] (msg !! "content"%string)).
  assert (Hc : len (if 120 <? len content
                    then slice None (Some 120) content ++ of_ascii "..."
                    else content) <= 123).
  { destruct (Z.ltb_spec 120 (len content)) as [Hlt|Hle]; [|lia].
    rewrite slice_prefix by lia. unfold len in *.
    rewrite length_app, length_take.
    change (length (of_ascii "...")) with 3%nat. lia. }
  revert Hc. generalize (if 120 <? len content
                    then slice None (Some 120) content ++ of_ascii "..."
                    else content). intros c Hc.
  unfold len in *.
  destruct (bool_decide _); rewrite !length_app;
    change (length (of_ascii "[")) with 1%nat;
    change (length (of_ascii "]: ")) with 3%nat;
    [change (length (of_ascii "Agent")) with 5%nat
    |change (length (of_ascii "Nutzer")) with 6%nat]; lia.
Qed.

Lemma join_len (parts : list str) (b : Z) :
  Forall (fun p => len p <= b) parts ->
  len (join newline parts) <= (b + 1) * len parts.
Proof.
  induction 1 as [|p rest Hp Hrest IH].
  - simpl. unfold len. simpl. lia.
  - assert (0 <= b) by (pose proof (len_nonneg p); lia).
    destruct rest as [|q rest].
    + change (join newline [p]) with p. unfold len in *.
      change (length [p]) with 1%nat. lia.
    + change (join newline (p :: q :: rest))
        with (p ++ newline ++ join newline (q :: rest)).
      revert IH. generalize (join newline (q :: rest)). intros j IH.
      unfold len, str in *. rewrite !length_app.
      change (length newline) with 1%nat.
      change (length (p :: q :: rest)) with (S (length (q :: rest))).
      clear Hrest. revert IH. generalize (length (q :: rest)). intros n IH.
      lia.
Qed.

Lemma summary_of_len (middle : list message) :
  len (summary_of middle) <= 42 + 134 * len middle.
Proof.
  unfold summary_of.
  pose proof (join_len (map summary_part middle) 133) as Hj.
  assert (Hall : Forall (fun p => len p <= 133) (map summary_part middle)).
  { apply Forall_map. apply Forall_forall. intros m _. apply summary_part_len. }
  specialize (Hj Hall). unfold len in *.
  rewrite length_app. rewrite length_map in Hj.
  change (length summary_header) with 42%nat. lia.
Qed.

(** ** sanitize_input *)

Lemma first_match_None (i : Z) (patterns : list (str -> option str)) (s : str) :
  first_match i patterns s = None <-> Forall (fun p => p s = None) patterns.
Proof.
  revert i. induction patterns as [|p rest IH]; intros i; simpl.
  - split; [constructor | reflexivity].
  - destruct (p s) eqn:Hp.
    + split; [discriminate|]. intros H. inversion H; congruence.
    + rewrite IH. split; [now constructor | now inversion 1].
Qed.

Lemma first_match_Some (i : Z) (patterns : list (str -> option str)) (s : str)
    (j : Z) (m : str) :
  first_match i patterns s = Some (j, m) ->
  exists (n : nat) (p : str -> option str),
    j = i + Z.of_nat n /\ patterns !! n = Some p /\ p s = Some m
    /\ Forall (fun q => q s = None) (take n patterns).
Proof.
  revert i. induction patterns as [|p rest IH]; intros i; simpl; [discriminate|].
  destruct (p s) eqn:Hp.
  - intros [= <- <-]. exists 0%nat, p. simpl. repeat split; [lia | assumption | constructor].
  - intros H. destruct (IH _ H) as (n & q & -> & Hq & Hm & Hnone).
    exists (S n), q. simpl. repeat split; [lia | assumption | assumption |].
    now constructor.
Qed.

Definition clean (text : str) : str :=
  List.filter (fun c => negb (is_control c)) text.

Lemma clean_sublist (text : str) : clean text `sublist_of` text.
Proof.
  induction text as [|c text IH]; simpl; [constructor|].
  destruct (negb (is_control c)); now constructor.
Qed.

Lemma clean_no_control (text : str) : Forall (fun c => is_control c = false) (clean text).
Proof.
  apply Forall_forall. intros c Hc. apply list_elem_of_In in Hc.
  apply filter_In in Hc. destruct Hc as [_ Hc]. now apply negb_true_iff in Hc.
Qed.

Lemma clean_id (text : str) :
  Forall (fun c => is_control c = false) text -> clean text = text.
Proof.
  induction 1 as [|c text Hc _ IH]; simpl; [reflexivity|].
  rewrite Hc. simpl. now f_equal.
Qed.

Lemma clean_len (text : str) : len (clean text) <= len text.
Proof. unfold len. pose proof (sublist_length _ _ (clean_sublist text)). lia. Qed.

Lemma truncated_text (text : str) :
  (if MAX_MESSAGE_LENGTH <? len text
   then slice None (Some MAX_MESSAGE_LENGTH) text else text)
  = take 3000 text.
Proof.
  unfold MAX_MESSAGE_LENGTH.
  destruct (Z.ltb_spec 3000 (len text)) as [Hlt|Hle].
  - rewrite slice_prefix by lia. reflexivity.
  - symmetry. apply take_ge. unfold len in *. lia.
Qed.

Lemma sanitize_input_unfold (patterns : list (str -> option str)) (text : str) :
  sanitize_input patterns text
  = let cleaned := clean (take 3000 text) in
    let warnings :=
      if MAX_MESSAGE_LENGTH <? len text then [truncation_warning] else [] in
    match first_match 0 patterns cleaned with
    | Some (i, m) =>
        ((cleaned, warnings ++ [injection_warning]),
         [ {| log_pattern := i; log_match := slice None (Some 50) m;
              log_input := slice None (Some 100) cleaned |} ])
    | None => ((cleaned, warnings), [])
    end.
Proof. unfold sanitize_input. rewrite truncated_text. reflexivity. Qed.

Lemma sanitize_input_cleaned (patterns : list (str -> option str)) (text : str) :
  fst (fst (sanitize_input patterns text)) = clean (take 3000 text).
Proof.
  rewrite sanitize_input_unfold. cbv zeta.
  destruct (first_match 0 patterns _) as [[i m]|]; reflexivity.
Qed.

Lemma cleaned_len (text : str) : len (clean (take 3000 text)) <= 3000.
Proof.
  pose proof (clean_len (take 3000 text)). unfold len in *.
  rewrite length_take in H. lia.
Qed.

End ConversationFacts.

(* ===================================================================== *)
(** * conversation.py: properties                                         *)
(* ===================================================================== *)

Module ConversationProperties.
Import Py PyStr Conversation ConversationFacts.

Definition msg (role content : string) : message :=
  {[ "role"%string := of_ascii role; "content"%string := of_ascii content ]}.

Definition example_conversation : list message :=
  [ msg "assistant" "Willkommen"; msg "user" "Hallo"; msg "assistant" "Frage 1";
    msg "user" "Antwort 1"; msg "assistant" "Frage 2"; msg "user" "Antwort 2" ].

(** Two recent messages kept: the third and fourth message become one
    summary. *)
Example compress_conversation_example :
  compress_conversation example_conversation 2
  = [ msg "assistant" "Willkommen"; msg "user" "Hallo";
      {[ "role"%string := assistant;
         "content"%string :=
           summary_header ++ of_ascii "[Agent]: Frage 1" ++ newline
             ++ of_ascii "[Nutzer]: Antwort 1" ]};
      msg "assistant" "Frage 2"; msg "user" "Antwort 2" ].
Proof. vm_compute. reflexivity. Qed.

(** X6: with at least one recent message to keep and a conversation longer
    than [keep_recent + 2], the conversation splits into its first two
    messages, a non-empty middle and its last [keep_recent] messages; the
    result keeps the two ends verbatim and in order and puts one assistant
    message in place of the middle, whose content is the header followed by
    one line per summarised message.  The result has [keep_recent + 3]
    messages. *)
Theorem compress_conversation_keeps_ends (messages : list message) (keep_recent : Z) :
  1 <= keep_recent ->
  keep_recent + 2 < len messages ->
  exists first middle recent : list message,
    messages = first ++ middle ++ recent
    /\ len first = 2 /\ middle <> [] /\ len recent = keep_recent
    /\ compress_conversation messages keep_recent
       = first
           ++ [ {[ "role"%string := assistant;
                   "content"%string :=
                     summary_header ++ join newline (map summary_part middle) ]} ]
           ++ recent
    /\ len (compress_conversation messages keep_recent) = keep_recent + 3.
Proof.
  intros Hk Hn.
  exists (take 2 messages),
    (take (Z.to_nat (len messages - keep_recent - 2)) (drop 2 messages)),
    (drop (Z.to_nat (len messages - keep_recent)) messages).
  assert (Hfirst : len (take 2 messages) = 2).
  { unfold len in *. rewrite length_take. lia. }
  assert (Hrecent : len (drop (Z.to_nat (len messages - keep_recent)) messages)
                    = keep_recent).
  { unfold len in *. rewrite length_drop. lia. }
  split; [|split; [exact Hfirst|split; [|split; [exact Hrecent|split]]]].
  - pose proof (slices_partition keep_recent messages Hk ltac:(lia)) as Hp.
    rewrite slice_prefix in Hp by lia. rewrite slice_between in Hp by lia.
    rewrite slice_suffix in Hp by lia. exact Hp.
  - intros Hnil. apply (f_equal (@length _)) in Hnil.
    rewrite length_take, length_drop in Hnil. unfold len in *. simpl in Hnil. lia.
  - now apply compress_conversation_run.
  - rewrite compress_conversation_run by assumption.
    unfold len in *. rewrite !length_app. simpl length. lia.
Qed.

Lemma compress_conversation_keeps_ends_witness :
  exists first middle recent : list message,
    example_conversation = first ++ middle ++ recent
    /\ len first = 2 /\ middle <> [] /\ len recent = 2
    /\ compress_conversation example_conversation 2
       = first
           ++ [ {[ "role"%string := assistant;
                   "content"%string :=
                     summary_header ++ join newline (map summary_part middle) ]} ]
           ++ recent
    /\ len (compress_conversation example_conversation 2) = 2 + 3.
Proof.
  apply (compress_conversation_keeps_ends example_conversation 2).
  - lia.
  - reflexivity.
Defined.

(** X7: nothing is compressed, and the conversation is returned as it is,
    when it has at most [keep_recent + 2] messages, when it has at most two
    messages, and also whenever [keep_recent] is 0, -1 or -2: for
    [keep_recent = 0] the slice [messages[2:-0]] is [messages[2:0]], which is
    empty however long the conversation is. *)
Theorem compress_conversation_unchanged (messages : list message) (keep_recent : Z) :
  len messages <= keep_recent + 2 \/ len messages <= 2 \/ -2 <= keep_recent <= 0 ->
  compress_conversation messages keep_recent = messages.
Proof.
  intros H. unfold compress_conversation.
  destruct (Z.leb_spec (len messages) (keep_recent + 2)) as [|Hgt]; [reflexivity|].
  assert (Hmid : len (slice (Some 2) (Some (- keep_recent)) messages) = 0).
  { rewrite slice_len. cbn [slice_start slice_stop]. unfold adjust_index.
    pose proof (len_nonneg messages).
    destruct (Z.ltb_spec 2 0); [lia|].
    destruct (Z.ltb_spec (- keep_recent) 0); lia. }
  destruct (slice (Some 2) (Some (- keep_recent)) messages); [reflexivity|].
  unfold len in Hmid. simpl in Hmid. lia.
Qed.

Lemma compress_conversation_unchanged_witness :
  compress_conversation example_conversation 0 = example_conversation.
Proof.
  apply (compress_conversation_unchanged example_conversation 0).
  right. right. lia.
Defined.

(** X8: for every [keep_recent], negative ones included, the result is never
    longer than the conversation and begins with the same two messages. *)
Theorem compress_conversation_never_longer (messages : list message) (keep_recent : Z) :
  len (compress_conversation messages keep_recent) <= len messages
  /\ take 2 (compress_conversation messages keep_recent) = take 2 messages.
Proof.
  unfold compress_conversation.
  destruct (Z.leb_spec (len messages) (keep_recent + 2)) as [|Hgt]; [split; [lia|reflexivity]|].
  pose proof (slice_len (Some 2) (Some (- keep_recent)) messages) as Hmid.
  pose proof (slice_len None (Some 2) messages) as Hfirst.
  pose proof (slice_len (Some (- keep_recent)) None messages) as Hrecent.
  pose proof (slice_stop_bounds (Some (- keep_recent)) messages) as Hb.
  pose proof (len_nonneg messages) as Hn.
  cbn [slice_start slice_stop] in Hmid, Hfirst, Hrecent, Hb.
  assert (H2 : adjust_index (len messages) 2 = Z.min 2 (len messages)) by reflexivity.
  rewrite H2 in Hmid, Hfirst.
  destruct (slice (Some 2) (Some (- keep_recent)) messages) as [|m middle] eqn:Hm;
    [split; [lia|reflexivity]|].
  assert (Hpos : 1 <= len (m :: middle)).
  { unfold len. simpl. lia. }
  split.
  - unfold len in *. revert Hmid Hfirst Hrecent Hpos Hb.
    rewrite !length_app. simpl length.
    generalize (adjust_index (Z.of_nat (length messages)) (- keep_recent)).
    intros stop. lia.
  - rewrite slice_prefix by lia. rewrite take_app_le; [apply take_take|].
    rewrite slice_prefix in Hfirst by lia. unfold len in *.
    rewrite length_take. lia.
Qed.

(** X9: the summary is the third message of the result; it starts with the
    header and has at most 134 code points per summarised message after it,
    however long the summarised messages are. *)
Theorem compress_conversation_summary_size (messages : list message) (keep_recent : Z) :
  1 <= keep_recent ->
  keep_recent + 2 < len messages ->
  exists (summary : message) (content : str),
    compress_conversation messages keep_recent !! 2%nat = Some summary
    /\ summary !! "role"%string = Some assistant
    /\ summary !! "content"%string = Some content
    /\ summary_header `prefix_of` content
    /\ len content <= 42 + 134 * (len messages - keep_recent - 2).
Proof.
  intros Hk Hn. rewrite compress_conversation_run by assumption.
  set (middle := take _ (drop 2 messages)).
  exists (summary_message middle), (summary_of middle).
  split; [|split; [reflexivity|split; [reflexivity|split]]].
  - rewrite lookup_app_r; rewrite length_take; unfold len in *; [|lia].
    replace (2 - 2 `min` length messages)%nat with 0%nat by lia. reflexivity.
  - now exists (join newline (map summary_part middle)).
  - pose proof (summary_of_len middle) as Hs.
    assert (Hm : len middle = len messages - keep_recent - 2).
    { unfold middle, len in *. rewrite length_take, length_drop. lia. }
    lia.
Qed.

Lemma compress_conversation_summary_size_witness :
  exists (summary : message) (content : str),
    compress_conversation example_conversation 2 !! 2%nat = Some summary
    /\ summary !! "role"%string = Some assistant
    /\ summary !! "content"%string = Some content
    /\ summary_header `prefix_of` content
    /\ len content <= 42 + 134 * (len example_conversation - 2 - 2).
Proof.
  apply (compress_conversation_summary_size example_conversation 2).
  - lia.
  - reflexivity.
Defined.

(** ** sanitize_input *)

(** An illustrative searcher: the input contains the code point [c]. *)
Definition contains_char (c : N) (s : str) : option str :=
  if existsb (N.eqb c) s then Some [c] else None.

Example summary_header_code_points :
  summary_header
  = of_ascii "[Zusammenfassung fr" ++ [252%N] ++ of_ascii "herer Gespr"
      ++ [228%N] ++ of_ascii "chsteile]" ++ [10%N].
Proof. reflexivity. Qed.

Example sanitize_input_example :
  sanitize_input [contains_char 64; contains_char 35]
    (of_ascii "a" ++ [7%N] ++ of_ascii "b#" ++ [9%N; 127%N])
  = ((of_ascii "ab#" ++ [9%N], [injection_warning]),
     [ {| log_pattern := 1; log_match := of_ascii "#";
          log_input := of_ascii "ab#" ++ [9%N] |} ]).
Proof. vm_compute. reflexivity. Qed.

(** X10: the returned text is the first 3000 code points of the input
    without the control characters of the class: it has at most 3000 code
    points, none of them in the class, it is a subsequence of the input, it
    does not depend on the patterns, and an input of at most 3000 code
    points without such characters (tabs, newlines and carriage returns
    allowed) is returned unchanged. *)
Theorem sanitize_input_text (patterns : list (str -> option str)) (text : str) :
  let cleaned := fst (fst (sanitize_input patterns text)) in
  cleaned = List.filter (fun c => negb (is_control c)) (take 3000 text)
  /\ len cleaned <= MAX_MESSAGE_LENGTH
  /\ Forall (fun c => is_control c = false) cleaned
  /\ cleaned `sublist_of` text
  /\ (forall patterns', fst (fst (sanitize_input patterns' text)) = cleaned)
  /\ (len text <= MAX_MESSAGE_LENGTH ->
      Forall (fun c => is_control c = false) text -> cleaned = text)
  /\ is_control 9 = false /\ is_control 10 = false /\ is_control 13 = false.
Proof.
  cbv zeta. rewrite sanitize_input_cleaned.
  split; [reflexivity|]. split; [apply cleaned_len|].
  split; [apply clean_no_control|].
  split; [etransitivity; [apply clean_sublist|apply sublist_take]|].
  split; [intros p'; apply sanitize_input_cleaned|].
  split; [|repeat split].
  intros Hlen Hall. rewrite take_ge by (unfold len, MAX_MESSAGE_LENGTH in *; lia).
  now apply clean_id.
Qed.

(** X11: sanitising is idempotent.  A second pass over the returned text
    returns the same text and writes the same log record; the warnings of
    the first pass are those of the second, preceded by the truncation
    warning when the input was longer than 3000 code points. *)
Theorem sanitize_input_idempotent (patterns : list (str -> option str)) (text : str) :
  let first := sanitize_input patterns text in
  let second := sanitize_input patterns (fst (fst first)) in
  fst (fst second) = fst (fst first)
  /\ snd second = snd first
  /\ snd (fst first)
     = (if MAX_MESSAGE_LENGTH <? len text then [truncation_warning] else [])
         ++ snd (fst second).
Proof.
  cbv zeta. rewrite (sanitize_input_cleaned patterns text).
  pose proof (cleaned_len text) as Hlen.
  set (cleaned := clean (take 3000 text)) in *.
  assert (Hfix : clean (take 3000 cleaned) = cleaned).
  { rewrite take_ge by (unfold len in Hlen; lia).
    apply clean_id, clean_no_control. }
  assert (Hshort : (MAX_MESSAGE_LENGTH <? len cleaned) = false).
  { apply Z.ltb_ge. exact Hlen. }
  rewrite !sanitize_input_unfold. cbv zeta. rewrite Hfix, Hshort. fold cleaned.
  destruct (first_match 0 patterns cleaned) as [[i m]|]; cbn [fst snd].
  - repeat split.
  - repeat split. now rewrite app_nil_r.
Qed.

Lemma warnings_distinct : truncation_warning <> injection_warning.
Proof. discriminate. Qed.

(** X12: the verdict is about the returned text.  The truncation warning is
    given exactly for inputs longer than 3000 code points; the injection
    flag is given exactly when some pattern matches the cleaned text (not
    the raw input); a log record is written exactly when the flag is given,
    and it names the first pattern that matches, with at most 50 code points
    of the match and 100 of the cleaned text. *)
Theorem sanitize_input_verdict (patterns : list (str -> option str)) (text : str) :
  let cleaned := fst (fst (sanitize_input patterns text)) in
  let warnings := snd (fst (sanitize_input patterns text)) in
  let log := snd (sanitize_input patterns text) in
  (In truncation_warning warnings <-> MAX_MESSAGE_LENGTH < len text)
  /\ (In injection_warning warnings <-> Exists (fun p => p cleaned <> None) patterns)
  /\ ((log = [] /\ ~ In injection_warning warnings)
      \/ exists (i : nat) (p : str -> option str) (m : str),
           In injection_warning warnings
           /\ patterns !! i = Some p /\ p cleaned = Some m
           /\ Forall (fun q => q cleaned = None) (take i patterns)
           /\ log = [ {| log_pattern := Z.of_nat i;
                         log_match := take 50 m;
                         log_input := take 100 cleaned |} ]).
Proof.
  cbv zeta. rewrite sanitize_input_cleaned. rewrite sanitize_input_unfold. cbv zeta.
  set (cleaned := clean (take 3000 text)).
  assert (Htrunc : forall rest,
            ~ In truncation_warning rest ->
            In truncation_warning
              ((if MAX_MESSAGE_LENGTH <? len text then [truncation_warning] else [])
                 ++ rest)
            <-> MAX_MESSAGE_LENGTH < len text).
  { intros rest Hrest. rewrite in_app_iff.
    destruct (Z.ltb_spec MAX_MESSAGE_LENGTH (len text)); simpl; intuition lia. }
  assert (Hinj : ~ In injection_warning
                   (if MAX_MESSAGE_LENGTH <? len text then [truncation_warning] else [])).
  { destruct (MAX_MESSAGE_LENGTH <? len text); simpl; [|tauto].
    intros [H|[]]. now apply warnings_distinct. }
  destruct (first_match 0 patterns cleaned) as [[j m]|] eqn:Hfm; cbn [fst snd].
  - destruct (first_match_Some _ _ _ _ _ Hfm) as (i & p & -> & Hp & Hm & Hnone).
    assert (Hflag : In injection_warning
              ((if MAX_MESSAGE_LENGTH <? len text then [truncation_warning] else [])
                 ++ [injection_warning])).
    { apply in_app_iff. right. now left. }
    split; [|split].
    + apply Htrunc. intros [H|[]]. now apply warnings_distinct.
    + split; [intros _|intros _; exact Hflag].
      apply Exists_exists. exists p. split; [|congruence].
      eapply list_elem_of_lookup_2. exact Hp.
    + right. exists i, p, m. repeat split; try assumption.
      rewrite !slice_prefix by lia. reflexivity.
  - apply first_match_None in Hfm.
    split; [|split].
    + rewrite <- (Htrunc []) by (intros []). now rewrite app_nil_r.
    + split; [intros H; now apply Hinj in H|].
      intros Hex. apply Exists_exists in Hex. destruct Hex as (p & Hin & Hp).
      rewrite Forall_forall in Hfm. now apply Hfm in Hin.
    + left. split; [reflexivity|exact Hinj].
Qed.

End ConversationProperties.

(* ===================================================================== *)
(** * main.py: the benchmark endpoint                                     *)
(* ===================================================================== *)

Module Benchmarks.
Import PyFloat Py Models Scoring.
Local Open Scope string_scope.

(** The values of a benchmark row: floats, a label and a count. *)
Inductive value : Type :=
  | VFloat (f : float)
  | VStr (s : string)
  | VInt (n : Z).

(** A [dict] literal with string keys, in insertion order. *)
Definition dict (V : Type) : Type := list (string * V).

(** [k in d] *)
Definition dict_contains {V : Type} (k : string) (d : dict V) : bool :=
  existsb (fun kv => String.eqb (fst kv) k) d.

(** [d[k]]; [None] stands for [KeyError]. *)
Definition dict_getitem {V : Type} (k : string) (d : dict V) : option V :=
  match find (fun kv => String.eqb (fst kv) k) d with
  | Some kv => Some (snd kv)
  | None => None
  end.

(** [list(d.keys())] *)
Definition dict_keys {V : Type} (d : dict V) : list string := map fst d.

(** A decimal literal with one or two decimals is the float nearest to it. *)
Definition tenths (n : Z) : value := VFloat (of_ratio n 10).
Definition hundredths_of (n : Z) : value := VFloat (of_ratio n 100).

Definition INDUSTRY_BENCHMARKS : dict (dict value) :=
  [ ("default",
     [ ("D1", tenths 28); ("D2", tenths 25); ("D3", tenths 23);
       ("D4", tenths 21); ("D5", tenths 20); ("D6", tenths 26);
       ("overall", hundredths_of 238); ("label", VStr "Managed");
       ("n_assessments", VInt 47) ]);
    ("financial",
     [ ("D1", tenths 32); ("D2", tenths 30); ("D3", tenths 28);
       ("D4", tenths 25); ("D5", tenths 23); ("D6", tenths 30);
       ("overall", hundredths_of 280); ("label", VStr "Defined");
       ("n_assessments", VInt 12) ]);
    ("healthcare",
     [ ("D1", tenths 30); ("D2", tenths 28); ("D3", tenths 31);
       ("D4", tenths 27); ("D5", tenths 28); ("D6", tenths 25);
       ("overall", hundredths_of 282); ("label", VStr "Defined");
       ("n_assessments", VInt 8) ]);
    ("technology",
     [ ("D1", tenths 26); ("D2", tenths 29); ("D3", tenths 20);
       ("D4", tenths 23); ("D5", tenths 18); ("D6", tenths 32);
       ("overall", hundredths_of 247); ("label", VStr "Managed");
       ("n_assessments", VInt 15) ]);
    ("manufacturing",
     [ ("D1", tenths 25); ("D2", tenths 22); ("D3", tenths 24);
       ("D4", tenths 19); ("D5", tenths 21); ("D6", tenths 28);
       ("overall", hundredths_of 232); ("label", VStr "Managed");
       ("n_assessments", VInt 6) ]);
    ("public_sector",
     [ ("D1", tenths 27); ("D2", tenths 24); ("D3", tenths 29);
       ("D4", tenths 26); ("D5", tenths 25); ("D6", tenths 21);
       ("overall", hundredths_of 253); ("label", VStr "Defined");
       ("n_assessments", VInt 6) ]) ].

(** The response [dict] of [get_benchmarks]. *)
Record BenchmarksResponse : Type := {
  benchmark : dict value;
  available_industries : list string
}.

Section Lower.
(** [str.lower] *)
Variable lower : string -> string.

(** [get_benchmarks(industry)]; the empty string is false. *)
Definition get_benchmarks (industry : option string) : option BenchmarksResponse :=
  let known :=
    match industry with
    | Some s => negb (String.eqb s "") && dict_contains (lower s) INDUSTRY_BENCHMARKS
    | None => false
    end in
  let row :=
    match industry with
    | Some s =>
        if known then dict_getitem (lower s) INDUSTRY_BENCHMARKS
        else dict_getitem "default" INDUSTRY_BENCHMARKS
    | None => dict_getitem "default" INDUSTRY_BENCHMARKS
    end in
  match row with
  | Some benchmark =>
      Some {| benchmark := benchmark;
              available_industries := dict_keys INDUSTRY_BENCHMARKS |}
  | None => None
  end.
End Lower.

End Benchmarks.

(** [sum] of a non-empty generator of floats as CPython computes it from
    version 3.12: the first item is added to the [int] start value [0], the
    others by Neumaier's compensated summation, and the compensation is
    added at the end when it is non-zero and finite.  ([Py.sum_float] is the
    plain summation of the versions before.) *)
Module Py312.
Import PyFloat.

Fixpoint neumaier (items : list float) (f_result c : float) : float :=
  match items with
  | [] => if negb (eqb c f0_0) && is_finite c then add f_result c else f_result
  | x :: rest =>
      let t := add f_result x in
      let c' :=
        if geb (SFabs f_result) (SFabs x)
        then add c (add (sub f_result t) x)
        else add c (add (sub x t) f_result) in
      neumaier rest t c'
  end.

Definition sum_float (items : list float) : float :=
  match items with
  | [] => f0_0
  | x :: rest => neumaier rest (add f0_0 x) f0_0
  end.

End Py312.

Module BenchmarksProperties.
Import PyFloat Py Models Scoring Benchmarks.
Local Open Scope string_scope.

Lemma dict_getitem_contains {V : Type} (k : string) (d : dict V) :
  dict_contains k d = true ->
  exists v, dict_getitem k d = Some v /\ In (k, v) d.
Proof.
  unfold dict_contains, dict_getitem. induction d as [|[k' v'] d IH]; simpl.
  - discriminate.
  - destruct (String.eqb_spec k' k) as [->|Hne]; simpl.
    + intros _. exists v'. split; [reflexivity|now left].
    + intros H. destruct (IH H) as (v & Hv & Hin). exists v. split; [exact Hv|now right].
Qed.

Lemma dict_contains_keys {V : Type} (k : string) (d : dict V) :
  dict_contains k d = true <-> In k (dict_keys d).
Proof.
  unfold dict_contains, dict_keys. rewrite existsb_exists, in_map_iff.
  split; intros ([k' v] & H1 & H2); exists (k', v); simpl in *.
  - apply String.eqb_eq in H2. now split.
  - split; [assumption|]. now apply String.eqb_eq.
Qed.

(** The row the endpoint answers with, and its key. *)
Lemma get_benchmarks_row (lower : string -> string) (industry : option string) :
  exists (key : string) (row : dict value),
    get_benchmarks lower industry
      = Some {| benchmark := row;
                available_industries := dict_keys INDUSTRY_BENCHMARKS |}
    /\ dict_getitem key INDUSTRY_BENCHMARKS = Some row
    /\ In (key, row) INDUSTRY_BENCHMARKS
    /\ key = match industry with
             | Some s =>
                 if negb (String.eqb s "")
                    && dict_contains (lower s) INDUSTRY_BENCHMARKS
                 then lower s else "default"
             | None => "default"
             end.
Proof.
  assert (Hdefault : exists row,
            dict_getitem "default" INDUSTRY_BENCHMARKS = Some row
            /\ In ("default", row) INDUSTRY_BENCHMARKS).
  { apply dict_getitem_contains. reflexivity. }
  destruct Hdefault as (row0 & Hrow0 & Hin0).
  unfold get_benchmarks. destruct industry as [s|].
  - destruct (negb (String.eqb s "") && dict_contains (lower s) INDUSTRY_BENCHMARKS)
      eqn:Hknown.
    + apply andb_true_iff in Hknown. destruct Hknown as [_ Hc].
      destruct (dict_getitem_contains _ _ Hc) as (row & Hrow & Hin).
      exists (lower s), row. rewrite Hrow. auto.
    + exists "default", row0. rewrite Hrow0. auto.
  - exists "default", row0. rewrite Hrow0. auto.
Qed.

(** X13: the benchmark endpoint never fails with a [KeyError] and always
    answers with a row of the table and the six industry names: the row of
    the lower-cased industry when that is a key of the table (and the
    industry is not the empty string), the row "default" for every other
    value, a missing or empty industry included. *)
Theorem get_benchmarks_fallback (lower : string -> string) (industry : option string) :
  exists (key : string) (row : dict value),
    get_benchmarks lower industry
      = Some {| benchmark := row;
                available_industries :=
                  [ "default"; "financial"; "healthcare"; "technology";
                    "manufacturing"; "public_sector" ] |}
    /\ dict_getitem key INDUSTRY_BENCHMARKS = Some row
    /\ (forall s, industry = Some s -> s <> "" ->
        In (lower s) (dict_keys INDUSTRY_BENCHMARKS) -> key = lower s)
    /\ (industry = None \/ industry = Some ""
        \/ (exists s, industry = Some s
                      /\ ~ In (lower s) (dict_keys INDUSTRY_BENCHMARKS)) ->
        key = "default").
Proof.
  destruct (get_benchmarks_row lower industry) as (key & row & Hget & Hrow & _ & Hkey).
  exists key, row. split; [exact Hget|]. split; [exact Hrow|]. split.
  - intros s -> Hs Hin. rewrite Hkey.
    apply dict_contains_keys in Hin. rewrite Hin.
    destruct (String.eqb_spec s ""); [contradiction|reflexivity].
  - intros [->|[->|(s & -> & Hnot)]]; rewrite Hkey; [reflexivity|reflexivity|].
    destruct (dict_contains (lower s) INDUSTRY_BENCHMARKS) eqn:Hc.
    + apply dict_contains_keys in Hc. contradiction.
    + now rewrite andb_false_r.
Qed.

(** The dimension entries of a row, as scored dimensions. *)
Definition benchmark_dimensions (row : dict value) : list DimensionResult :=
  omap (fun id =>
          match dict_getitem id row with
          | Some (VFloat s) =>
              Some {| dimension_id := id; dimension_name := id;
                      criteria_scores := []; dim_score := Some s;
                      num_rated := 0; num_na := 0 |}
          | _ => None
          end)
       ["D1"; "D2"; "D3"; "D4"; "D5"; "D6"].

(** A row agrees with the scoring engine: it has the six dimension values,
    its overall value is their unweighted overall score, under the plain
    and under the compensated summation, and its label is the maturity
    label of that score. *)
Definition consistent (row : dict value) : Prop :=
  exists overall : float,
    dict_getitem "overall" row = Some (VFloat overall)
    /\ map dimension_id (benchmark_dimensions row)
       = ["D1"; "D2"; "D3"; "D4"; "D5"; "D6"]
    /\ calculate_overall_score Py.sum_float (benchmark_dimensions row) None
       = Ok overall
    /\ calculate_overall_score Py312.sum_float (benchmark_dimensions row) None
       = Ok overall
    /\ dict_getitem "label" row = Some (VStr (get_maturity_label overall)).

Lemma rows_consistent :
  Forall (fun kv => consistent (snd kv)) INDUSTRY_BENCHMARKS.
Proof.
  repeat constructor; eexists; (split; [reflexivity|]); vm_compute; repeat split.
Qed.

(** X14: the synthetic benchmark rows agree with the scoring engine.
    Whatever industry is asked for, the row returned carries the six
    dimension values, an overall value equal to [calculate_overall_score] of
    those values without weights, and the label [get_maturity_label] gives
    that overall value. *)
Theorem get_benchmarks_consistent (lower : string -> string) (industry : option string) :
  exists (response : BenchmarksResponse) (overall : float),
    get_benchmarks lower industry = Some response
    /\ dict_getitem "overall" (benchmark response) = Some (VFloat overall)
    /\ map dimension_id (benchmark_dimensions (benchmark response))
       = ["D1"; "D2"; "D3"; "D4"; "D5"; "D6"]
    /\ calculate_overall_score Py.sum_float
         (benchmark_dimensions (benchmark response)) None = Ok overall
    /\ calculate_overall_score Py312.sum_float
         (benchmark_dimensions (benchmark response)) None = Ok overall
    /\ dict_getitem "label" (benchmark response)
       = Some (VStr (get_maturity_label overall)).
Proof.
  destruct (get_benchmarks_row lower industry) as (key & row & Hget & _ & Hin & _).
  pose proof rows_consistent as Hall. rewrite Forall_forall in Hall.
  apply list_elem_of_In in Hin.
  destruct (Hall _ Hin) as (overall & H1 & H2 & H3 & H4 & H5).
  eexists _, overall. split; [exact Hget|]. cbn [benchmark]. auto.
Qed.

Example get_benchmarks_examples :
  let lower := fun s : string => if String.eqb s "Healthcare" then "healthcare" else s in
  (benchmark <$> get_benchmarks lower (Some "Healthcare"))
    = dict_getitem "healthcare" INDUSTRY_BENCHMARKS
  /\ (benchmark <$> get_benchmarks lower (Some "retail"))
    = dict_getitem "default" INDUSTRY_BENCHMARKS
  /\ (benchmark <$> get_benchmarks lower None)
    = dict_getitem "default" INDUSTRY_BENCHMARKS.
Proof. vm_compute. repeat split. Qed.

End BenchmarksProperties.

(* ===================================================================== *)
(** * llm_client.py: message formatting                                   *)
(* ===================================================================== *)

Module LlmClient.
Import Py PyStr Conversation.

(** [{'role': m.get('role', 'user'), 'content': m.get('content', '')}] *)
Definition format_message (m : message) : message :=
  {[ "role"%string := default (of_ascii "user") (m !! "role"%string);
     "content"%string := default [] (m !! "content"%string) ]}.

(** [_format_openai_messages(system, messages)] *)
Definition _format_openai_messages (system : str) (messages : list message)
    : list message :=
  {[ "role"%string := of_ascii "system"; "content"%string := system ]}
    :: map format_message messages.

(** [_format_anthropic_messages(messages)] *)
Definition _format_anthropic_messages (messages : list message) : list message :=
  map format_message messages.

End LlmClient.

Module LlmClientProperties.
Import Py PyStr Conversation LlmClient.

Lemma format_message_role (m : message) :
  format_message m !! "role"%string
  = Some (default (of_ascii "user") (m !! "role"%string)).
Proof. unfold format_message. now rewrite lookup_insert_eq. Qed.

Lemma format_message_content (m : message) :
  format_message m !! "content"%string
  = Some (default [] (m !! "content"%string)).
Proof.
  unfold format_message. rewrite lookup_insert_ne by discriminate.
  now rewrite lookup_singleton_eq.
Qed.

Lemma format_message_other (m : message) (k : string) :
  k <> "role"%string -> k <> "content"%string -> format_message m !! k = None.
Proof.
  intros Hr Hc. unfold format_message.
  rewrite lookup_insert_ne by congruence.
  now rewrite lookup_singleton_ne by congruence.
Qed.

Lemma format_message_idem (m : message) :
  format_message (format_message m) = format_message m.
Proof.
  unfold format_message at 1.
  now rewrite format_message_role, format_message_content.
Qed.

(** X15: both formatters keep the number and order of the messages and give
    every message exactly the keys [role] and [content]: the role of the
    message or "user" when it has none, its content or the empty string,
    and no other key of the input.  Formatting a formatted list changes
    nothing, and the OpenAI form is the Anthropic form behind one "system"
    message that carries the system prompt. *)
Theorem format_messages_normal_form (system : str) (messages : list message) :
  length (_format_anthropic_messages messages) = length messages
  /\ (forall (i : nat) (m : message),
        messages !! i = Some m ->
        exists m' : message,
          _format_anthropic_messages messages !! i = Some m'
          /\ m' !! "role"%string = Some (default (of_ascii "user") (m !! "role"%string))
          /\ m' !! "content"%string = Some (default [] (m !! "content"%string))
          /\ dom m' = ({[ "role"%string; "content"%string ]} : gset string))
  /\ _format_anthropic_messages (_format_anthropic_messages messages)
     = _format_anthropic_messages messages
  /\ _format_openai_messages system messages
     = {[ "role"%string := of_ascii "system"; "content"%string := system ]}
         :: _format_anthropic_messages messages
  /\ map format_message (_format_openai_messages system messages)
     = _format_openai_messages system messages.
Proof.
  unfold _format_anthropic_messages, _format_openai_messages.
  split; [apply length_map|]. split; [|split; [|split]].
  - intros i m Hm. exists (format_message m).
    rewrite list_lookup_fmap, Hm. split; [reflexivity|].
    split; [apply format_message_role|]. split; [apply format_message_content|].
    unfold format_message. rewrite dom_insert_L, dom_singleton_L. reflexivity.
  - rewrite map_map. apply map_ext. intros m. apply format_message_idem.
  - reflexivity.
  - cbn [map]. f_equal.
    rewrite map_map. apply map_ext. intros m. apply format_message_idem.
Qed.

Example format_drops_other_keys :
  _format_anthropic_messages
    [ {[ "role"%string := of_ascii "assistant"; "content"%string := of_ascii "Hallo";
         "timestamp"%string := of_ascii "12:00" ]};
      {[ "content"%string := of_ascii "Frage" ]}; ∅ ]
  = [ {[ "role"%string := of_ascii "assistant"; "content"%string := of_ascii "Hallo" ]};
      {[ "role"%string := of_ascii "user"; "content"%string := of_ascii "Frage" ]};
      {[ "role"%string := of_ascii "user"; "content"%string := [] ]} ].
Proof. vm_compute. reflexivity. Qed.

End LlmClientProperties.

(* ===================================================================== *)
(** * main.py: the chat endpoint up to its streaming response             *)
(* ===================================================================== *)

Module Chat.
Import Py PyStr Conversation.

(** [ChatMessage] *)
Record ChatMessage : Type := {
  role : str;
  content : str
}.

(** [ChatRequest]; the assessment context is a [dict] that the endpoint
    passes on unread. *)
Record ChatRequest (Ctx : Type) : Type := {
  messages : list ChatMessage;
  dimension_id : option str;
  criterion_id : option str;
  assessment_context : option Ctx;
  locale : option str
}.
Arguments messages {Ctx} _.
Arguments dimension_id {Ctx} _.
Arguments criterion_id {Ctx} _.
Arguments assessment_context {Ctx} _.
Arguments locale {Ctx} _.

(** What the endpoint does with a request: it raises an [HTTPException],
    or it answers with the stream of [generate_safe] (one event with the
    text, then the end mark), or it calls [rag_engine.retrieve] and answers
    with the stream of [stream_chat]; the last is recorded with the
    arguments of the two calls. *)
Inductive ChatAction (Ctx : Type) : Type :=
  | HTTPException (status_code : Z) (detail : str)
  | SafeStream (text : str)
  | LLMStream (query : str) (dimension_id criterion_id : option str)
      (max_chunks max_tokens : Z) (messages_dicts : list message)
      (assessment_context : option Ctx) (locale : str).
Arguments HTTPException {Ctx} _ _.
Arguments SafeStream {Ctx} _.
Arguments LLMStream {Ctx} _ _ _ _ _ _ _ _.

Definition safe_response_de : str :=
  of_utf8 "Ich bin Ihr KI-Governance-Assessment-Assistent. Lassen Sie uns mit dem Assessment fortfahren. Können Sie mir mehr über Ihre KI-Governance-Praktiken erzählen?".

Definition safe_response : list (str * str) :=
  [ (of_ascii "de", safe_response_de);
    (of_ascii "en",
     of_ascii "I am your AI Governance Assessment Assistant. Let us continue with the assessment. Can you tell me more about your AI governance practices?");
    (of_ascii "fr",
     of_utf8 "Je suis votre assistant d'évaluation de la gouvernance IA. Continuons avec l'évaluation. Pouvez-vous me dire plus sur vos pratiques de gouvernance IA ?") ].

(** [d.get(k, default)] for a key that may be [None]. *)
Definition dict_get (k : option str) (d : list (str * str)) (default : str) : str :=
  match k with
  | Some k =>
      match find (fun kv => bool_decide (fst kv = k)) d with
      | Some kv => snd kv
      | None => default
      end
  | None => default
  end.

(** [{'role': m.role, 'content': m.content}] *)
Definition message_dict (m : ChatMessage) : message :=
  {[ "role"%string := role m; "content"%string := content m ]}.

Section Patterns.
Variable COMPILED_INJECTION_PATTERNS : list (str -> option str).
Context {Ctx : Type}.

(** [chat(request)]: the action and the log records written. *)
Definition chat (request : ChatRequest Ctx) : ChatAction Ctx * list LogRecord :=
  let last_user_msg :=
    match find (fun msg => bool_decide (role msg = of_ascii "user"))
               (rev (messages request)) with
    | Some msg => content msg
    | None => []
    end in
  match last_user_msg with
  | [] => (HTTPException 400 (of_ascii "No user message found"), [])
  | _ :: _ =>
      let '(sanitized_msg, warnings, log) :=
        sanitize_input COMPILED_INJECTION_PATTERNS last_user_msg in
      if bool_decide (of_ascii "prompt_injection_detected" ∈ warnings)
      then (SafeStream (dict_get (locale request) safe_response safe_response_de), log)
      else
        (LLMStream sanitized_msg (dimension_id request) (criterion_id request)
           4 2500
           (map message_dict (messages request))
           (assessment_context request)
           (match locale request with
            | Some (c :: l) => c :: l
            | _ => of_ascii "de"
            end),
         log)
  end.
End Patterns.

End Chat.

Module ChatProperties.
Import Py PyStr Conversation ConversationFacts Chat.

Definition user : str := of_ascii "user".

Definition is_user (msg : ChatMessage) : bool := bool_decide (role msg = user).

(** The last message with role "user", seen from the front of the list. *)
Lemma find_rev_Some (l : list ChatMessage) (m : ChatMessage) :
  find is_user (rev l) = Some m <->
  exists pre post,
    l = pre ++ m :: post /\ role m = user
    /\ Forall (fun m' => role m' <> user) post.
Proof.
  induction l as [|x l IH] using rev_ind.
  - simpl. split; [discriminate|]. intros (pre & post & H & _).
    destruct pre; discriminate.
  - rewrite rev_app_distr. cbn [rev app find]. unfold is_user at 1.
    destruct (bool_decide_reflect (role x = user)) as [Hx|Hx].
    + split.
      * intros [= <-]. exists l, []. repeat split; [assumption|constructor].
      * intros (pre & post & Hl & Hm & Hpost).
        destruct post as [|y post _] using rev_ind.
        -- apply app_inj_tail in Hl. destruct Hl as [_ ->]. reflexivity.
        -- rewrite app_comm_cons, app_assoc in Hl. apply app_inj_tail in Hl.
           destruct Hl as [_ ->]. apply Forall_app in Hpost.
           destruct Hpost as [_ Hy]. inversion Hy; contradiction.
    + rewrite IH. split.
      * intros (pre & post & -> & Hm & Hpost). exists pre, (post ++ [x]).
        rewrite <- app_assoc. repeat split; [assumption|].
        apply Forall_app. split; [assumption|]. now repeat constructor.
      * intros (pre & post & Hl & Hm & Hpost).
        destruct post as [|y post _] using rev_ind.
        -- apply app_inj_tail in Hl. destruct Hl as [_ ->]. contradiction.
        -- rewrite app_comm_cons, app_assoc in Hl. apply app_inj_tail in Hl.
           destruct Hl as [-> ->]. apply Forall_app in Hpost.
           destruct Hpost as [Hpost _]. now exists pre, post.
Qed.

Lemma find_rev_None (l : list ChatMessage) :
  find is_user (rev l) = None <-> Forall (fun m => role m <> user) l.
Proof.
  induction l as [|x l IH] using rev_ind.
  - simpl. split; [constructor|reflexivity].
  - rewrite rev_app_distr. cbn [rev app find]. unfold is_user at 1.
    rewrite Forall_app.
    destruct (bool_decide_reflect (role x = user)) as [Hx|Hx].
    + split; [discriminate|]. intros [_ H]. inversion H; contradiction.
    + rewrite IH. split; [intros H; split; [assumption|now repeat constructor]|tauto].
Qed.

(** The text the endpoint examines. *)
Definition last_user_msg (l : list ChatMessage) : str :=
  match find is_user (rev l) with
  | Some msg => content msg
  | None => []
  end.

Lemma last_user_msg_app (pre post : list ChatMessage) (m : ChatMessage) :
  role m = user -> Forall (fun m' => role m' <> user) post ->
  last_user_msg (pre ++ m :: post) = content m.
Proof.
  intros Hm Hpost. unfold last_user_msg.
  assert (H : find is_user (rev (pre ++ m :: post)) = Some m).
  { apply find_rev_Some. now exists pre, post. }
  now rewrite H.
Qed.

Section Patterns.
Variable patterns : list (str -> option str).
Context {Ctx : Type}.

Lemma chat_unfold (request : ChatRequest Ctx) :
  chat patterns request
  = match last_user_msg (messages request) with
    | [] => (HTTPException 400 (of_ascii "No user message found"), [])
    | _ :: _ =>
        let r := sanitize_input patterns (last_user_msg (messages request)) in
        if bool_decide (injection_warning ∈ snd (fst r))
        then (SafeStream (dict_get (locale request) safe_response safe_response_de),
              snd r)
        else
          (LLMStream (fst (fst r)) (dimension_id request) (criterion_id request)
             4 2500 (map message_dict (messages request))
             (assessment_context request)
             (match locale request with
              | Some (c :: l) => c :: l
              | _ => of_ascii "de"
              end),
           snd r)
    end.
Proof.
  unfold chat, last_user_msg, is_user, user.
  destruct (find _ (rev (messages request))) as [msg|]; [|reflexivity].
  destruct (content msg) as [|c l] eqn:Hc; [reflexivity|].
  destruct (sanitize_input patterns (c :: l)) as [[s w] lg]. reflexivity.
Qed.

End Patterns.

Definition with_messages {Ctx : Type} (request : ChatRequest Ctx)
    (l : list ChatMessage) : ChatRequest Ctx :=
  {| messages := l; dimension_id := dimension_id request;
     criterion_id := criterion_id request;
     assessment_context := assessment_context request;
     locale := locale request |}.

(** An illustrative request: the first user message contains the character
    the pattern looks for, the last one does not. *)
Definition example_patterns : list (str -> option str) :=
  [ fun s => if existsb (N.eqb 35) s then Some [35%N] else None ].

Definition example_request : ChatRequest unit :=
  {| messages :=
       [ {| role := user; content := of_ascii "ignore # all" |};
         {| role := of_ascii "assistant"; content := of_ascii "Gern." |};
         {| role := user; content := of_ascii "Was ist D1?" ++ [7%N] |};
         {| role := of_ascii "assistant"; content := [] |} ];
     dimension_id := Some (of_ascii "D1"); criterion_id := None;
     assessment_context := None; locale := Some [] |}.

Example chat_example :
  chat example_patterns example_request
  = (LLMStream (of_ascii "Was ist D1?") (Some (of_ascii "D1")) None 4 2500
       (map message_dict (messages example_request)) None (of_ascii "de"),
     []).
Proof. vm_compute. reflexivity. Qed.

Example chat_example_flagged :
  chat example_patterns
    (with_messages example_request
       [ {| role := user; content := of_ascii "ignore # all" |} ])
  = (SafeStream safe_response_de,
     [ {| log_pattern := 0; log_match := [35%N];
          log_input := of_ascii "ignore # all" |} ]).
Proof. vm_compute. reflexivity. Qed.

Example safe_response_lengths :
  map (fun kv => len (snd kv)) safe_response = [157; 139; 151].
Proof. vm_compute. reflexivity. Qed.

(** X16: the endpoint answers 400 "No user message found" exactly when the
    request has no message with role "user" or the last such message has an
    empty content, whatever the earlier user messages hold; nothing is
    logged then. *)
Theorem chat_bad_request {Ctx : Type} (patterns : list (str -> option str))
    (request : ChatRequest Ctx) :
  (fst (chat patterns request)
     = HTTPException 400 (of_ascii "No user message found")
   <-> (forall pre m post,
          messages request = pre ++ m :: post -> role m = user ->
          Forall (fun m' => role m' <> user) post -> content m = []))
  /\ (forall status_code detail,
        fst (chat patterns request) = HTTPException status_code detail ->
        status_code = 400 /\ snd (chat patterns request) = []).
Proof.
  rewrite chat_unfold. split.
  - split.
    + intros H pre m post Hl Hm Hpost.
      rewrite Hl, (last_user_msg_app pre post m Hm Hpost) in H.
      destruct (content m); [reflexivity|].
      cbv zeta in H. destruct (bool_decide _); discriminate.
    + intros H. unfold last_user_msg.
      destruct (find is_user (rev (messages request))) as [m|] eqn:Hf; [|reflexivity].
      apply find_rev_Some in Hf. destruct Hf as (pre & post & Hl & Hm & Hpost).
      now rewrite (H pre m post Hl Hm Hpost).
  - intros sc d. destruct (last_user_msg (messages request)).
    + intros [= <- _]. split; reflexivity.
    + cbv zeta. destruct (bool_decide _); discriminate.
Qed.

(** X17: when the endpoint goes on to the language model, the retrieval
    query is the sanitised text of the last user message (its first 3000
    code points without control characters) and no pattern matches it, but
    the messages handed to [stream_chat] are all the messages of the
    request with their original contents, neither truncated nor cleaned. *)
Theorem chat_forwards_history {Ctx : Type} (patterns : list (str -> option str))
    (request : ChatRequest Ctx) (query : str) (d c : option str) (mc mt : Z)
    (messages_dicts : list message) (ctx : option Ctx) (loc : str) :
  fst (chat patterns request) = LLMStream query d c mc mt messages_dicts ctx loc ->
  messages_dicts = map message_dict (messages request)
  /\ (exists pre m post,
        messages request = pre ++ m :: post /\ role m = user
        /\ Forall (fun m' => role m' <> user) post
        /\ content m <> []
        /\ query = List.filter (fun ch => negb (is_control ch)) (take 3000 (content m)))
  /\ Forall (fun p => p query = None) patterns
  /\ d = dimension_id request /\ c = criterion_id request
  /\ mc = 4 /\ mt = 2500 /\ ctx = assessment_context request
  /\ loc <> [].
Proof.
  rewrite chat_unfold. unfold last_user_msg.
  destruct (find is_user (rev (messages request))) as [m|] eqn:Hf; [|discriminate].
  destruct (content m) as [|ch rest] eqn:Hc; [discriminate|]. cbv zeta.
  destruct (bool_decide_reflect
              (injection_warning ∈ snd (fst (sanitize_input patterns (ch :: rest)))))
    as [Hin|Hnot]; [discriminate|].
  intros [= <- <- <- <- <- <- <- <-].
  apply find_rev_Some in Hf. destruct Hf as (pre & post & Hl & Hm & Hpost).
  split; [reflexivity|]. split; [|split; [|repeat split]].
  - exists pre, m, post. rewrite Hc. repeat split; try assumption; [discriminate|].
    apply sanitize_input_cleaned.
  - revert Hnot. rewrite sanitize_input_unfold. cbv zeta.
    destruct (first_match 0 patterns _) as [[i mm]|] eqn:Hfm; cbn [fst snd].
    + intros Hnot. exfalso. apply Hnot. apply elem_of_app. right. now left.
    + intros _. apply (proj1 (first_match_None _ _ _) Hfm).
  - destruct (locale request) as [[|? ?]|]; discriminate.
Qed.

Lemma chat_forwards_history_witness :
  map message_dict (messages example_request)
    = map message_dict (messages example_request)
  /\ (exists pre m post,
        messages example_request = pre ++ m :: post /\ role m = user
        /\ Forall (fun m' => role m' <> user) post
        /\ content m <> []
        /\ of_ascii "Was ist D1?"
           = List.filter (fun ch => negb (is_control ch)) (take 3000 (content m)))
  /\ Forall (fun p => p (of_ascii "Was ist D1?") = None) example_patterns
  /\ Some (of_ascii "D1") = dimension_id example_request
  /\ None = criterion_id example_request
  /\ 4 = 4 /\ 2500 = 2500 /\ None = assessment_context example_request
  /\ of_ascii "de" <> [].
Proof.
  apply (chat_forwards_history example_patterns example_request).
  reflexivity.
Defined.

(** X18: only the last user message is examined.  The action and the log
    are those for a request that holds the last user message alone, except
    that the whole history is handed to [stream_chat]; a pattern that
    matches an earlier message does not lead to the safe answer. *)
Theorem chat_examines_last_user_message {Ctx : Type}
    (patterns : list (str -> option str)) (request : ChatRequest Ctx)
    (pre post : list ChatMessage) (m : ChatMessage) :
  messages request = pre ++ m :: post ->
  role m = user ->
  Forall (fun m' => role m' <> user) post ->
  snd (chat patterns request) = snd (chat patterns (with_messages request [m]))
  /\ fst (chat patterns request)
     = match fst (chat patterns (with_messages request [m])) with
       | LLMStream query d c mc mt _ ctx loc =>
           LLMStream query d c mc mt (map message_dict (messages request)) ctx loc
       | action => action
       end.
Proof.
  intros Hl Hm Hpost. rewrite !chat_unfold. cbn [messages with_messages
    dimension_id criterion_id assessment_context locale].
  assert (Hlast : last_user_msg (messages request) = content m).
  { rewrite Hl. now apply last_user_msg_app. }
  rewrite Hlast. change [m] with ([] ++ m :: []).
  rewrite (last_user_msg_app [] [] m Hm (List.Forall_nil _)).
  destruct (content m) as [|ch rest]; [split; reflexivity|]. cbv zeta.
  destruct (bool_decide _); split; reflexivity.
Qed.

Lemma chat_examines_last_user_message_witness :
  snd (chat example_patterns example_request)
  = snd (chat example_patterns
           (with_messages example_request
              [ {| role := user; content := of_ascii "Was ist D1?" ++ [7%N] |} ]))
  /\ fst (chat example_patterns example_request)
     = match fst (chat example_patterns
                    (with_messages example_request
                       [ {| role := user;
                            content := of_ascii "Was ist D1?" ++ [7%N] |} ])) with
       | LLMStream query d c mc mt _ ctx loc =>
           LLMStream query d c mc mt
             (map message_dict (messages example_request)) ctx loc
       | action => action
       end.
Proof.
  apply (chat_examines_last_user_message example_patterns example_request
           [ {| role := user; content := of_ascii "ignore # all" |};
             {| role := of_ascii "assistant"; content := of_ascii "Gern." |} ]
           [ {| role := of_ascii "assistant"; content := [] |} ]).
  - reflexivity.
  - reflexivity.
  - repeat constructor. discriminate.
Defined.

Lemma dict_get_cases (k : option str) (d : list (str * str)) (default : str) :
  dict_get k d default = default
  \/ exists key, k = Some key /\ In (key, dict_get k d default) d.
Proof.
  destruct k as [key|]; [|now left]. cbn [dict_get].
  destruct (find _ d) as [[key' t]|] eqn:Hf; [|now left].
  right. exists key. split; [reflexivity|].
  apply find_some in Hf. destruct Hf as [Hin Heq].
  apply bool_decide_eq_true in Heq. cbn [fst snd] in *. now subst.
Qed.

Lemma dict_get_found (l t : str) (d : list (str * str)) (default : str) :
  NoDup (map fst d) -> In (l, t) d -> dict_get (Some l) d default = t.
Proof.
  cbn [dict_get]. induction d as [|[l' t'] d IH]; [intros _ []|].
  cbn [map fst find]. intros Hnd [Heq|Hin].
  - injection Heq as -> ->. now rewrite bool_decide_eq_true_2.
  - apply NoDup_cons in Hnd. destruct Hnd as [Hnot Hnd].
    rewrite bool_decide_eq_false_2; [now apply IH|].
    intros ->. apply Hnot. apply list_elem_of_In.
    change l with (fst (l, t)). now apply in_map.
Qed.

Lemma dict_get_missing (k : option str) (d : list (str * str)) (default : str) :
  (forall l, k = Some l -> ~ In l (map fst d)) -> dict_get k d default = default.
Proof.
  intros H. destruct (dict_get_cases k d default) as [Hd|(key & -> & Hin)]; [exact Hd|].
  exfalso. apply (H key eq_refl). change key with (fst (key, dict_get (Some key) d default)).
  now apply in_map.
Qed.

Lemma safe_response_keys : NoDup (map fst safe_response).
Proof.
  repeat (apply NoDup_cons_2;
          [rewrite list_elem_of_In; cbn; intuition discriminate|]).
  apply NoDup_nil_2.
Qed.

Lemma safe_text (loc : option str) :
  In (dict_get loc safe_response safe_response_de) (map snd safe_response)
  /\ (forall l t, In (l, t) safe_response -> loc = Some l ->
      dict_get loc safe_response safe_response_de = t)
  /\ ((forall l, loc = Some l -> ~ In l (map fst safe_response)) ->
      dict_get loc safe_response safe_response_de = safe_response_de).
Proof.
  split; [|split].
  - destruct (dict_get_cases loc safe_response safe_response_de)
      as [->|(key & _ & Hin)]; [now left|].
    change (dict_get loc safe_response safe_response_de)
      with (snd (key, dict_get loc safe_response safe_response_de)).
    now apply in_map.
  - intros l t Hin ->. apply dict_get_found; [apply safe_response_keys|exact Hin].
  - apply dict_get_missing.
Qed.

(** X19: the safe answer never echoes the request.  When the endpoint
    answers with the safe stream, some pattern matches the sanitised last
    user message, exactly one log record is written, and the text is one of
    the three fixed texts: the one of the request's locale when that is
    "de", "en" or "fr", the German one for any other or a missing locale. *)
Theorem chat_safe_answer {Ctx : Type} (patterns : list (str -> option str))
    (request : ChatRequest Ctx) (text : str) :
  fst (chat patterns request) = SafeStream text ->
  (exists pre m post,
     messages request = pre ++ m :: post /\ role m = user
     /\ Forall (fun m' => role m' <> user) post
     /\ Exists (fun p =>
                  p (List.filter (fun ch => negb (is_control ch))
                       (take 3000 (content m))) <> None)
               patterns)
  /\ length (snd (chat patterns request)) = 1%nat
  /\ In text (map snd safe_response)
  /\ (forall l t, In (l, t) safe_response -> locale request = Some l -> text = t)
  /\ ((forall l, locale request = Some l -> ~ In l (map fst safe_response)) ->
      text = safe_response_de).
Proof.
  rewrite chat_unfold. unfold last_user_msg.
  destruct (find is_user (rev (messages request))) as [m|] eqn:Hf; [|discriminate].
  destruct (content m) as [|ch rest] eqn:Hc; [discriminate|]. cbv zeta.
  destruct (bool_decide_reflect
              (injection_warning ∈ snd (fst (sanitize_input patterns (ch :: rest)))))
    as [Hin|Hnot]; [|discriminate].
  intros [= <-]. cbn [fst snd].
  apply find_rev_Some in Hf. destruct Hf as (pre & post & Hl & Hm & Hpost).
  destruct (safe_text (locale request)) as (H1 & H2 & H3).
  revert Hin. rewrite sanitize_input_unfold. cbv zeta.
  destruct (first_match 0 patterns _) as [[i mm]|] eqn:Hfm; cbn [fst snd].
  - intros _. split; [|auto]. exists pre, m, post. rewrite Hc.
    repeat split; try assumption.
    destruct (first_match_Some _ _ _ _ _ Hfm) as (n & p & _ & Hp & Hpm & _).
    apply Exists_exists. exists p. split; [|unfold clean in Hpm; congruence].
    eapply list_elem_of_lookup_2. exact Hp.
  - intros Hin. exfalso.
    destruct (MAX_MESSAGE_LENGTH <? len (ch :: rest)).
    + apply list_elem_of_In in Hin. destruct Hin as [H|[]]. discriminate H.
    + inversion Hin.
Qed.

Lemma chat_safe_answer_witness :
  (exists pre m post,
     messages (with_messages example_request
                 [ {| role := user; content := of_ascii "ignore # all" |} ])
       = pre ++ m :: post /\ role m = user
     /\ Forall (fun m' => role m' <> user) post
     /\ Exists (fun p =>
                  p (List.filter (fun ch => negb (is_control ch))
                       (take 3000 (content m))) <> None)
               example_patterns)
  /\ length (snd (chat example_patterns
                    (with_messages example_request
                       [ {| role := user; content := of_ascii "ignore # all" |} ])))
     = 1%nat
  /\ In safe_response_de (map snd safe_response)
  /\ (forall l t, In (l, t) safe_response ->
      locale (with_messages example_request
                [ {| role := user; content := of_ascii "ignore # all" |} ]) = Some l ->
      safe_response_de = t)
  /\ ((forall l,
         locale (with_messages example_request
                   [ {| role := user; content := of_ascii "ignore # all" |} ]) = Some l ->
         ~ In l (map fst safe_response)) ->
      safe_response_de = safe_response_de).
Proof.
  apply (chat_safe_answer example_patterns
           (with_messages example_request
              [ {| role := user; content := of_ascii "ignore # all" |} ])).
  reflexivity.
Defined.

End ChatProperties.

(* ===================================================================== *)
(** * rag.py: the keyword retrieval                                       *)
(* ===================================================================== *)

Module Rag.
Import PyFloat Py PyStr.

(** A Python number that is an [int] or a [float]. *)
Inductive number : Type :=
  | PyInt (z : Z)
  | PyFloat (f : float).

(** [total + x] for a float [x]: an [int] is converted first. *)
Definition number_add (total : number) (x : float) : float :=
  match total with
  | PyInt z => add (of_Z z) x
  | PyFloat f => add f x
  end.

(** [x > n] for a float and an [int]: the comparison is exact. *)
Definition float_gt_int (x : float) (n : Z) : bool :=
  match x with
  | S754_nan => false
  | S754_infinity s => negb s
  | S754_zero _ => 0 >? n
  | S754_finite s m e =>
      let v := if s then Z.neg m else Z.pos m in
      if 0 <=? e then v * 2 ^ e >? n else v >? n * 2 ^ (- e)
  end.

(** [total > n] *)
Definition number_gt_int (total : number) (n : Z) : bool :=
  match total with
  | PyInt z => z >? n
  | PyFloat f => float_gt_int f n
  end.

Definition str_eqb (a b : str) : bool := bool_decide (a = b).

(** [p] is a prefix of [s]. *)
Fixpoint startswith (s p : str) : bool :=
  match p, s with
  | [], _ => true
  | a :: p', b :: s' => (a =? b)%N && startswith s' p'
  | _ :: _, [] => false
  end.

(** [kw in text] on strings. *)
Fixpoint contains (text kw : str) : bool :=
  startswith text kw
  || match text with
     | [] => false
     | _ :: rest => contains rest kw
     end.

(** [CHAPTER_MAP], in insertion order. *)
Definition CHAPTER_MAP : list (str * str) :=
  [ (of_ascii "01_Einleitung.tex", of_ascii "Einleitung");
    (of_ascii "02_Stand.tex", of_ascii "Stand der Forschung");
    (of_ascii "03_Methodik.tex", of_ascii "Methodik");
    (of_ascii "04_Untersuchung.tex", of_ascii "Untersuchung und Entwicklung");
    (of_ascii "05_Ergebnisse.tex", of_ascii "Ergebnisse");
    (of_ascii "06_Fazit.tex", of_ascii "Fazit und Ausblick");
    (of_ascii "A3_Kodierleitfaden.tex", of_ascii "Anhang: Kodierleitfaden");
    (of_ascii "A5_Bewertungsdimensionen.tex", of_ascii "Anhang: Bewertungsdimensionen");
    (of_ascii "A6_Prototyp.tex", of_ascii "Anhang: Prototyp");
    (of_ascii "A8_Mapping.tex", of_utf8 "Anhang: Mapping AI Act → Framework") ].

Definition DIMENSION_KEYWORDS : list (str * list str) :=
  [ (of_ascii "D1",
     [ of_ascii "risikomanagement"; of_ascii "risk management"; of_ascii "art. 9";
       of_ascii "artikel 9"; of_ascii "risikoanalyse"; of_ascii "risikobewertung";
       of_ascii "risikoidentifikation"; of_ascii "D1" ]);
    (of_ascii "D2",
     [ of_ascii "data governance"; of_utf8 "datenqualität"; of_ascii "art. 10";
       of_ascii "artikel 10"; of_ascii "trainingsdaten"; of_ascii "bias";
       of_ascii "datenannotation"; of_ascii "D2" ]);
    (of_ascii "D3",
     [ of_ascii "dokumentation"; of_ascii "technische dokumentation";
       of_ascii "art. 11"; of_ascii "artikel 11"; of_ascii "art. 12";
       of_ascii "artikel 12"; of_ascii "logging"; of_ascii "protokollierung";
       of_ascii "D3" ]);
    (of_ascii "D4",
     [ of_ascii "transparenz"; of_ascii "art. 13"; of_ascii "artikel 13";
       of_utf8 "erklärbarkeit"; of_ascii "nachvollziehbarkeit";
       of_ascii "informationspflicht"; of_ascii "D4" ]);
    (of_ascii "D5",
     [ of_ascii "menschliche aufsicht"; of_ascii "human oversight";
       of_ascii "art. 14"; of_ascii "artikel 14"; of_ascii "mensch-maschine";
       of_ascii "override"; of_ascii "eingriff"; of_ascii "D5" ]);
    (of_ascii "D6",
     [ of_ascii "robustheit"; of_ascii "genauigkeit"; of_ascii "cybersicherheit";
       of_ascii "art. 15"; of_ascii "artikel 15"; of_ascii "resilienz";
       of_ascii "accuracy"; of_ascii "D6" ]) ].

Definition dimension_chapters : list str :=
  [ of_ascii "04_Untersuchung.tex"; of_ascii "A5_Bewertungsdimensionen.tex";
    of_ascii "A8_Mapping.tex" ].

Definition DIMENSION_CHAPTERS : list (str * list str) :=
  [ (of_ascii "D1", dimension_chapters); (of_ascii "D2", dimension_chapters);
    (of_ascii "D3", dimension_chapters); (of_ascii "D4", dimension_chapters);
    (of_ascii "D5", dimension_chapters); (of_ascii "D6", dimension_chapters) ].

(** [d.get(k)] on a [dict] literal with string keys. *)
Definition table_get {V : Type} (k : str) (d : list (str * V)) : option V :=
  match find (fun kv => str_eqb (fst kv) k) d with
  | Some kv => Some (snd kv)
  | None => None
  end.

(** A chunk of [self.chunks], as [chunk_by_section] builds it. *)
Record Chunk : Type := {
  chapter : str;
  section : str;
  content : str
}.

(** An entry of [result['thesis_chunks']]. *)
Record ThesisChunk : Type := {
  tc_chapter : str;
  tc_section : str;
  tc_content : str;
  relevance_score : number
}.

(** The [result] dict; its [knowledge] entry is not read here. *)
Record RetrieveResult (K : Type) : Type := {
  knowledge : option K;
  thesis_chunks : list ThesisChunk;
  total_tokens_est : number;
  embeddings_used : bool
}.
Arguments knowledge {K} _.
Arguments thesis_chunks {K} _.
Arguments total_tokens_est {K} _.
Arguments embeddings_used {K} _.

(** [l.sort(key=lambda x: x[0], reverse=True)]: descending and stable. *)
Fixpoint insert_desc {A : Type} (x : Z * A) (l : list (Z * A)) : list (Z * A) :=
  match l with
  | [] => [x]
  | y :: rest =>
      if fst y <? fst x then x :: y :: rest else y :: insert_desc x rest
  end.

Definition sort_desc {A : Type} (l : list (Z * A)) : list (Z * A) :=
  fold_left (fun acc x => insert_desc x acc) l [].

Section Text.
(** [str.isspace] on a character and [str.lower]. *)
Variable is_space : N -> bool.
Variable lower : str -> str.

(** [s.split()]: the maximal runs without whitespace. *)
Fixpoint split_from (s : str) (word : str) : list str :=
  match s with
  | [] => match word with [] => [] | _ :: _ => [word] end
  | c :: rest =>
      if is_space c
      then match word with
           | [] => split_from rest []
           | _ :: _ => word :: split_from rest []
           end
      else split_from rest (word ++ [c])
  end.

Definition split (s : str) : list str := split_from s [].

(** The score of one chunk. *)
Definition chunk_score (all_keywords : list str) (dimension_id : option str)
    (chunk : Chunk) : Z :=
  let text_lower := lower (content chunk) in
  let score :=
    len (List.filter (fun kw => contains text_lower (lower kw)) all_keywords) in
  match dimension_id with
  | Some (c :: d) =>
      match table_get (c :: d) DIMENSION_CHAPTERS with
      | Some files =>
          if existsb
               (fun fn => str_eqb (snd fn) (chapter chunk)
                          && existsb (str_eqb (fst fn)) files)
               CHAPTER_MAP
          then score + 2 else score
      | None => score
      end
  | _ => score
  end.

Section Budget.
Variable max_chunks max_tokens : Z.

(** The loop over [scored_chunks[:max_chunks * 2]]. *)
Fixpoint select (scored_chunks : list (Z * Chunk))
    (thesis_chunks : list ThesisChunk) (total_tokens : number)
    : list ThesisChunk * number :=
  match scored_chunks with
  | [] => (thesis_chunks, total_tokens)
  | (score, chunk) :: rest =>
      let chunk_tokens := mul (of_Z (len (split (content chunk)))) f1_5 in
      if float_gt_int (number_add total_tokens chunk_tokens) max_tokens
      then select rest thesis_chunks total_tokens
      else
        let thesis_chunks' :=
          thesis_chunks
            ++ [ {| tc_chapter := chapter chunk; tc_section := section chunk;
                    tc_content := slice None (Some 1500) (content chunk);
                    relevance_score := PyInt score |} ] in
        let total_tokens' := PyFloat (number_add total_tokens chunk_tokens) in
        if max_chunks <=? len thesis_chunks'
        then (thesis_chunks', total_tokens')
        else select rest thesis_chunks' total_tokens'
  end.
End Budget.

(** [RAGEngine._keyword_retrieve]; [chunks] is [self.chunks]. *)
Definition _keyword_retrieve {K : Type} (chunks : list Chunk) (query : str)
    (dimension_id criterion_id : option str) (max_chunks max_tokens : Z)
    (result : RetrieveResult K) : RetrieveResult K :=
  let query_lower := lower query in
  let query_words := List.filter (fun w => 3 <? len w) (split query_lower) in
  let dim_keywords :=
    match dimension_id with
    | Some (c :: d) => default [] (table_get (c :: d) DIMENSION_KEYWORDS)
    | _ => []
    end in
  let all_keywords := query_words ++ dim_keywords in
  let scored_chunks :=
    omap (fun chunk =>
            let score := chunk_score all_keywords dimension_id chunk in
            if 0 <? score then Some (score, chunk) else None)
         chunks in
  let scored_chunks := sort_desc scored_chunks in
  let '(thesis_chunks, total_tokens) :=
    select max_chunks max_tokens
      (slice None (Some (max_chunks * 2)) scored_chunks)
      (thesis_chunks result) (PyInt 0) in
  {| knowledge := knowledge result;
     thesis_chunks := thesis_chunks;
     total_tokens_est := total_tokens;
     embeddings_used := embeddings_used result |}.
End Text.

End Rag.

Module RagFacts.
Import PyFloat Py PyStr ConversationFacts Rag.

(** ** The stable descending sort *)

Definition descending {A : Type} (l : list (Z * A)) : Prop :=
  StronglySorted (fun a b => fst b <= fst a) l.

Lemma insert_desc_In {A : Type} (x y : Z * A) (l : list (Z * A)) :
  In y (insert_desc x l) <-> y = x \/ In y l.
Proof.
  induction l as [|z l IH]; simpl.
  - intuition.
  - destruct (fst z <? fst x); simpl; [intuition|]. rewrite IH. intuition.
Qed.

Lemma insert_desc_descending {A : Type} (x : Z * A) (l : list (Z * A)) :
  descending l -> descending (insert_desc x l).
Proof.
  induction 1 as [|z l Hl IH Hz]; simpl.
  - repeat constructor.
  - destruct (Z.ltb_spec (fst z) (fst x)) as [Hlt|Hge].
    + constructor; [now constructor|]. constructor; [lia|].
      eapply List.Forall_impl; [|exact Hz]. simpl. intros. lia.
    + constructor; [exact IH|]. apply List.Forall_forall. intros y Hy.
      apply insert_desc_In in Hy. destruct Hy as [->|Hy]; [exact Hge|].
      rewrite List.Forall_forall in Hz. now apply Hz.
Qed.

Lemma sort_desc_from {A : Type} (l acc : list (Z * A)) :
  descending acc ->
  descending (fold_left (fun acc x => insert_desc x acc) l acc)
  /\ (forall y, In y (fold_left (fun acc x => insert_desc x acc) l acc)
                <-> In y l \/ In y acc).
Proof.
  revert acc. induction l as [|x l IH]; intros acc Hacc; simpl.
  - split; [assumption|]. intuition.
  - destruct (IH (insert_desc x acc) (insert_desc_descending x acc Hacc)) as [Hs Hin].
    split; [assumption|]. intros y. rewrite Hin, insert_desc_In. intuition.
Qed.

Lemma sort_desc_descending {A : Type} (l : list (Z * A)) : descending (sort_desc l).
Proof. apply sort_desc_from. constructor. Qed.

Lemma sort_desc_In {A : Type} (l : list (Z * A)) (y : Z * A) :
  In y (sort_desc l) <-> In y l.
Proof.
  unfold sort_desc. destruct (sort_desc_from l [] (SSorted_nil _)) as [_ H].
  rewrite H. simpl. intuition.
Qed.

Lemma descending_sublist {A : Type} (l k : list (Z * A)) :
  k `sublist_of` l -> descending l -> descending k.
Proof.
  induction 1 as [|x k l Hkl IH|x k l Hkl IH]; intros Hl.
  - constructor.
  - inversion Hl as [|? ? Hs Hx]; subst. constructor; [now apply IH|].
    rewrite List.Forall_forall in *. intros y Hy. apply Hx.
    apply list_elem_of_In. eapply elem_of_sublist; [|eassumption].
    now apply list_elem_of_In.
  - inversion Hl; subst. now apply IH.
Qed.

(** ** The selection loop *)

Definition as_thesis_chunk (sc : Z * Chunk) : ThesisChunk :=
  {| tc_chapter := chapter (snd sc); tc_section := section (snd sc);
     tc_content := slice None (Some 1500) (content (snd sc));
     relevance_score := PyInt (fst sc) |}.

Section Text.
Variable is_space : N -> bool.
Variable lower : str -> str.
Variable max_chunks max_tokens : Z.

Lemma select_spec (scored_chunks : list (Z * Chunk))
    (thesis_chunks : list ThesisChunk) (total_tokens : number) :
  exists picked : list (Z * Chunk),
    picked `sublist_of` scored_chunks
    /\ fst (select is_space max_chunks max_tokens scored_chunks thesis_chunks total_tokens)
       = thesis_chunks ++ map as_thesis_chunk picked
    /\ len (thesis_chunks ++ map as_thesis_chunk picked)
       <= Z.max max_chunks (len thesis_chunks + 1)
    /\ (picked = [] ->
        snd (select is_space max_chunks max_tokens scored_chunks thesis_chunks total_tokens)
        = total_tokens)
    /\ (picked <> [] ->
        exists f,
          snd (select is_space max_chunks max_tokens scored_chunks thesis_chunks
                 total_tokens) = PyFloat f
          /\ float_gt_int f max_tokens = false).
Proof.
  revert thesis_chunks total_tokens.
  induction scored_chunks as [|[score chunk] rest IH]; intros L t.
  - exists []. simpl. rewrite app_nil_r.
    split; [apply sublist_nil_l|]. split; [reflexivity|]. split; [lia|].
    split; [reflexivity|]. intros H. now contradiction H.
  - cbn [select].
    set (sum := number_add t (mul (of_Z (len (split is_space (content chunk)))) f1_5)).
    destruct (float_gt_int sum max_tokens) eqn:Hgt.
    + destruct (IH L t) as (picked & Hsub & Hfst & Hlen & Hnil & Hcons).
      exists picked. split; [now constructor|]. auto.
    + change {| tc_chapter := chapter chunk; tc_section := section chunk;
                tc_content := slice None (Some 1500) (content chunk);
                relevance_score := PyInt score |}
        with (as_thesis_chunk (score, chunk)).
      set (x := as_thesis_chunk (score, chunk)).
      assert (Hlen1 : len (L ++ [x]) = len L + 1).
      { unfold len. rewrite length_app. simpl. lia. }
      destruct (Z.leb_spec max_chunks (len (L ++ [x]))) as [Hfull|Hmore].
      * exists [(score, chunk)]. cbn [fst snd map]. fold x.
        split; [constructor; apply sublist_nil_l|].
        split; [reflexivity|]. split; [lia|].
        split; [discriminate|]. intros _. now exists sum.
      * destruct (IH (L ++ [x]) (PyFloat sum))
          as (picked & Hsub & Hfst & Hlen & Hnil & Hcons).
        exists ((score, chunk) :: picked). cbn [map fst snd].
        fold x.
        split; [now constructor|].
        split; [rewrite Hfst; now rewrite <- app_assoc|].
        split; [rewrite <- app_assoc in Hlen; simpl in Hlen; simpl; lia|].
        split; [discriminate|]. intros _. destruct picked as [|p picked].
        -- exists sum. split; [now apply Hnil|assumption].
        -- apply Hcons. discriminate.
Qed.

End Text.

End RagFacts.

Module RagProperties.
Import PyFloat Py PyStr ConversationFacts Rag RagFacts.

Section Text.
Variable is_space : N -> bool.
Variable lower : str -> str.
Context {K : Type}.

(** The keywords the chunks are scored with. *)
Definition all_keywords (query : str) (dimension_id : option str) : list str :=
  List.filter (fun w => 3 <? len w) (split is_space (lower query))
    ++ match dimension_id with
       | Some (c :: d) => default [] (table_get (c :: d) DIMENSION_KEYWORDS)
       | _ => []
       end.

(** The candidates of the selection loop. *)
Definition candidates (chunks : list Chunk) (query : str)
    (dimension_id : option str) (max_chunks : Z) : list (Z * Chunk) :=
  slice None (Some (max_chunks * 2))
    (sort_desc
       (omap (fun chunk =>
                let score :=
                  chunk_score lower (all_keywords query dimension_id)
                    dimension_id chunk in
                if 0 <? score then Some (score, chunk) else None)
             chunks)).

Lemma keyword_retrieve_unfold (chunks : list Chunk) (query : str)
    (dimension_id criterion_id : option str) (max_chunks max_tokens : Z)
    (result : RetrieveResult K) :
  _keyword_retrieve is_space lower chunks query dimension_id criterion_id
    max_chunks max_tokens result
  = let r :=
      select is_space max_chunks max_tokens
        (candidates chunks query dimension_id max_chunks)
        (thesis_chunks result) (PyInt 0) in
    {| knowledge := knowledge result; thesis_chunks := fst r;
       total_tokens_est := snd r; embeddings_used := embeddings_used result |}.
Proof.
  unfold _keyword_retrieve, candidates, all_keywords. cbv zeta.
  destruct (select _ _ _ _ _ _) as [tcs total]. reflexivity.
Qed.

Lemma candidates_spec (chunks : list Chunk) (query : str)
    (dimension_id : option str) (max_chunks : Z) :
  descending (candidates chunks query dimension_id max_chunks)
  /\ Forall (fun sc =>
               In (snd sc) chunks
               /\ fst sc = chunk_score lower (all_keywords query dimension_id)
                             dimension_id (snd sc)
               /\ 1 <= fst sc)
            (candidates chunks query dimension_id max_chunks).
Proof.
  unfold candidates. rewrite slice_unfold.
  set (scored := omap _ chunks).
  assert (Hsub : take (Z.to_nat (slice_stop (Some (max_chunks * 2)) (sort_desc scored)
                                 - slice_start None (sort_desc scored)))
                   (drop (Z.to_nat (slice_start None (sort_desc scored)))
                      (sort_desc scored))
                 `sublist_of` sort_desc scored).
  { etransitivity; [apply sublist_take|apply sublist_drop]. }
  split.
  - eapply descending_sublist; [exact Hsub|apply sort_desc_descending].
  - apply List.Forall_forall. intros sc Hin.
    apply list_elem_of_In in Hin. eapply elem_of_sublist in Hin; [|exact Hsub].
    apply list_elem_of_In in Hin. apply (proj1 (sort_desc_In _ _)) in Hin.
    apply list_elem_of_In in Hin.
    unfold scored in Hin. apply list_elem_of_omap in Hin.
    destruct Hin as (chunk & Hchunk & Hsc). cbv zeta in Hsc.
    destruct (Z.ltb_spec 0 (chunk_score lower (all_keywords query dimension_id)
                              dimension_id chunk)); [|discriminate].
    injection Hsc as <-. cbn [fst snd].
    split; [now apply list_elem_of_In|]. split; [reflexivity|lia].
Qed.

(** X20: the keyword retrieval keeps its budgets.  With a non-negative
    token budget the estimate it reports is not above [max_tokens]; the
    chunks already in [result] stay in front, at most
    [max(max_chunks, 1)] chunks are there when it starts from none, and the
    estimate is the integer 0 when nothing was added.  The other two
    entries of [result] are passed through. *)
Theorem keyword_retrieve_budget (chunks : list Chunk) (query : str)
    (dimension_id criterion_id : option str) (max_chunks max_tokens : Z)
    (result : RetrieveResult K) :
  0 <= max_tokens ->
  let r := _keyword_retrieve is_space lower chunks query dimension_id
             criterion_id max_chunks max_tokens result in
  number_gt_int (total_tokens_est r) max_tokens = false
  /\ thesis_chunks result `prefix_of` thesis_chunks r
  /\ len (thesis_chunks r) <= Z.max max_chunks (len (thesis_chunks result) + 1)
  /\ (thesis_chunks r = thesis_chunks result -> total_tokens_est r = PyInt 0)
  /\ knowledge r = knowledge result
  /\ embeddings_used r = embeddings_used result.
Proof.
  intros Hmax. cbv zeta. rewrite keyword_retrieve_unfold. cbv zeta.
  cbn [knowledge thesis_chunks total_tokens_est embeddings_used].
  destruct (select_spec is_space max_chunks max_tokens
              (candidates chunks query dimension_id max_chunks)
              (thesis_chunks result) (PyInt 0))
    as (picked & _ & Hfst & Hlen & Hnil & Hcons).
  rewrite Hfst.
  assert (Htotal : picked = [] \/ picked <> []).
  { destruct picked; [now left|now right]. }
  split; [|split; [|split; [|split; [|split]]]].
  - destruct Htotal as [He|Hne].
    + rewrite (Hnil He). simpl. rewrite Z.gtb_ltb. apply Z.ltb_ge. exact Hmax.
    + destruct (Hcons Hne) as (f & -> & Hf). exact Hf.
  - now exists (map as_thesis_chunk picked).
  - exact Hlen.
  - intros Heq. apply Hnil.
    rewrite <- (app_nil_r (thesis_chunks result)) in Heq at 2.
    apply app_inv_head in Heq. now destruct picked.
  - reflexivity.
  - reflexivity.
Qed.

(** X21: what the keyword retrieval adds.  Every added entry is made from a
    chunk of the engine with a score of at least 1 (its [relevance_score]),
    carries the chapter and section of that chunk and the first 1500 code
    points of its content, and the added entries come in descending order
    of relevance. *)
Theorem keyword_retrieve_ranked (chunks : list Chunk) (query : str)
    (dimension_id criterion_id : option str) (max_chunks max_tokens : Z)
    (result : RetrieveResult K) :
  exists picked : list (Z * Chunk),
    thesis_chunks
      (_keyword_retrieve is_space lower chunks query dimension_id criterion_id
         max_chunks max_tokens result)
    = thesis_chunks result
        ++ map (fun sc =>
                  {| tc_chapter := chapter (snd sc);
                     tc_section := section (snd sc);
                     tc_content := take 1500 (content (snd sc));
                     relevance_score := PyInt (fst sc) |})
               picked
    /\ Forall (fun sc =>
                 In (snd sc) chunks
                 /\ fst sc = chunk_score lower (all_keywords query dimension_id)
                               dimension_id (snd sc)
                 /\ 1 <= fst sc)
              picked
    /\ StronglySorted (fun a b => fst b <= fst a) picked.
Proof.
  rewrite keyword_retrieve_unfold. cbv zeta. cbn [thesis_chunks].
  destruct (select_spec is_space max_chunks max_tokens
              (candidates chunks query dimension_id max_chunks)
              (thesis_chunks result) (PyInt 0))
    as (picked & Hsub & Hfst & _).
  destruct (candidates_spec chunks query dimension_id max_chunks) as [Hdesc Hall].
  exists picked. split; [|split].
  - rewrite Hfst. f_equal. apply map_ext. intros sc. unfold as_thesis_chunk.
    now rewrite slice_prefix by lia.
  - apply List.Forall_forall. intros sc Hin. rewrite List.Forall_forall in Hall.
    apply Hall. apply list_elem_of_In. eapply elem_of_sublist; [|exact Hsub].
    now apply list_elem_of_In.
  - eapply descending_sublist; [exact Hsub|exact Hdesc].
Qed.

Lemma chunk_score_nothing (dimension_id : option str) (chunk : Chunk) :
  match dimension_id with
  | Some d => table_get d DIMENSION_CHAPTERS = None
  | None => True
  end ->
  chunk_score lower [] dimension_id chunk = 0.
Proof.
  unfold chunk_score. cbn [List.filter]. destruct dimension_id as [[|c d]|]; try reflexivity.
  intros ->. reflexivity.
Qed.

(** X22: nothing is retrieved when there is nothing to match: when
    [max_chunks] is 0, and when the query has no word of more than three
    characters and the dimension is missing, empty or not one of the six
    known to the tables.  The result then keeps its chunks and reports the
    integer 0. *)
Theorem keyword_retrieve_nothing (chunks : list Chunk) (query : str)
    (dimension_id criterion_id : option str) (max_chunks max_tokens : Z)
    (result : RetrieveResult K) :
  max_chunks = 0
  \/ (Forall (fun w => len w <= 3) (split is_space (lower query))
      /\ match dimension_id with
         | Some d =>
             table_get d DIMENSION_KEYWORDS = None
             /\ table_get d DIMENSION_CHAPTERS = None
         | None => True
         end) ->
  _keyword_retrieve is_space lower chunks query dimension_id criterion_id
    max_chunks max_tokens result
  = {| knowledge := knowledge result; thesis_chunks := thesis_chunks result;
       total_tokens_est := PyInt 0; embeddings_used := embeddings_used result |}.
Proof.
  intros H. rewrite keyword_retrieve_unfold. cbv zeta.
  assert (Hc : candidates chunks query dimension_id max_chunks = []).
  { destruct H as [->|[Hwords Hdim]].
    - unfold candidates. rewrite slice_prefix by lia. reflexivity.
    - assert (Hkw : all_keywords query dimension_id = []).
      { unfold all_keywords.
        assert (Hq : List.filter (fun w => 3 <? len w) (split is_space (lower query)) = []).
        { induction Hwords as [|w ws Hw _ IH]; [reflexivity|]. simpl.
          destruct (Z.ltb_spec 3 (len w)); [lia|exact IH]. }
        rewrite Hq. destruct dimension_id as [[|c d]|]; try reflexivity.
        destruct Hdim as [-> _]. reflexivity. }
      unfold candidates. rewrite Hkw.
      match goal with
      | |- context [omap ?f chunks] => assert (Ho : omap f chunks = [])
      end.
      { induction chunks as [|ch chs IH]; [reflexivity|].
        cbn [omap list_omap]. cbv zeta.
        rewrite chunk_score_nothing; [exact IH|].
        destruct dimension_id; [tauto|exact I]. }
      rewrite Ho. unfold sort_desc. simpl. rewrite slice_unfold. simpl.
      now rewrite take_nil. }
  rewrite Hc. reflexivity.
Qed.

End Text.

(** ** Examples *)

Definition ascii_space (c : N) : bool := (c =? 32)%N || ((9 <=? c) && (c <=? 13))%N.

Definition ascii_lower (s : str) : str :=
  map (fun c => if ((65 <=? c) && (c <=? 90))%N then (c + 32)%N else c) s.

Definition example_chunks : list Chunk :=
  [ {| chapter := of_ascii "Einleitung"; section := of_ascii "Motivation";
       content := of_ascii "Der AI Act verlangt Transparenz." |};
    {| chapter := of_ascii "Untersuchung und Entwicklung";
       section := of_ascii "Risikomanagement";
       content := of_ascii "Risikomanagement nach Art. 9 umfasst die Risikoanalyse." |};
    {| chapter := of_ascii "Methodik"; section := of_ascii "Vorgehen";
       content := of_ascii "Interviews und Kodierung." |} ].

Definition empty_result : RetrieveResult unit :=
  {| knowledge := None; thesis_chunks := []; total_tokens_est := PyInt 0;
     embeddings_used := false |}.

Example keyword_retrieve_example :
  _keyword_retrieve ascii_space ascii_lower example_chunks
    (of_ascii "Was verlangt Transparenz?") (Some (of_ascii "D1")) None 5 3000
    empty_result
  = {| knowledge := None;
       thesis_chunks :=
         [ {| tc_chapter := of_ascii "Untersuchung und Entwicklung";
              tc_section := of_ascii "Risikomanagement";
              tc_content :=
                of_ascii "Risikomanagement nach Art. 9 umfasst die Risikoanalyse.";
              relevance_score := PyInt 5 |};
           {| tc_chapter := of_ascii "Einleitung";
              tc_section := of_ascii "Motivation";
              tc_content := of_ascii "Der AI Act verlangt Transparenz.";
              relevance_score := PyInt 1 |} ];
       total_tokens_est := PyFloat (of_ratio 18 1);
       embeddings_used := false |}.
Proof. vm_compute. reflexivity. Qed.

Lemma keyword_retrieve_budget_witness :
  let r := _keyword_retrieve ascii_space ascii_lower example_chunks
             (of_ascii "Was verlangt Transparenz?") (Some (of_ascii "D1")) None
             1 8 empty_result in
  number_gt_int (total_tokens_est r) 8 = false
  /\ thesis_chunks empty_result `prefix_of` thesis_chunks r
  /\ len (thesis_chunks r) <= Z.max 1 (len (thesis_chunks empty_result) + 1)
  /\ (thesis_chunks r = thesis_chunks empty_result -> total_tokens_est r = PyInt 0)
  /\ knowledge r = knowledge empty_result
  /\ embeddings_used r = embeddings_used empty_result.
Proof.
  apply (keyword_retrieve_budget ascii_space ascii_lower example_chunks
           (of_ascii "Was verlangt Transparenz?") (Some (of_ascii "D1")) None
           1 8 empty_result).
  lia.
Defined.

Lemma keyword_retrieve_nothing_witness :
  _keyword_retrieve ascii_space ascii_lower example_chunks
    (of_ascii "Was ist D1") (Some (of_ascii "d1")) None 5 3000 empty_result
  = {| knowledge := knowledge empty_result;
       thesis_chunks := thesis_chunks empty_result;
       total_tokens_est := PyInt 0;
       embeddings_used := embeddings_used empty_result |}.
Proof.
  apply (keyword_retrieve_nothing ascii_space ascii_lower example_chunks
           (of_ascii "Was ist D1") (Some (of_ascii "d1")) None 5 3000
           empty_result).
  right. split.
  - assert (Hw : split ascii_space (ascii_lower (of_ascii "Was ist D1"))
                 = [of_ascii "was"; of_ascii "ist"; of_ascii "d1"])
      by (vm_compute; reflexivity).
    rewrite Hw. repeat constructor; vm_compute; discriminate.
  - split; reflexivity.
Defined.

End RagProperties.
